(** * NodeQuizPro: exam submission, grading and countdown

    A shallow embedding of the exam-taking flow of the quiz platform:

    - the relational tables of [shared/schema.ts] as records and lists of
      rows, with the serial sequences of the two tables the handlers insert
      into, and the two column types a handler's write can violate (the
      [varchar(1)] of an answer and the [integer] of a score);
    - the storage operations of [server/storage.ts] ([DatabaseStorage]) as
      state-passing functions over the tables; a write that the database
      rejects throws;
    - the request handler of [server/routes.ts] for
      [POST /api/exams/:examId/submit] as a sequence of awaited storage
      calls, served alone or interleaved with other requests at its awaits;
    - the handlers for [GET /api/users/students] and
      [GET /api/exams/:examId/submissions], with the JavaScript objects
      they send;
    - the countdown of the [ExamTaking] page (its two timer effects and its
      availability redirect) as a state machine over React renders and
      one-second ticks;
    - the reading endpoints of [server/routes.ts] for exams, questions and
      the answers of a submission;
    - the answer sheet of the [ExamTaking] page (chosen answers, flags,
      navigation, the submit button) and its display of the remaining
      time.

    Integers are [Z]; timestamps are milliseconds since the epoch, as
    [Date.getTime()] gives them; a string is the sequence of its
    characters. *)

From Stdlib Require Import ZArith String List Bool Lia.
From Stdlib Require Import Permutation DecimalString Ascii.
Import ListNotations.
Open Scope string_scope.
Open Scope Z_scope.
Open Scope list_scope.

(** ** JavaScript numbers

    The running [score] of the grading loop is a JavaScript number, a
    double.  The values it takes are integers, the infinities and NaN: it
    starts at 0 and only point values (integers) are added to it.  The sum
    of two doubles is their exact sum rounded to the nearest double, ties
    to the even significand; an integer of magnitude up to 2^53 is a
    double. *)

Inductive Number :=
| Finite (value : Z)
| PlusInfinity
| MinusInfinity
| NaN.

(** The double nearest to the integer [z]. *)
Definition round (z : Z) : Number :=
  let m := Z.abs z in
  if m <=? 2 ^ 53 then Finite z
  else
    let ulp := 2 ^ (Z.log2 m - 52) in
    let q := m / ulp in
    let r := m mod ulp in
    let q' := if (ulp <? 2 * r) || ((2 * r =? ulp) && Z.odd q)
              then q + 1 else q in
    if 2 ^ 1024 <=? q' * ulp
    then (if z <? 0 then MinusInfinity else PlusInfinity)
    else Finite (Z.sgn z * (q' * ulp)).

(** [a + b]. *)
Definition js_add (a b : Number) : Number :=
  match a, b with
  | NaN, _ | _, NaN => NaN
  | PlusInfinity, MinusInfinity | MinusInfinity, PlusInfinity => NaN
  | PlusInfinity, _ | _, PlusInfinity => PlusInfinity
  | MinusInfinity, _ | _, MinusInfinity => MinusInfinity
  | Finite x, Finite y => round (x + y)
  end.

(** The value an [integer] column takes from a number; none when the
    database rejects it (out of range, or not an integer at all). *)
Definition int4 (n : Number) : option Z :=
  match n with
  | Finite z =>
      if (- 2 ^ 31 <=? z) && (z <? 2 ^ 31) then Some z else None
  | _ => None
  end.

(** ** Character columns

    What a [varchar(n)] column keeps of a string: the string itself when it
    has at most [n] characters; its first [n] characters when all the
    others are spaces; nothing (the statement fails) otherwise, or when the
    string contains the character NUL, which no text value may. *)

Definition has_nul (s : string) : bool :=
  existsb (Ascii.eqb Ascii.zero) (list_ascii_of_string s).

Definition all_spaces (s : string) : bool :=
  forallb (Ascii.eqb " "%char) (list_ascii_of_string s).

Definition varchar (n : nat) (s : string) : option string :=
  if has_nul s then None
  else if (String.length s <=? n)%nat then Some s
  else if all_spaces (substring n (String.length s - n) s)
       then Some (substring 0 n s)
       else None.

(** ** Data model ([shared/schema.ts]) *)

Inductive Role := teacher | student.
Inductive ExamStatus := upcoming | active | exam_completed | draft.
Inductive Difficulty := easy | medium | hard.
Inductive SubmissionStatus := in_progress | completed.

Definition Role_eqb (a b : Role) : bool :=
  match a, b with
  | teacher, teacher | student, student => true
  | _, _ => false
  end.

Definition SubmissionStatus_eqb (a b : SubmissionStatus) : bool :=
  match a, b with
  | in_progress, in_progress | completed, completed => true
  | _, _ => false
  end.

(** Strict equality [===] of two nullable strings ([string | null]). *)
Definition nullable_eqb (a b : option string) : bool :=
  match a, b with
  | Some x, Some y => String.eqb x y
  | None, None => true
  | _, _ => false
  end.

Module User.
Record t := mk {
  id : Z;
  studentId : option string;
  fullName : string;
  username : string;
  password : string;
  email : option string;
  role : Role;
  class : option string;
  createdAt : option Z
}.
End User.

Module Exam.
Record t := mk {
  id : Z;
  title : string;
  subject : string;
  class : string;
  topic : option string;
  startTime : Z;
  endTime : Z;
  duration : Z;
  status : ExamStatus;
  createdById : Z;
  createdAt : option Z
}.
End Exam.

Module Question.
Record t := mk {
  id : Z;
  examId : Z;
  content : string;
  options : list (string * string);
  correctAnswer : string;
  points : Z;
  difficulty : option Difficulty;
  topic : option string;
  createdAt : option Z
}.
End Question.

Module Submission.
Record t := mk {
  id : Z;
  examId : Z;
  userId : Z;
  startTime : Z;
  endTime : option Z;
  score : option Z;
  status : SubmissionStatus;
  createdAt : option Z
}.

(** [Partial<Submission>]: every column optional; an absent column is left
    as it is by [updateSubmission].  [N] is what a score is: a JavaScript
    number in the object a handler passes ([partial]), an integer once the
    database has taken it into the [integer] column ([columns]). *)
Record partial_of (N : Type) := mkPartial {
  p_id : option Z;
  p_examId : option Z;
  p_userId : option Z;
  p_startTime : option Z;
  p_endTime : option (option Z);
  p_score : option (option N);
  p_status : option SubmissionStatus;
  p_createdAt : option (option Z)
}.
Arguments mkPartial {N}.
Arguments p_id {N}.
Arguments p_examId {N}.
Arguments p_userId {N}.
Arguments p_startTime {N}.
Arguments p_endTime {N}.
Arguments p_score {N}.
Arguments p_status {N}.
Arguments p_createdAt {N}.

Definition partial := partial_of Number.
Definition columns := partial_of Z.

(** The values of [data] as column values; none when the score does not fit
    the [integer] column, in which case the statement fails. *)
Definition to_columns (data : partial) : option columns :=
  match p_score data with
  | Some (Some n) =>
      match int4 n with
      | Some z =>
          Some (mkPartial (p_id data) (p_examId data) (p_userId data)
                          (p_startTime data) (p_endTime data) (Some (Some z))
                          (p_status data) (p_createdAt data))
      | None => None
      end
  | Some None =>
      Some (mkPartial (p_id data) (p_examId data) (p_userId data)
                      (p_startTime data) (p_endTime data) (Some None)
                      (p_status data) (p_createdAt data))
  | None =>
      Some (mkPartial (p_id data) (p_examId data) (p_userId data)
                      (p_startTime data) (p_endTime data) None
                      (p_status data) (p_createdAt data))
  end.

Definition or_else {A} (new : option A) (old : A) : A :=
  match new with Some v => v | None => old end.

(** [{ ...submission, ...data }], the row after [.set(data)]. *)
Definition set (data : columns) (s : t) : t :=
  {| id := or_else (p_id data) (id s);
     examId := or_else (p_examId data) (examId s);
     userId := or_else (p_userId data) (userId s);
     startTime := or_else (p_startTime data) (startTime s);
     endTime := or_else (p_endTime data) (endTime s);
     score := or_else (p_score data) (score s);
     status := or_else (p_status data) (status s);
     createdAt := or_else (p_createdAt data) (createdAt s) |}.

(** [InsertSubmission]: the columns a caller supplies on insert. *)
Record insert := mkInsert {
  i_examId : Z;
  i_userId : Z;
  i_startTime : Z;
  i_status : SubmissionStatus
}.
End Submission.

Module Answer.
Record t := mk {
  id : Z;
  submissionId : Z;
  questionId : Z;
  answer : option string;
  isCorrect : option bool;
  createdAt : option Z
}.

(** [InsertAnswer]. *)
Record insert := mkInsert {
  i_submissionId : Z;
  i_questionId : Z;
  i_answer : option string;
  i_isCorrect : bool
}.
End Answer.

(** What the [answer] column, a nullable [varchar(1)], keeps of a
    submitted answer: [Some None] is NULL, [None] the failure of the
    insert. *)
Definition stored_answer (answer : option string) : option (option string) :=
  match answer with
  | None => Some None
  | Some s => option_map Some (varchar 1 s)
  end.

(** ** The store ([server/storage.ts], [DatabaseStorage])

    Each table is the list of its rows in the order a scan returns them,
    the order of insertion; [currentId] holds the next value of the serial
    sequence of each of the two tables the handlers insert into.  The
    inserting operations take the time [createdAt] defaults to.

    The tables are those of a database that enforces the schema.  The
    reads cannot fail.  Of the writes of the handlers, the references are
    to rows read in the same request and the ids are drawn from the
    sequences, so the key constraints hold; what a write can bring in that
    the schema rejects is an answer too long for its [varchar(1)] and a
    score outside its [integer]: then the statement fails, the tables stay
    as they are and the promise is rejected ([Thrown]). *)

Record Store := mkStore {
  users : list User.t;
  exams : list Exam.t;
  questions : list Question.t;
  submissions : list Submission.t;
  answers : list Answer.t;
  currentId_submissions : Z;
  currentId_answers : Z
}.

(** A small state monad over the store, for the storage calls. *)
Definition M (A : Type) : Type := Store -> A * Store.

Definition ret {A} (a : A) : M A := fun st => (a, st).
Definition bind {A B} (m : M A) (k : A -> M B) : M B :=
  fun st => let (a, st') := m st in k a st'.
Definition gets {A} (f : Store -> A) : M A := fun st => (f st, st).

Declare Scope store_scope.
Delimit Scope store_scope with store.
Notation "x <- m ;; k" := (bind m (fun x => k))
  (at level 61, m at next level, right associativity) : store_scope.
Open Scope store_scope.

(** How a promise settles. *)
Inductive Result (A : Type) :=
| Ok (a : A)
| Thrown.
Arguments Ok {A} a.
Arguments Thrown {A}.

Definition getUser (id : Z) : M (option User.t) :=
  gets (fun st => find (fun u => User.id u =? id) (users st)).

Definition getStudentsByClass (className : string) : M (list User.t) :=
  gets (fun st =>
    filter (fun u => Role_eqb (User.role u) student
                     && nullable_eqb (User.class u) (Some className))
           (users st)).

(** Each string once, by first occurrence. *)
Fixpoint distinct (l : list string) : list string :=
  match l with
  | [] => []
  | x :: r => x :: filter (fun y => negb (String.eqb x y)) (distinct r)
  end.

Definition class_of_student (u : User.t) : list string :=
  match User.role u, User.class u with
  | student, Some c => [c]
  | _, _ => []
  end.

(** [SELECT class FROM users WHERE role = 'student' AND class IS NOT NULL
    GROUP BY class]: one row per class.  SQL leaves the order of the rows
    to the database; [arrange] is the order the database gives them. *)
Definition getAllClasses (arrange : list string -> list string)
  : M (list string) :=
  gets (fun st => arrange (distinct (flat_map class_of_student (users st)))).

Definition getExam (id : Z) : M (option Exam.t) :=
  gets (fun st => find (fun e => Exam.id e =? id) (exams st)).

Definition getQuestionsByExam (examId : Z) : M (list Question.t) :=
  gets (fun st => filter (fun q => Question.examId q =? examId) (questions st)).

Definition getSubmissionsByExam (examId : Z) : M (list Submission.t) :=
  gets (fun st => filter (fun s => Submission.examId s =? examId) (submissions st)).

(** The store with the Submission row [row] inserted. *)
Definition insert_submission (row : Submission.t) (st : Store) : Store :=
  {| users := users st; exams := exams st; questions := questions st;
     submissions := submissions st ++ [row];
     answers := answers st;
     currentId_submissions := currentId_submissions st + 1;
     currentId_answers := currentId_answers st |}.

Definition createSubmission (now : Z) (d : Submission.insert) : M Submission.t :=
  fun st =>
    let row :=
      {| Submission.id := currentId_submissions st;
         Submission.examId := Submission.i_examId d;
         Submission.userId := Submission.i_userId d;
         Submission.startTime := Submission.i_startTime d;
         Submission.endTime := None;
         Submission.score := None;
         Submission.status := Submission.i_status d;
         Submission.createdAt := Some now |} in
    (row, insert_submission row st).

(** [UPDATE submissions SET data WHERE id = ... RETURNING *], first row of
    the returned rows. *)
Definition updateSubmission (id : Z) (data : Submission.partial)
  : M (Result (option Submission.t)) :=
  fun st =>
    match Submission.to_columns data with
    | None => (Thrown, st)
    | Some data =>
        let upd := fun s =>
          if Submission.id s =? id then Submission.set data s else s in
        (Ok (option_map (Submission.set data)
                        (find (fun s => Submission.id s =? id) (submissions st))),
         {| users := users st; exams := exams st; questions := questions st;
            submissions := map upd (submissions st);
            answers := answers st;
            currentId_submissions := currentId_submissions st;
            currentId_answers := currentId_answers st |})
    end.

(** The store with the Answer row [row] inserted. *)
Definition insert_answer (row : Answer.t) (st : Store) : Store :=
  {| users := users st; exams := exams st; questions := questions st;
     submissions := submissions st;
     answers := answers st ++ [row];
     currentId_submissions := currentId_submissions st;
     currentId_answers := currentId_answers st + 1 |}.

Definition saveAnswer (now : Z) (d : Answer.insert) : M (Result Answer.t) :=
  fun st =>
    match stored_answer (Answer.i_answer d) with
    | None => (Thrown, st)
    | Some answer =>
        let row :=
          {| Answer.id := currentId_answers st;
             Answer.submissionId := Answer.i_submissionId d;
             Answer.questionId := Answer.i_questionId d;
             Answer.answer := answer;
             Answer.isCorrect := Some (Answer.i_isCorrect d);
             Answer.createdAt := Some now |} in
        (Ok row, insert_answer row st)
    end.

(** ** Handlers

    A handler is an [async] function: it runs up to its next
    [await storage....], is suspended while the storage call is made, and
    goes on with what the call returns.  Between two awaits of one request
    the calls of other requests may be served.  A storage call that throws
    takes the handler to its [catch]. *)

Inductive Handler (A : Type) : Type :=
| Return (a : A)
| Await (B : Type) (call : M (Result B)) (k : B -> Handler A).
Arguments Return {A} a.
Arguments Await {A B} call k.

Fixpoint andThen {A B} (h : Handler A) (f : A -> Handler B) : Handler B :=
  match h with
  | Return a => f a
  | Await call k => Await call (fun b => andThen (k b) f)
  end.

Declare Scope handler_scope.
Delimit Scope handler_scope with handler.
Notation "x <- h ;; k" := (andThen h (fun x => k))
  (at level 61, h at next level, right associativity) : handler_scope.

(** [await] of a call that cannot fail, and of one that can. *)
Definition resolved {B} (call : M B) : M (Result B) :=
  fun st => let (b, st') := call st in (Ok b, st').

Definition await {B} (call : M B) : Handler B :=
  Await (resolved call) Return.

Definition await_or_throw {B} (call : M (Result B)) : Handler B :=
  Await call Return.

(** The handler run from start to end with no other request served in
    between. *)
Fixpoint run {A} (h : Handler A) (st : Store) : Result A * Store :=
  match h with
  | Return a => (Ok a, st)
  | Await call k =>
      match call st with
      | (Ok b, st') => run (k b) st'
      | (Thrown, st') => (Thrown, st')
      end
  end.

(** ** [POST /api/exams/:examId/submit] ([server/routes.ts])

    The request as the handler reads it: [req.user] ([None] when the session
    is not authenticated), the parsed [:examId], [req.body.answers] (which may
    be anything: the handler tests [Array.isArray]) and the time [new Date()]
    gives.  An entry of the array is [{ questionId, answer }] as the client
    sends it; [answer] may be [null]. *)

Record AnswerData := mkAnswerData {
  questionId : Z;
  answer : option string
}.

Inductive AnswersField :=
| NotAnArray
| AnArray (entries : list AnswerData).

Record SubmitRequest := mkSubmitRequest {
  req_user : option User.t;
  req_examId : Z;
  req_answers : AnswersField;
  req_now : Z
}.

(** The JavaScript objects the listings send: an object is its own
    properties in creation order. *)
Inductive JsValue :=
| JsNull
| JsNumber (n : Z)
| JsString (s : string)
| JsDate (ms : Z).

Definition Row := list (string * JsValue).

Definition property (key : string) (o : Row) : option JsValue :=
  option_map snd (find (fun p => String.eqb (fst p) key) o).

(** A [Record<string, any>] whose values are arrays of rows. *)
Definition Groups := list (string * list Row).

(** The JSON bodies the modelled handlers send. *)
Inductive Json :=
| Message (message : string)
| QuestionNotFound (questionId : Z)
| SubmissionJson (updatedSubmission : option Submission.t)
| StudentList (students : list Row)
| StudentsByClass (result : Groups)
| SubmissionList (result : list (Submission.t * Row)).

Record Response := mkResponse {
  statusCode : Z;
  json : Json
}.

Definition is_client_error (r : Response) : Prop :=
  400 <= statusCode r < 500.

(** The [catch] of the handlers. *)
Definition internal_error : Response :=
  mkResponse 500 (Message "Internal server error").

(** A handler served with no other request in between: what it responds and
    the store it leaves. *)
Definition served (h : Handler Response) : M Response :=
  fun st =>
    match run h st with
    | (Ok response, st') => (response, st')
    | (Thrown, st') => (internal_error, st')
    end.

(** [questions.find(q => q.id === questionId)]. *)
Definition find_question (questions : list Question.t) (questionId : Z)
  : option Question.t :=
  find (fun q => Question.id q =? questionId) questions.

(** [question.correctAnswer === answerData.answer]. *)
Definition isCorrect (question : Question.t) (answerData : AnswerData) : bool :=
  nullable_eqb (Some (Question.correctAnswer question)) (answer answerData).

(** The grading loop [for (const answerData of answers)], with the running
    [score]; [inl] is the early [return res.status(400)] on an unknown
    question id. *)
Fixpoint grade (now : Z) (questions : list Question.t) (submission : Submission.t)
    (answers : list AnswerData) (score : Number) : Handler (Response + Number) :=
  match answers with
  | [] => Return (inr score)
  | answerData :: rest =>
      match find_question questions (questionId answerData) with
      | None =>
          Return (inl (mkResponse 400 (QuestionNotFound (questionId answerData))))
      | Some question =>
          (_ <- await_or_throw
                  (saveAnswer now
                     {| Answer.i_submissionId := Submission.id submission;
                        Answer.i_questionId := questionId answerData;
                        Answer.i_answer := answer answerData;
                        Answer.i_isCorrect := isCorrect question answerData |});;
           grade now questions submission rest
                 (if isCorrect question answerData
                  then js_add score (Finite (Question.points question))
                  else score))%handler
      end
  end.

Definition already_completed (s : option Submission.t) : bool :=
  match s with
  | Some s => SubmissionStatus_eqb (Submission.status s) completed
  | None => false
  end.

Definition completion (now : Z) (score : Number) : Submission.partial :=
  {| Submission.p_id := None; Submission.p_examId := None;
     Submission.p_userId := None; Submission.p_startTime := None;
     Submission.p_endTime := Some (Some now);
     Submission.p_score := Some (Some score);
     Submission.p_status := Some completed;
     Submission.p_createdAt := None |}.

(** [let submission = studentSubmission; if (!submission) submission = await
    storage.createSubmission({...})]. *)
Definition reuse_or_create (now examId userId : Z) (found : option Submission.t)
  : Handler Submission.t :=
  match found with
  | Some s => Return s
  | None =>
      await (createSubmission now
               {| Submission.i_examId := examId;
                  Submission.i_userId := userId;
                  Submission.i_startTime := now;
                  Submission.i_status := in_progress |})
  end.

Definition submitHandler (req : SubmitRequest) : Handler Response :=
  match req_user req with
  | None => Return (mkResponse 403 (Message "Access denied"))
  | Some user =>
    if negb (Role_eqb (User.role user) student)
    then Return (mkResponse 403 (Message "Access denied"))
    else
      (exam <- await (getExam (req_examId req));;
       match exam with
       | None => Return (mkResponse 404 (Message "Exam not found"))
       | Some exam =>
         if negb (nullable_eqb (Some (Exam.class exam)) (User.class user))
         then Return (mkResponse 403 (Message "Access denied"))
         else
           existingSubmissions <- await (getSubmissionsByExam (req_examId req));;
           let studentSubmission :=
             find (fun s => Submission.userId s =? User.id user)
                  existingSubmissions in
           if already_completed studentSubmission
           then Return (mkResponse 400 (Message "Exam already submitted"))
           else
             questions <- await (getQuestionsByExam (req_examId req));;
             match req_answers req with
             | NotAnArray | AnArray [] =>
                 Return (mkResponse 400 (Message "No answers provided"))
             | AnArray answers =>
                 submission <-
                   reuse_or_create (req_now req) (req_examId req)
                                   (User.id user) studentSubmission;;
                 graded <- grade (req_now req) questions submission answers
                                 (Finite 0);;
                 match graded with
                 | inl rejection => Return rejection
                 | inr score =>
                     updatedSubmission <-
                       await_or_throw
                         (updateSubmission (Submission.id submission)
                            (completion (req_now req) score));;
                     Return (mkResponse 200 (SubmissionJson updatedSubmission))
                 end
             end
       end)%handler
  end.

(** The request served with no other request in between. *)
Definition submit (req : SubmitRequest) : M Response :=
  served (submitHandler req).

(** ** Requests served together

    The server holds the store and the requests in service, each as what is
    left of its handler.  A request arrives, or the storage call a request
    waits for is made and that request goes on to its next await (or to its
    response). *)

Record Server := mkServer {
  store : Store;
  in_service : list (Handler Response)
}.

Inductive Event :=
| Arrives (req : SubmitRequest)
| Resumes (i : nat).

Definition resume (h : Handler Response) (st : Store)
  : Handler Response * Store :=
  match h with
  | Return response => (Return response, st)
  | Await call k =>
      match call st with
      | (Ok b, st') => (k b, st')
      | (Thrown, st') => (Return internal_error, st')
      end
  end.

Fixpoint replace_nth {A} (i : nat) (x : A) (l : list A) : list A :=
  match l, i with
  | [], _ => []
  | _ :: rest, O => x :: rest
  | y :: rest, S i => y :: replace_nth i x rest
  end.

Definition react (sv : Server) (ev : Event) : Server :=
  match ev with
  | Arrives req => mkServer (store sv) (in_service sv ++ [submitHandler req])
  | Resumes i =>
      match nth_error (in_service sv) i with
      | Some h =>
          let (h', st') := resume h (store sv) in
          mkServer st' (replace_nth i h' (in_service sv))
      | None => sv
      end
  end.

Definition serving (evs : list Event) (sv : Server) : Server :=
  fold_left react evs sv.

(** The server with no request in service. *)
Definition idle (st : Store) : Server := mkServer st [].

(** The response of the [i]-th request, once it has one. *)
Definition response_of (i : nat) (sv : Server) : option Response :=
  match nth_error (in_service sv) i with
  | Some (Return response) => Some response
  | _ => None
  end.

(** Requests served one at a time, each to its end before the next. *)
Definition in_turn (reqs : list SubmitRequest) (st : Store) : Store :=
  fold_left (fun st req => snd (submit req st)) reqs st.

(** ** [GET /api/users/students] and [GET /api/exams/:examId/submissions] *)

Definition nullable_string (s : option string) : JsValue :=
  match s with Some s => JsString s | None => JsNull end.

Definition nullable_date (d : option Z) : JsValue :=
  match d with Some ms => JsDate ms | None => JsNull end.

Definition role_name (r : Role) : string :=
  match r with teacher => "teacher" | student => "student" end.

(** A row of the users table as the query returns it. *)
Definition userRow (u : User.t) : Row :=
  [("id", JsNumber (User.id u));
   ("studentId", nullable_string (User.studentId u));
   ("fullName", JsString (User.fullName u));
   ("username", JsString (User.username u));
   ("password", JsString (User.password u));
   ("email", nullable_string (User.email u));
   ("role", JsString (role_name (User.role u)));
   ("class", nullable_string (User.class u));
   ("createdAt", nullable_date (User.createdAt u))].

(** [const { key, ...rest } = o]: the properties other than [key]. *)
Definition rest_without (key : string) (o : Row) : Row :=
  filter (fun p => negb (String.eqb (fst p) key)) o.

(** [const { password, ...studentWithoutPassword } = s]. *)
Definition withoutPassword (s : User.t) : Row :=
  rest_without "password" (userRow s).

Definition is_teacher (user : option User.t) : bool :=
  match user with
  | Some u => Role_eqb (User.role u) teacher
  | None => false
  end.

(** [Number.prototype.toString] on an integer. *)
Definition toString (n : Z) : string :=
  NilZero.string_of_int (Z.to_int n).

(** The array index a property key is, if it is one: the canonical decimal
    string of an integer from 0 to 2^32 - 2. *)
Definition array_index (key : string) : option Z :=
  match NilZero.uint_of_string key with
  | Some d =>
      let n := Z.of_uint d in
      if String.eqb (toString n) key && (n <=? 4294967294)
      then Some n else None
  | None => None
  end.

(** A new property takes its place in the property order: array indices
    first, in ascending order, then the other keys in creation order. *)
Fixpoint insert_index {V} (i : Z) (key : string) (v : V)
    (o : list (string * V)) : list (string * V) :=
  match o with
  | [] => [(key, v)]
  | (key', v') :: rest =>
      match array_index key' with
      | Some j =>
          if j <? i then (key', v') :: insert_index i key v rest
          else (key, v) :: o
      | None => (key, v) :: o
      end
  end.

Definition define_property {V} (key : string) (v : V) (o : list (string * V))
  : list (string * V) :=
  match array_index key with
  | Some i => insert_index i key v o
  | None => o ++ [(key, v)]
  end.

Definition has_property {V} (key : string) (o : list (string * V)) : bool :=
  existsb (fun p => String.eqb (fst p) key) o.

(** [result[key] = v] on an object created by [{}], for [v] an array: the
    key [__proto__] is the accessor of [Object.prototype]; assigning to it
    sets the prototype of [result] and gives it no property. *)
Definition js_set (key : string) (v : list Row) (result : Groups) : Groups :=
  if String.eqb key "__proto__" then result
  else if has_property key result
       then map (fun p => if String.eqb (fst p) key then (key, v) else p)
                result
       else define_property key v result.

(** [result[key]] as [JSON.stringify] sees it: own properties only. *)
Definition group_of (key : string) (result : Groups) : option (list Row) :=
  option_map snd (find (fun p => String.eqb (fst p) key) result).

(** The loop [for (const cls of classes) result[cls] = ...]. *)
Fixpoint studentsOfClasses (classes : list string) (result : Groups)
  : M Groups :=
  match classes with
  | [] => ret result
  | cls :: rest =>
      students <- getStudentsByClass cls;;
      studentsOfClasses rest (js_set cls (map withoutPassword students) result)
  end.

(** [className] is [req.query.class]; the empty string is falsy. *)
Definition listStudents (arrange : list string -> list string)
    (user : option User.t) (className : option string) : M Response :=
  if negb (is_teacher user)
  then ret (mkResponse 403 (Message "Access denied"))
  else
    match className with
    | Some (String c r) =>
        students <- getStudentsByClass (String c r);;
        ret (mkResponse 200 (StudentList (map withoutPassword students)))
    | Some EmptyString | None =>
        classes <- getAllClasses arrange;;
        result <- studentsOfClasses classes [];;
        ret (mkResponse 200 (StudentsByClass result))
    end.

(** The loop [for (const submission of submissions)] of the per-exam
    listing: a submission whose user is missing or not a student is left
    out. *)
Fixpoint withStudents (subs : list Submission.t)
  : M (list (Submission.t * Row)) :=
  match subs with
  | [] => ret []
  | submission :: rest =>
      found <- getUser (Submission.userId submission);;
      result <- withStudents rest;;
      ret (match found with
           | Some s =>
               if Role_eqb (User.role s) student
               then (submission, withoutPassword s) :: result
               else result
           | None => result
           end)
  end.

Definition listSubmissions (user : option User.t) (examId : Z) : M Response :=
  match user with
  | None => ret (mkResponse 403 (Message "Access denied"))
  | Some u =>
    if negb (Role_eqb (User.role u) teacher)
    then ret (mkResponse 403 (Message "Access denied"))
    else
      exam <- getExam examId;;
      match exam with
      | None => ret (mkResponse 404 (Message "Exam not found"))
      | Some exam =>
          if negb (Exam.createdById exam =? User.id u)
          then ret (mkResponse 403 (Message "Access denied"))
          else
            subs <- getSubmissionsByExam examId;;
            result <- withStudents subs;;
            ret (mkResponse 200 (SubmissionList result))
      end
  end.

(** The user records a listing response carries. *)
Definition user_records (response : Response) : list Row :=
  match json response with
  | StudentList students => students
  | StudentsByClass result => concat (map snd result)
  | SubmissionList result => map snd result
  | _ => []
  end.

(** ** The countdown of the [ExamTaking] page

    The component state the two timer effects and the availability redirect
    touch.  [now] is the clock [new Date().getTime()] reads; [intervalRef]
    holds the id of the interval registered with the browser, if any (the
    page clears an interval and sets the ref to null together); [signals]
    counts the calls [setShowTimeUpDialog(true)], the time-expired signal;
    [callbacks] counts the runs of the interval callback; [mounted] becomes
    false when the page navigates away. *)

Module ExamTaking.

Record ExamData := mkExam {
  startTime : Z;
  endTime : Z
}.

Record State := mk {
  exam : option ExamData;
  timeRemaining : option Z;
  intervalRef : option Z;
  showTimeUpDialog : bool;
  mounted : bool;
  now : Z;
  timers : Z;
  signals : nat;
  callbacks : nat
}.

Definition set_exam (e : ExamData) (st : State) : State :=
  mk (Some e) (timeRemaining st) (intervalRef st) (showTimeUpDialog st)
     (mounted st) (now st) (timers st) (signals st) (callbacks st).

Definition set_timeRemaining (t : Z) (st : State) : State :=
  mk (exam st) (Some t) (intervalRef st) (showTimeUpDialog st)
     (mounted st) (now st) (timers st) (signals st) (callbacks st).

Definition clearInterval (st : State) : State :=
  mk (exam st) (timeRemaining st) None (showTimeUpDialog st)
     (mounted st) (now st) (timers st) (signals st) (callbacks st).

(** [intervalRef.current = window.setInterval(..., 1000)]. *)
Definition setInterval (st : State) : State :=
  mk (exam st) (timeRemaining st) (Some (timers st)) (showTimeUpDialog st)
     (mounted st) (now st) (timers st + 1) (signals st) (callbacks st).

(** [setShowTimeUpDialog(true)]. *)
Definition signalTimeUp (st : State) : State :=
  mk (exam st) (timeRemaining st) (intervalRef st) true
     (mounted st) (now st) (timers st) (S (signals st)) (callbacks st).

Definition elapse (ms : Z) (st : State) : State :=
  mk (exam st) (timeRemaining st) (intervalRef st) (showTimeUpDialog st)
     (mounted st) (now st + ms) (timers st) (signals st) (callbacks st).

Definition leave (st : State) : State :=
  mk (exam st) (timeRemaining st) (intervalRef st) (showTimeUpDialog st)
     false (now st) (timers st) (signals st) (callbacks st).

(** The browser runs the interval callback. *)
Definition called (st : State) : State :=
  mk (exam st) (timeRemaining st) (intervalRef st) (showTimeUpDialog st)
     (mounted st) (now st) (timers st) (signals st) (S (callbacks st)).

(** [Math.max(0, Math.floor((endTime - now) / 1000))]. *)
Definition initialTimeRemaining (e : ExamData) (now : Z) : Z :=
  Z.max 0 ((endTime e - now) / 1000).

(** [!timeRemaining]: true for [null] and for [0]. *)
Definition falsy (t : option Z) : bool :=
  match t with
  | None => true
  | Some v => v =? 0
  end.

(** Body of the first effect: the value it passes to [setTimeRemaining],
    if it calls it. *)
Definition initTimer (st : State) : option Z :=
  match exam st with
  | Some e =>
      if falsy (timeRemaining st)
      then Some (initialTimeRemaining e (now st)) else None
  | None => None
  end.

(** Cleanup and body of the second effect. *)
Definition timerCleanup (st : State) : State :=
  match intervalRef st with
  | Some _ => clearInterval st
  | None => st
  end.

Definition timerEffect (st : State) : State :=
  match timeRemaining st, intervalRef st with
  | Some _, None => setInterval st
  | _, _ => st
  end.

Definition same (a b : option Z) : bool :=
  match a, b with
  | Some x, Some y => x =? y
  | None, None => true
  | _, _ => false
  end.

(** The effects that follow a render in which [timeRemaining] changed:
    the cleanup of the timer effect, then both bodies in order; a value
    the first effect sets that differs from the rendered one gives
    another render.  [None] when [fuel] renders were not enough. *)
Fixpoint rerender (fuel : nat) (st : State) : option State :=
  match fuel with
  | O => None
  | S fuel =>
      let st1 := timerCleanup st in
      let queued := initTimer st1 in
      let st2 := timerEffect st1 in
      match queued with
      | Some v =>
          if same (Some v) (timeRemaining st2) then Some st2
          else rerender fuel (set_timeRemaining v st2)
      | None => Some st2
      end
  end.

(** [setTimeRemaining(v)]: a render only when the value changes. *)
Definition setTimeRemaining (v : Z) (st : State) : option State :=
  if same (Some v) (timeRemaining st) then Some st
  else rerender 2 (set_timeRemaining v st).

(** The interval callback, [setTimeRemaining(prevTime => ...)]: React runs
    the updater of a mounted component and drops the update of one that is
    no longer mounted. *)
Definition onInterval (st : State) : option State :=
  if mounted st
  then
    match timeRemaining st with
    | Some prevTime =>
        if prevTime <=? 0
        then setTimeRemaining 0 (signalTimeUp (clearInterval st))
        else setTimeRemaining (prevTime - 1) st
    | None => setTimeRemaining 0 (signalTimeUp (clearInterval st))
    end
  else Some st.

(** One second passes; the browser runs the callback of the interval, if
    one is registered. *)
Definition tick (st : State) : option State :=
  let st := elapse 1000 st in
  match intervalRef st with
  | Some _ => onInterval (called st)
  | None => Some st
  end.

Fixpoint ticks (n : nat) (st : State) : option State :=
  match n with
  | O => Some st
  | S n =>
      match tick st with
      | Some st' => ticks n st'
      | None => None
      end
  end.

(** [startTime <= now && endTime >= now]. *)
Definition isExamAvailable (e : ExamData) (now : Z) : bool :=
  (startTime e <=? now) && (endTime e >=? now).

(** Unmount after [navigate('/student/exams')]: the cleanup runs. *)
Definition unmount (st : State) : State :=
  leave (timerCleanup st).

Definition mount (now : Z) : State :=
  mk None None None false true now 1 0 0.

(** The render in which the exam query delivers [e]: the first effect and
    the redirect effect run (their dependencies changed); the timer effect
    does not ([timeRemaining] is as it was). *)
Definition examLoaded (e : ExamData) (st : State) : option State :=
  let st1 := set_exam e st in
  let queued := initTimer st1 in
  if negb (isExamAvailable e (now st1)) then Some (unmount st1)
  else
    match queued with
    | Some v => setTimeRemaining v st1
    | None => Some st1
    end.

(** Opening the page at time [now] on exam [e]. *)
Definition openPage (e : ExamData) (now : Z) : option State :=
  examLoaded e (mount now).

Definition run (e : ExamData) (now : Z) (n : nat) : option State :=
  match openPage e now with
  | Some st => ticks n st
  | None => None
  end.

(** The countdown is running: [r] seconds are shown, an interval is set,
    [n] signals were raised so far, and the shown seconds are the whole
    seconds left to the end time. *)
Definition counting (e : ExamData) (r : Z) (n : nat) (st : State) : Prop :=
  exam st = Some e /\
  timeRemaining st = Some r /\
  intervalRef st <> None /\
  mounted st = true /\
  signals st = n /\
  1000 * r <= endTime e - now st < 1000 * r + 1000.

(** The countdown has stopped at zero: no interval is set any more. *)
Definition stopped (n : nat) (st : State) : Prop :=
  timeRemaining st = Some 0 /\ intervalRef st = None /\ signals st = n.

(** An exam that started at time 0 and ends at 65 s. *)
Definition sample : ExamData := mkExam 0 65000.

End ExamTaking.

(** ** Specification-level notions

    The yardsticks the theorems measure the handlers against.  They are
    written from the wording of the properties, with equality as a
    proposition and their own lookup, not with the functions of the
    handlers. *)

(** The question with a given id. *)
Fixpoint question_with_id (questions : list Question.t) (id : Z)
  : option Question.t :=
  match questions with
  | [] => None
  | question :: rest =>
      if Z.eq_dec (Question.id question) id then Some question
      else question_with_id rest id
  end.

(** The entry chose the option the question stores as correct. *)
Definition chose_correct (question : Question.t) (a : AnswerData) : Prop :=
  answer a = Some (Question.correctAnswer question).

Definition chose_correct_dec (question : Question.t) (a : AnswerData)
  : {chose_correct question a} + {~ chose_correct question a}.
Proof.
  unfold chose_correct. decide equality. apply string_dec.
Defined.

(** The points an entry of a submitted list earns. *)
Definition points_earned (questions : list Question.t) (a : AnswerData) : Z :=
  match question_with_id questions (questionId a) with
  | Some question =>
      if chose_correct_dec question a then Question.points question else 0
  | None => 0
  end.

(** The sum over the entries of the list, an entry repeated counting each
    time. *)
Definition entries_score (questions : list Question.t) (l : list AnswerData)
  : Z :=
  fold_right (fun a acc => points_earned questions a + acc) 0 l.

Definition sum_points (l : list Question.t) : Z :=
  fold_right (fun question acc => Question.points question + acc) 0 l.

(** The sum over the questions that the list names with their correct
    option, each question once. *)
Definition correctly_answered_in (l : list AnswerData) (question : Question.t)
  : bool :=
  existsb (fun a =>
             if Z.eq_dec (questionId a) (Question.id question)
             then (if chose_correct_dec question a then true else false)
             else false) l.

Definition questions_score (questions : list Question.t) (l : list AnswerData)
  : Z :=
  sum_points (filter (correctly_answered_in l) questions).

(** The questions the entries of a list answer correctly, one per such
    entry. *)
Definition correctly_answered (questions : list Question.t)
    (l : list AnswerData) : list Question.t :=
  flat_map (fun a =>
              match question_with_id questions (questionId a) with
              | Some question =>
                  if chose_correct_dec question a then [question] else []
              | None => []
              end) l.

(** Every point value is within the [integer] column. *)
Definition int4_points (questions : list Question.t) : Prop :=
  forall question, In question questions ->
    - 2 ^ 31 <= Question.points question < 2 ^ 31.

(** The list of a request; empty when [answers] is not an array. *)
Definition submitted (req : SubmitRequest) : list AnswerData :=
  match req_answers req with
  | AnArray l => l
  | NotAnArray => []
  end.

(** The entries that precede the first entry naming a question the exam
    does not have (all of [l] when there is none), and that first id. *)
Fixpoint known_prefix (questions : list Question.t) (l : list AnswerData)
  : list AnswerData :=
  match l with
  | [] => []
  | a :: rest =>
      match question_with_id questions (questionId a) with
      | Some _ => a :: known_prefix questions rest
      | None => []
      end
  end.

Fixpoint first_unknown (questions : list Question.t) (l : list AnswerData)
  : option Z :=
  match l with
  | [] => None
  | a :: rest =>
      match question_with_id questions (questionId a) with
      | Some _ => first_unknown questions rest
      | None => Some (questionId a)
      end
  end.

(** The answer of the entry is one its column takes. *)
Definition storable (a : AnswerData) : Prop :=
  stored_answer (answer a) <> None.

(** The Answer row [r] is the row of entry [a], for submission [sid]: it
    names the submission and the question of the entry and holds the
    entry's answer as the column keeps it. *)
Definition row_of_entry (sid : Z) (a : AnswerData) (r : Answer.t) : Prop :=
  Answer.submissionId r = sid /\
  Answer.questionId r = questionId a /\
  Some (Answer.answer r) = stored_answer (answer a).

(** The questions of the exam a request is for, and the submission the
    handler finds for the student
    ([existingSubmissions.find(s => s.userId === req.user.id)]). *)
Definition exam_questions (req : SubmitRequest) (st : Store) : list Question.t :=
  fst (getQuestionsByExam (req_examId req) st).

Definition studentSubmission (examId userId : Z) (st : Store)
  : option Submission.t :=
  find (fun s => Submission.userId s =? userId)
       (fst (getSubmissionsByExam examId st)).

(** The id of the submission a request grades: that of the submission
    found for the student, or the next value of the sequence when a new
    one is inserted. *)
Definition graded_id (req : SubmitRequest) (user : User.t) (st : Store) : Z :=
  match studentSubmission (req_examId req) (User.id user) st with
  | Some s => Submission.id s
  | None => currentId_submissions st
  end.

(** The data-model invariant: at most one submission per (exam, student). *)
Definition one_submission_per_pair (st : Store) : Prop :=
  forall s1 s2,
    In s1 (submissions st) -> In s2 (submissions st) ->
    Submission.examId s1 = Submission.examId s2 ->
    Submission.userId s1 = Submission.userId s2 ->
    s1 = s2.

(** The (submission, question) pair an Answer row is for. *)
Definition answer_key (r : Answer.t) : Z * Z :=
  (Answer.submissionId r, Answer.questionId r).

Definition answers_of (submissionId : Z) (st : Store) : list Answer.t :=
  filter (fun r => Answer.submissionId r =? submissionId) (answers st).

(** What a grading request leaves of a Submission row. *)
Definition kept (old new : Submission.t) : Prop :=
  Submission.id new = Submission.id old /\
  Submission.examId new = Submission.examId old /\
  Submission.userId new = Submission.userId old /\
  Submission.startTime new = Submission.startTime old /\
  Submission.createdAt new = Submission.createdAt old.





(** The user [u] with another stored password; two users, two stores and
    two callers that differ at most in stored passwords. *)
Definition with_password (pw : string) (u : User.t) : User.t :=
  {| User.id := User.id u; User.studentId := User.studentId u;
     User.fullName := User.fullName u; User.username := User.username u;
     User.password := pw; User.email := User.email u;
     User.role := User.role u; User.class := User.class u;
     User.createdAt := User.createdAt u |}.

Definition same_but_password (u1 u2 : User.t) : Prop :=
  u2 = with_password (User.password u2) u1.

Definition differ_only_in_passwords (st1 st2 : Store) : Prop :=
  Forall2 same_but_password (users st1) (users st2) /\
  exams st1 = exams st2 /\
  questions st1 = questions st2 /\
  submissions st1 = submissions st2 /\
  answers st1 = answers st2.

Definition same_caller (user1 user2 : option User.t) : Prop :=
  match user1, user2 with
  | Some u1, Some u2 => same_but_password u1 u2
  | None, None => True
  | _, _ => False
  end.

(** The database gives the classes in some order, each once. *)
Definition arranges (arrange : list string -> list string) : Prop :=
  forall l, Permutation l (arrange l).

(** A rejection by one of the checks that precede every write. *)
Definition rejected_early (st : Store) (resp : Response) (st' : Store) : Prop :=
  st' = st /\
  exists code msg, resp = mkResponse code (Message msg) /\ 400 <= code < 500.

(** The score a response carries, if it carries a submission. *)
Definition response_score (resp : Response) : option Z :=
  match json resp with
  | SubmissionJson (Some s) => Submission.score s
  | _ => None
  end.

(** The serial sequences are ahead of every stored id. *)
Definition sequences_ahead (st : Store) : Prop :=
  (forall s, In s (submissions st) -> Submission.id s < currentId_submissions st) /\
  (forall r, In r (answers st) -> Answer.id r < currentId_answers st).

(** A running score that has left the range in which sums are exact, on
    the positive side. *)
Definition big (n : Number) : Prop :=
  n = PlusInfinity \/ exists w, n = Finite w /\ 2 ^ 53 <= w.

(** ** Sample data *)

(** The end-to-end scenario of the specification: three questions with
    correct answers A, B, C worth 1, 2, 3 points; the student answers
    A, B, D. *)
Definition sampleQuestion (id : Z) (correct : string) (pts : Z) : Question.t :=
  {| Question.id := id; Question.examId := 1; Question.content := "";
     Question.options := []; Question.correctAnswer := correct;
     Question.points := pts; Question.difficulty := Some medium;
     Question.topic := None; Question.createdAt := None |}.

Definition pupil (id : Z) (pw : string) : User.t :=
  {| User.id := id; User.studentId := Some "S1"; User.fullName := "An";
     User.username := "an"; User.password := pw; User.email := None;
     User.role := student; User.class := Some "10A";
     User.createdAt := None |}.

Definition exam1 : Exam.t :=
  {| Exam.id := 1; Exam.title := "Algebra"; Exam.subject := "mathematics";
     Exam.class := "10A"; Exam.topic := None; Exam.startTime := 0;
     Exam.endTime := 3600000; Exam.duration := 60; Exam.status := active;
     Exam.createdById := 9; Exam.createdAt := None |}.

Definition store0 : Store :=
  {| users := [pupil 7 "secret"]; exams := [exam1];
     questions := [sampleQuestion 1 "A" 1; sampleQuestion 2 "B" 2;
                   sampleQuestion 3 "C" 3];
     submissions := []; answers := [];
     currentId_submissions := 1; currentId_answers := 1 |}.

Definition request0 (l : list AnswerData) : SubmitRequest :=
  {| req_user := Some (pupil 7 "secret"); req_examId := 1;
     req_answers := AnArray l; req_now := 1000 |}.

Definition abd : list AnswerData :=
  [mkAnswerData 1 (Some "A"); mkAnswerData 2 (Some "B"); mkAnswerData 3 (Some "D")].

(** Sample requests on [store0]. *)
Definition twice : list AnswerData :=
  [mkAnswerData 1 (Some "A"); mkAnswerData 1 (Some "B")].

Definition thrice : list AnswerData :=
  [mkAnswerData 3 (Some "C"); mkAnswerData 3 (Some "C"); mkAnswerData 3 (Some "C")].

Definition unknown_third : list AnswerData :=
  [mkAnswerData 1 (Some "A"); mkAnswerData 2 (Some "C"); mkAnswerData 99 (Some "A")].

Definition unknown_only : list AnswerData :=
  [mkAnswerData 99 (Some "A")].

Definition too_long_first : list AnswerData :=
  [mkAnswerData 1 (Some "AB"); mkAnswerData 99 (Some "A")].

Definition padded : list AnswerData :=
  [mkAnswerData 1 (Some "A "); mkAnswerData 2 (Some "B")].

(** A school with a teacher who owns [exam1] and one pupil who has
    submitted it, for two choices of stored passwords. *)
Definition master (pw : string) : User.t :=
  {| User.id := 9; User.studentId := None; User.fullName := "Binh";
     User.username := "binh"; User.password := pw;
     User.email := Some "binh@school"; User.role := teacher;
     User.class := None; User.createdAt := None |}.

Definition school (pw_teacher pw_pupil : string) : Store :=
  {| users := [master pw_teacher; pupil 7 pw_pupil]; exams := [exam1];
     questions := [sampleQuestion 1 "A" 1; sampleQuestion 2 "B" 2;
                   sampleQuestion 3 "C" 3];
     submissions :=
       [Submission.mk 1 1 7 1000 (Some 1000) (Some 3) completed (Some 1000)];
     answers := [];
     currentId_submissions := 2; currentId_answers := 1 |}.

(** [store0] once the student has submitted A, B, D. *)
Definition store_completed : Store := snd (submit (request0 abd) store0).

(** [store0] after the rejected batch [unknown_third]: the submission is
    still in progress. *)
Definition store_in_progress : Store :=
  snd (submit (request0 unknown_third) store0).

(** Two requests of the pupil that race: both read the submissions of the
    exam before either inserts one.  The first names an unknown question
    and is rejected once its submission is inserted; the second is graded
    and completed. *)
Definition race : list Event :=
  [Arrives (request0 unknown_only); Arrives (request0 abd);
   Resumes 0; Resumes 0; Resumes 0;
   Resumes 1; Resumes 1; Resumes 1;
   Resumes 0;
   Resumes 1; Resumes 1; Resumes 1; Resumes 1; Resumes 1].

Definition store_raced : Store := store (serving race (idle store0)).

(** A request that is resumed after another one, admitted later, has
    already completed the submission both found in progress. *)
Definition overtaking : list Event :=
  [Arrives (request0 twice); Arrives (request0 abd);
   Resumes 0; Resumes 0; Resumes 0;
   Resumes 1; Resumes 1; Resumes 1; Resumes 1; Resumes 1; Resumes 1;
   Resumes 1;
   Resumes 0; Resumes 0; Resumes 0].

(** The pupil's request served to its end, and a second request of the
    pupil for the same exam arriving then, resumed twice. *)
Definition served_abd : list Event :=
  Arrives (request0 abd) :: repeat (Resumes 0) 8.

Definition second_request : list Event := [Resumes 1; Resumes 1].

(** The database arranging the classes in reverse. *)
Definition reversed (l : list string) : list string := rev l.

(** A pupil of the class called [__proto__], and a school with one pupil
    of class 10A and that one. *)
Definition proto_pupil : User.t :=
  {| User.id := 8; User.studentId := Some "S2"; User.fullName := "Chi";
     User.username := "chi"; User.password := "pw"; User.email := None;
     User.role := student; User.class := Some "__proto__";
     User.createdAt := None |}.

Definition proto_school : Store :=
  {| users := [master "pw1"; pupil 7 "secret"; proto_pupil];
     exams := [exam1]; questions := []; submissions := []; answers := [];
     currentId_submissions := 1; currentId_answers := 1 |}.

(** ** The submission handler in parts

    The early returns of the handler, in source order, as one function: the
    rejection, or what the writing part starts from (the student, the
    submission found for them and the non-empty answer list); and the
    writing part that follows them, in closed form: the row acquired, the
    Answer rows the loop writes, where it halts, and the final update.
    [submit_unfold] below shows the handler served alone is the one
    followed by the other. *)
Definition admission (req : SubmitRequest) (st : Store)
  : Response + (User.t * option Submission.t * list AnswerData) :=
  match req_user req with
  | None => inl (mkResponse 403 (Message "Access denied"))
  | Some user =>
    if negb (Role_eqb (User.role user) student)
    then inl (mkResponse 403 (Message "Access denied"))
    else
      match fst (getExam (req_examId req) st) with
      | None => inl (mkResponse 404 (Message "Exam not found"))
      | Some exam =>
        if negb (nullable_eqb (Some (Exam.class exam)) (User.class user))
        then inl (mkResponse 403 (Message "Access denied"))
        else
          let found := studentSubmission (req_examId req) (User.id user) st in
          if already_completed found
          then inl (mkResponse 400 (Message "Exam already submitted"))
          else
            match req_answers req with
            | NotAnArray | AnArray [] =>
                inl (mkResponse 400 (Message "No answers provided"))
            | AnArray answers => inr (user, found, answers)
            end
      end
  end.

(** The submission graded, and the store once it is there. *)
Definition acquire (now examId userId : Z) (found : option Submission.t)
  : M Submission.t :=
  match found with
  | Some s => ret s
  | None =>
      createSubmission now
        {| Submission.i_examId := examId;
           Submission.i_userId := userId;
           Submission.i_startTime := now;
           Submission.i_status := in_progress |}
  end.

(** The row [acquire] inserts when none is found. *)
Definition new_submission (now examId userId : Z) (st : Store) : Submission.t :=
  {| Submission.id := currentId_submissions st;
     Submission.examId := examId;
     Submission.userId := userId;
     Submission.startTime := now;
     Submission.endTime := None;
     Submission.score := None;
     Submission.status := in_progress;
     Submission.createdAt := Some now |}.

(** The final update once its score is in the column, and the store after
    it. *)
Definition completed_columns (now score : Z) : Submission.columns :=
  {| Submission.p_id := None; Submission.p_examId := None;
     Submission.p_userId := None; Submission.p_startTime := None;
     Submission.p_endTime := Some (Some now);
     Submission.p_score := Some (Some score);
     Submission.p_status := Some completed;
     Submission.p_createdAt := None |}.

Definition complete (id now score : Z) (st : Store) : Store :=
  {| users := users st; exams := exams st; questions := questions st;
     submissions :=
       map (fun s => if Submission.id s =? id
                     then Submission.set (completed_columns now score) s
                     else s) (submissions st);
     answers := answers st;
     currentId_submissions := currentId_submissions st;
     currentId_answers := currentId_answers st |}.

(** Where the loop halts on a list. *)
Inductive Halt :=
| Finished
| AtUnknown (questionId : Z)
| AtUnstorable.

Fixpoint halt (questions : list Question.t) (l : list AnswerData) : Halt :=
  match l with
  | [] => Finished
  | a :: rest =>
      match question_with_id questions (questionId a) with
      | None => AtUnknown (questionId a)
      | Some _ =>
          match stored_answer (answer a) with
          | None => AtUnstorable
          | Some _ => halt questions rest
          end
      end
  end.

(** The entries the loop has persisted when it halts. *)
Fixpoint graded_prefix (questions : list Question.t) (l : list AnswerData)
  : list AnswerData :=
  match l with
  | [] => []
  | a :: rest =>
      match question_with_id questions (questionId a),
            stored_answer (answer a) with
      | Some _, Some _ => a :: graded_prefix questions rest
      | _, _ => []
      end
  end.

(** The Answer rows the loop writes for [l], numbered from [id]. *)
Fixpoint written_rows (now submissionId : Z) (questions : list Question.t)
    (id : Z) (l : list AnswerData) : list Answer.t :=
  match l with
  | [] => []
  | a :: rest =>
      match question_with_id questions (questionId a),
            stored_answer (answer a) with
      | Some question, Some kept =>
          {| Answer.id := id;
             Answer.submissionId := submissionId;
             Answer.questionId := questionId a;
             Answer.answer := kept;
             Answer.isCorrect :=
               Some (if chose_correct_dec question a then true else false);
             Answer.createdAt := Some now |}
          :: written_rows now submissionId questions (id + 1) rest
      | _, _ => []
      end
  end.

(** The point values the loop adds to the running score, in order, and the
    running score after them. *)
Definition earned (questions : list Question.t) (l : list AnswerData)
  : list Z :=
  flat_map (fun a =>
              match question_with_id questions (questionId a) with
              | Some question =>
                  if chose_correct_dec question a
                  then [Question.points question] else []
              | None => []
              end) l.

Definition js_total (score : Number) (points : list Z) : Number :=
  fold_left (fun s p => js_add s (Finite p)) points score.

(** The store with Answer rows added, and the sequence moved on. *)
Definition add_answers (rows : list Answer.t) (st : Store) : Store :=
  {| users := users st; exams := exams st; questions := questions st;
     submissions := submissions st;
     answers := answers st ++ rows;
     currentId_submissions := currentId_submissions st;
     currentId_answers := currentId_answers st + Z.of_nat (length rows) |}.

Definition grading (req : SubmitRequest) (questions : list Question.t)
    (user : User.t) (found : option Submission.t) (l : list AnswerData)
  : M Response :=
  fun st =>
    let (submission, st1) :=
      acquire (req_now req) (req_examId req) (User.id user) found st in
    let st2 :=
      add_answers (written_rows (req_now req) (Submission.id submission)
                                questions (currentId_answers st1) l) st1 in
    match halt questions l with
    | AtUnknown questionId =>
        (mkResponse 400 (QuestionNotFound questionId), st2)
    | AtUnstorable => (internal_error, st2)
    | Finished =>
        match updateSubmission (Submission.id submission)
                (completion (req_now req)
                            (js_total (Finite 0) (earned questions l))) st2 with
        | (Ok updatedSubmission, st3) =>
            (mkResponse 200 (SubmissionJson updatedSubmission), st3)
        | (Thrown, st3) => (internal_error, st3)
        end
    end.

(** ** Reading endpoints ([server/routes.ts])

    [GET /api/exams], [GET /api/exams/:id], [GET /api/exams/:examId/questions]
    and [GET /api/submissions/:id/answers], with the storage reads they
    use.  A reply is a refusal with its status and message, or the data
    sent with its status. *)

Inductive Reply (A : Type) :=
| Refused (code : Z) (message : string)
| Sent (code : Z) (data : A).
Arguments Refused {A} code message.
Arguments Sent {A} code data.

Definition getQuestion (id : Z) : M (option Question.t) :=
  gets (fun st => find (fun q => Question.id q =? id) (questions st)).

Definition getSubmission (id : Z) : M (option Submission.t) :=
  gets (fun st => find (fun s => Submission.id s =? id) (submissions st)).

Definition getAnswersBySubmission (submissionId : Z) : M (list Answer.t) :=
  gets (fun st =>
    filter (fun r => Answer.submissionId r =? submissionId) (answers st)).

Definition getExamsForTeacher (teacherId : Z) : M (list Exam.t) :=
  gets (fun st => filter (fun e => Exam.createdById e =? teacherId) (exams st)).

Definition getExamsForClass (className : string) : M (list Exam.t) :=
  gets (fun st => filter (fun e => String.eqb (Exam.class e) className) (exams st)).

(** [req.user?.class || '']. *)
Definition class_or_empty (user : User.t) : string :=
  match User.class user with
  | Some (String c r) => String c r
  | Some EmptyString | None => EmptyString
  end.

(** [GET /api/exams]. *)
Definition listExams (user : option User.t) : M (Reply (list Exam.t)) :=
  match user with
  | None => ret (Refused 401 "Authentication required")
  | Some u =>
      exams <-
        (if Role_eqb (User.role u) teacher
         then getExamsForTeacher (User.id u)
         else getExamsForClass (class_or_empty u));;
      ret (Sent 200 exams)
  end.

(** [req.user?.role === 'student' && exam.class !== req.user.class]. *)
Definition other_class (u : User.t) (exam : Exam.t) : bool :=
  Role_eqb (User.role u) student
  && negb (nullable_eqb (Some (Exam.class exam)) (User.class u)).

(** [GET /api/exams/:id]. *)
Definition readExam (user : option User.t) (examId : Z) : M (Reply Exam.t) :=
  match user with
  | None => ret (Refused 401 "Authentication required")
  | Some u =>
      exam <- getExam examId;;
      match exam with
      | None => ret (Refused 404 "Exam not found")
      | Some exam =>
          if other_class u exam
          then ret (Refused 403 "Access denied")
          else ret (Sent 200 exam)
      end
  end.

(** [GET /api/exams/:examId/questions]. *)
Definition readQuestions (user : option User.t) (examId : Z)
  : M (Reply (list Question.t)) :=
  match user with
  | None => ret (Refused 401 "Authentication required")
  | Some u =>
      exam <- getExam examId;;
      match exam with
      | None => ret (Refused 404 "Exam not found")
      | Some exam =>
          if other_class u exam
          then ret (Refused 403 "Access denied")
          else
            questions <- getQuestionsByExam examId;;
            ret (Sent 200 questions)
      end
  end.

(** The loop [for (const answer of answers)] of the answers endpoint:
    [{ ...answer, question: question || undefined }]. *)
Fixpoint withQuestions (rows : list Answer.t)
  : M (list (Answer.t * option Question.t)) :=
  match rows with
  | [] => ret []
  | answer :: rest =>
      question <- getQuestion (Answer.questionId answer);;
      result <- withQuestions rest;;
      ret ((answer, question) :: result)
  end.

(** [GET /api/submissions/:id/answers]. *)
Definition readAnswers (user : option User.t) (submissionId : Z)
  : M (Reply (list (Answer.t * option Question.t))) :=
  match user with
  | None => ret (Refused 401 "Authentication required")
  | Some u =>
      submission <- getSubmission submissionId;;
      match submission with
      | None => ret (Refused 404 "Submission not found")
      | Some submission =>
          if Role_eqb (User.role u) student
             && negb (Submission.userId submission =? User.id u)
          then ret (Refused 403 "Access denied")
          else
            allowed <-
              (if Role_eqb (User.role u) teacher
               then
                 exam <- getExam (Submission.examId submission);;
                 ret (match exam with
                      | Some exam => Exam.createdById exam =? User.id u
                      | None => false
                      end)
               else ret true);;
            if negb allowed
            then ret (Refused 403 "Access denied")
            else
              answers <- getAnswersBySubmission submissionId;;
              result <- withQuestions answers;;
              ret (Sent 200 result)
      end
  end.

(** ** The answer sheet of the [ExamTaking] page

    The rest of the component state: the fetched questions, the index of
    the question shown, the chosen answers, the flagged indices, the
    confirmation dialog, and the batches handed to the submit mutation, in
    call order.

    [userAnswers] is a JavaScript object keyed by question id, held here as
    its entries in enumeration order: question ids are serial ids, hence
    array-index keys, which are enumerated in ascending order. *)

Module AnswerSheet.

Inductive SubmissionState := idle | submitting | success | error.

Record State := mk {
  questions : option (list Question.t);
  currentQuestionIndex : Z;
  userAnswers : list (Z * string);
  flaggedQuestions : list Z;
  showSubmitDialog : bool;
  submissionState : SubmissionState;
  mutations : list (list AnswerData)
}.

(** [{ ...prev, [k]: v }]. *)
Fixpoint assign (k : Z) (v : string) (o : list (Z * string))
  : list (Z * string) :=
  match o with
  | [] => [(k, v)]
  | (k', v') :: rest =>
      if k =? k' then (k, v) :: rest
      else if k <? k' then (k, v) :: (k', v') :: rest
      else (k', v') :: assign k v rest
  end.

(** [k in o] and [o[k]]. *)
Definition has (k : Z) (o : list (Z * string)) : bool :=
  existsb (fun e => fst e =? k) o.

Definition get (k : Z) (o : list (Z * string)) : option string :=
  option_map snd (find (fun e => fst e =? k) o).

(** [questions[i]]: undefined out of range. *)
Definition at_index (qs : list Question.t) (i : Z) : option Question.t :=
  if i <? 0 then None else nth_error qs (Z.to_nat i).

Definition isCurrentQuestionAnswered (st : State) : bool :=
  match questions st with
  | None => false
  | Some qs =>
      match at_index qs (currentQuestionIndex st) with
      | Some question => has (Question.id question) (userAnswers st)
      | None => false
      end
  end.

(** [flaggedQuestions.includes(i)]. *)
Definition includes (i : Z) (l : list Z) : bool :=
  existsb (fun j => j =? i) l.

Definition isCurrentQuestionFlagged (st : State) : bool :=
  includes (currentQuestionIndex st) (flaggedQuestions st).

Definition set_index (i : Z) (st : State) : State :=
  mk (questions st) i (userAnswers st) (flaggedQuestions st)
     (showSubmitDialog st) (submissionState st) (mutations st).

(** [None] is the TypeError of [questions[currentQuestionIndex].id] on an
    index without question. *)
Definition handleAnswerSelect (answer : string) (st : State) : option State :=
  match questions st with
  | None => Some st
  | Some qs =>
      match at_index qs (currentQuestionIndex st) with
      | None => None
      | Some question =>
          Some (mk (questions st) (currentQuestionIndex st)
                   (assign (Question.id question) answer (userAnswers st))
                   (flaggedQuestions st) (showSubmitDialog st)
                   (submissionState st) (mutations st))
      end
  end.

Definition handleNextQuestion (st : State) : State :=
  match questions st with
  | None => st
  | Some qs =>
      if currentQuestionIndex st <? Z.of_nat (length qs) - 1
      then set_index (currentQuestionIndex st + 1) st
      else st
  end.

Definition handlePrevQuestion (st : State) : State :=
  if currentQuestionIndex st >? 0
  then set_index (currentQuestionIndex st - 1) st
  else st.

Definition handleGoToQuestion (index : Z) (st : State) : State :=
  match questions st with
  | None => st
  | Some qs =>
      if (index >=? 0) && (index <? Z.of_nat (length qs))
      then set_index index st
      else st
  end.

Definition handleToggleFlag (st : State) : State :=
  mk (questions st) (currentQuestionIndex st) (userAnswers st)
     (if isCurrentQuestionFlagged st
      then filter (fun i => negb (i =? currentQuestionIndex st))
                  (flaggedQuestions st)
      else flaggedQuestions st ++ [currentQuestionIndex st])
     (showSubmitDialog st) (submissionState st) (mutations st).

(** [Object.entries(userAnswers).map(([questionId, answer]) =>
    ({ questionId: parseInt(questionId), answer }))]. *)
Definition formattedAnswers (st : State) : list AnswerData :=
  map (fun e => mkAnswerData (fst e) (Some (snd e))) (userAnswers st).

Definition submitExam (st : State) : State :=
  match questions st with
  | None => st
  | Some _ =>
      mk (questions st) (currentQuestionIndex st) (userAnswers st)
         (flaggedQuestions st) (showSubmitDialog st) submitting
         (mutations st ++ [formattedAnswers st])
  end.

Definition handleSubmitExam (st : State) : State :=
  match questions st with
  | None => st
  | Some qs =>
      if (length (userAnswers st) <? length qs)%nat
      then mk (questions st) (currentQuestionIndex st) (userAnswers st)
              (flaggedQuestions st) true (submissionState st) (mutations st)
      else submitExam st
  end.

(** What the student can do on the page, and a session of such events. *)
Inductive Event :=
| Select (answer : string)
| Next
| Prev
| GoTo (index : Z)
| ToggleFlag
| Submit
| Confirm.

Definition handle (ev : Event) (st : State) : option State :=
  match ev with
  | Select answer => handleAnswerSelect answer st
  | Next => Some (handleNextQuestion st)
  | Prev => Some (handlePrevQuestion st)
  | GoTo index => Some (handleGoToQuestion index st)
  | ToggleFlag => Some (handleToggleFlag st)
  | Submit => Some (handleSubmitExam st)
  | Confirm => Some (submitExam st)
  end.

Fixpoint session (evs : list Event) (st : State) : option State :=
  match evs with
  | [] => Some st
  | ev :: rest =>
      match handle ev st with
      | Some st' => session rest st'
      | None => None
      end
  end.

(** The page once the questions [qs] have arrived. *)
Definition loaded (qs : list Question.t) : State :=
  mk (Some qs) 0 [] [] false idle [].

(** The shown index is within the questions (0 when there are none). *)
Definition index_ok (st : State) : Prop :=
  match questions st with
  | Some qs =>
      0 <= currentQuestionIndex st /\
      (currentQuestionIndex st < Z.of_nat (length qs) \/
       currentQuestionIndex st = 0)
  | None => True
  end.

Fixpoint ascending (l : list Z) : Prop :=
  match l with
  | [] => True
  | x :: rest => (forall y, In y rest -> x < y) /\ ascending rest
  end.

(** The keys of the answers are in ascending order, none twice, and are
    ids of fetched questions. *)
Definition answers_ok (st : State) : Prop :=
  ascending (map fst (userAnswers st)) /\
  forall qs k, questions st = Some qs -> In k (map fst (userAnswers st)) ->
               In k (map Question.id qs).

(** A batch names no question twice, only fetched questions, and gives an
    answer for each. *)
Definition batch_ok (qs : list Question.t) (batch : list AnswerData) : Prop :=
  NoDup (map questionId batch) /\
  forall a, In a batch ->
            In (questionId a) (map Question.id qs) /\ answer a <> None.

(** What every event keeps: the questions, the index within them, the
    answers well keyed, and every batch sent so far well formed. *)
Definition kept_by_events (qs : list Question.t) (st : State) : Prop :=
  questions st = Some qs /\ index_ok st /\ answers_ok st /\
  forall batch, In batch (mutations st) -> batch_ok qs batch.

(** Sample pages: two questions fetched, nothing answered; the first
    answered with C; only the second answered. *)
Definition two_questions : list Question.t :=
  [sampleQuestion 1 "A" 1; sampleQuestion 2 "B" 2].

Definition first_answered : State :=
  mk (Some two_questions) 0 [(1, "C")] [] false idle [].

Definition second_answered : State :=
  mk (Some two_questions) 0 [(2, "B")] [] false idle [].

End AnswerSheet.

(** ** The display of the remaining time ([formatTimeRemaining])

    [padStart2] is [.padStart(2, '0')]; [%] on integers is [Z.rem]. *)

Definition padStart2 (s : string) : string :=
  match String.length s with
  | O => "00" ++ s
  | S O => "0" ++ s
  | _ => s
  end.

Definition formatTimeRemaining (timeRemaining : option Z) : string :=
  match timeRemaining with
  | None => "00:00"
  | Some t =>
      let hours := t / 3600 in
      let minutes := Z.rem t 3600 / 60 in
      let seconds := Z.rem t 60 in
      (if hours >? 0 then padStart2 (toString hours) ++ ":" else "")
      ++ padStart2 (toString minutes) ++ ":" ++ padStart2 (toString seconds)
  end.

(** The decimal digit [d] as a character, and the two characters of a
    number below 100. *)
Definition digit (d : Z) : Ascii.ascii :=
  Ascii.ascii_of_nat (48 + Z.to_nat d).

Definition two_digits (n : Z) : string :=
  String (digit (n / 10)) (String (digit (n mod 10)) EmptyString).

(** ** Lemmas on the storage operations and the grading loop *)

Lemma nullable_eqb_Some c a :
  nullable_eqb (Some c) a = true <-> a = Some c.
Proof.
  destruct a as [x|]; simpl.
  - rewrite String.eqb_eq. split; congruence.
  - split; discriminate.
Qed.


Lemma sum_points_app l1 l2 :
  sum_points (l1 ++ l2) = sum_points l1 + sum_points l2.
Proof.
  induction l1 as [|x l1 IH]; simpl; [reflexivity|].
  rewrite IH. lia.
Qed.

(** The lookup and the comparison of the handler are those of the
    yardsticks. *)
Lemma find_question_with_id qs id :
  find_question qs id = question_with_id qs id.
Proof.
  unfold find_question. induction qs as [|q qs IH]; simpl; [reflexivity|].
  destruct (Z.eq_dec (Question.id q) id) as [Heq|Hne].
  - rewrite Heq, Z.eqb_refl. reflexivity.
  - destruct (Z.eqb_spec (Question.id q) id); [contradiction | exact IH].
Qed.

Lemma isCorrect_chose q a :
  isCorrect q a = if chose_correct_dec q a then true else false.
Proof.
  unfold isCorrect.
  destruct (chose_correct_dec q a) as [H|H]; unfold chose_correct in H.
  - rewrite H. simpl. apply String.eqb_refl.
  - destruct (nullable_eqb (Some (Question.correctAnswer q)) (answer a)) eqn:E;
      [|reflexivity].
    apply nullable_eqb_Some in E. contradiction.
Qed.

Lemma question_with_id_In qs id question :
  question_with_id qs id = Some question ->
  In question qs /\ Question.id question = id.
Proof.
  induction qs as [|q qs IH]; simpl; [discriminate|].
  destruct (Z.eq_dec (Question.id q) id) as [Heq|Hne].
  - intros H. injection H as <-. auto.
  - intros H. destruct (IH H). auto.
Qed.

Lemma question_with_id_None qs id :
  question_with_id qs id = None <-> ~ In id (map Question.id qs).
Proof.
  induction qs as [|q qs IH]; simpl; [tauto|].
  destruct (Z.eq_dec (Question.id q) id) as [Heq|Hne].
  - split; [discriminate | tauto].
  - rewrite IH. tauto.
Qed.

(** ** Handlers served alone *)

Lemma run_andThen {A B} (h : Handler A) (f : A -> Handler B) st :
  run (andThen h f) st
  = match run h st with
    | (Ok a, st') => run (f a) st'
    | (Thrown, st') => (Thrown, st')
    end.
Proof.
  revert st. induction h as [a|C call k IH]; intros st; simpl; [reflexivity|].
  destruct (call st) as [[b|] st']; [apply IH | reflexivity].
Qed.

Lemma run_await {B} (call : M B) st :
  run (await call) st = (Ok (fst (call st)), snd (call st)).
Proof.
  unfold await, resolved. simpl. destruct (call st). reflexivity.
Qed.

Lemma run_reuse_or_create now examId userId found st :
  run (reuse_or_create now examId userId found) st
  = (Ok (fst (acquire now examId userId found st)),
     snd (acquire now examId userId found st)).
Proof.
  unfold reuse_or_create, acquire. destruct found as [s|]; [reflexivity|].
  apply run_await.
Qed.

Lemma add_answers_nil st : add_answers [] st = st.
Proof.
  destruct st. unfold add_answers. simpl. rewrite app_nil_r, Z.add_0_r.
  reflexivity.
Qed.

Lemma add_answers_cons row rows st :
  add_answers rows (insert_answer row st) = add_answers (row :: rows) st.
Proof.
  unfold add_answers, insert_answer. simpl. rewrite <- app_assoc. simpl.
  f_equal. lia.
Qed.

(** The loop in closed form: where it halts, and the rows it has written
    by then. *)
Lemma grade_run now qs sub l : forall score st,
  run (grade now qs sub l score) st
  = (match halt qs l with
     | Finished => Ok (inr (js_total score (earned qs l)))
     | AtUnknown qid => Ok (inl (mkResponse 400 (QuestionNotFound qid)))
     | AtUnstorable => Thrown
     end,
     add_answers (written_rows now (Submission.id sub) qs
                               (currentId_answers st) l) st).
Proof.
  induction l as [|a l IH]; intros score st; simpl.
  - now rewrite add_answers_nil.
  - rewrite find_question_with_id.
    destruct (question_with_id qs (questionId a)) as [question|] eqn:E;
      [|simpl; now rewrite add_answers_nil].
    simpl. unfold saveAnswer at 1. cbn [Answer.i_answer].
    destruct (stored_answer (answer a)) as [kept|] eqn:Es;
      [|now rewrite add_answers_nil].
    rewrite IH. cbn [insert_answer currentId_answers].
    rewrite isCorrect_chose. cbn [Answer.i_submissionId Answer.i_questionId
                                  Answer.i_isCorrect].
    rewrite add_answers_cons. f_equal.
    destruct (halt qs l); try reflexivity.
    destruct (chose_correct_dec question a); reflexivity.
Qed.

(** ** The handler as admission followed by grading *)

Lemma submit_unfold req st :
  submit req st
  = match admission req st with
    | inl rejection => (rejection, st)
    | inr (user, found, l) => grading req (exam_questions req st) user found l st
    end.
Proof.
  unfold submit, served, submitHandler, admission.
  destruct (req_user req) as [user|]; [|reflexivity].
  destruct (negb (Role_eqb (User.role user) student)); [reflexivity|].
  rewrite run_andThen, run_await.
  change (fst (getExam (req_examId req) st))
    with (find (fun e => Exam.id e =? req_examId req) (exams st)).
  cbn [fst snd getExam gets].
  destruct (find (fun e => Exam.id e =? req_examId req) (exams st))
    as [exam|]; [|reflexivity].
  destruct (negb (nullable_eqb (Some (Exam.class exam)) (User.class user)));
    [reflexivity|].
  rewrite run_andThen, run_await. cbn [fst snd getSubmissionsByExam gets].
  cbv zeta.
  change (find (fun s => Submission.userId s =? User.id user)
               (filter (fun s => Submission.examId s =? req_examId req)
                       (submissions st)))
    with (studentSubmission (req_examId req) (User.id user) st).
  destruct (already_completed
              (studentSubmission (req_examId req) (User.id user) st));
    [reflexivity|].
  rewrite run_andThen, run_await. cbn [fst snd getQuestionsByExam gets].
  destruct (req_answers req) as [|[|a l]]; try reflexivity.
  rewrite run_andThen, run_reuse_or_create.
  unfold grading.
  change (exam_questions req st)
    with (filter (fun q => Question.examId q =? req_examId req) (questions st)).
  destruct (acquire (req_now req) (req_examId req) (User.id user)
              (studentSubmission (req_examId req) (User.id user) st) st)
    as [sub st1].
  cbn [fst snd]. rewrite run_andThen, grade_run.
  destruct (halt (filter (fun q => Question.examId q =? req_examId req)
                         (questions st)) (a :: l)); try reflexivity.
  rewrite run_andThen. unfold await_or_throw. cbn [run].
  destruct (updateSubmission (Submission.id sub)
              (completion (req_now req)
                 (js_total (Finite 0)
                    (earned (filter (fun q => Question.examId q =? req_examId req)
                                    (questions st)) (a :: l))))
              (add_answers
                 (written_rows (req_now req) (Submission.id sub)
                    (filter (fun q => Question.examId q =? req_examId req)
                            (questions st)) (currentId_answers st1) (a :: l))
                 st1)) as [[u|] st3]; reflexivity.
Qed.

Lemma admission_rejects req st rejection :
  admission req st = inl rejection ->
  is_client_error rejection /\ exists msg, json rejection = Message msg.
Proof.
  unfold admission, is_client_error.
  destruct (req_user req) as [user|];
    [|intros H; injection H as <-; simpl; split; [lia | eauto]].
  destruct (negb (Role_eqb (User.role user) student));
    [intros H; injection H as <-; simpl; split; [lia | eauto]|].
  destruct (fst (getExam (req_examId req) st)) as [exam|];
    [|intros H; injection H as <-; simpl; split; [lia | eauto]].
  destruct (negb (nullable_eqb (Some (Exam.class exam)) (User.class user)));
    [intros H; injection H as <-; simpl; split; [lia | eauto]|].
  cbv zeta.
  destruct (already_completed
              (studentSubmission (req_examId req) (User.id user) st));
    [intros H; injection H as <-; simpl; split; [lia | eauto]|].
  destruct (req_answers req) as [|[|a l]]; try discriminate;
    intros H; injection H as <-; simpl; split; try lia; eauto.
Qed.

Lemma admission_admits req st user found l :
  admission req st = inr (user, found, l) ->
  req_user req = Some user /\
  User.role user = student /\
  found = studentSubmission (req_examId req) (User.id user) st /\
  already_completed found = false /\
  req_answers req = AnArray l /\ l <> [].
Proof.
  unfold admission.
  destruct (req_user req) as [u|]; [|discriminate].
  destruct (User.role u) eqn:Hr; cbn [Role_eqb negb]; [discriminate|].
  destruct (fst (getExam (req_examId req) st)) as [exam|]; [|discriminate].
  destruct (negb (nullable_eqb (Some (Exam.class exam)) (User.class u)));
    [discriminate|].
  cbv zeta.
  destruct (already_completed
              (studentSubmission (req_examId req) (User.id u) st)) eqn:Hc;
    [discriminate|].
  destruct (req_answers req) as [|[|a l']]; try discriminate.
  intros H. injection H as <- <- <-.
  repeat split; try assumption; try reflexivity. discriminate.
Qed.

(** A request rejected by admission is rejected early. *)
Lemma admission_early req st rejection :
  admission req st = inl rejection -> rejected_early st rejection st.
Proof.
  intros H. split; [reflexivity|].
  destruct (admission_rejects _ _ _ H) as [Hcode [msg Hmsg]].
  destruct rejection as [code j]. simpl in *. subst j.
  exists code, msg. auto.
Qed.

Lemma studentSubmission_In examId userId st s :
  studentSubmission examId userId st = Some s ->
  In s (submissions st) /\
  Submission.examId s = examId /\ Submission.userId s = userId.
Proof.
  unfold studentSubmission, getSubmissionsByExam, gets. simpl.
  intros H. apply find_some in H. destruct H as [Hin Hu].
  apply filter_In in Hin. destruct Hin as [Hin He].
  repeat split; [assumption | lia | lia].
Qed.

Lemma studentSubmission_None examId userId st s :
  studentSubmission examId userId st = None ->
  In s (submissions st) ->
  Submission.examId s = examId -> Submission.userId s <> userId.
Proof.
  unfold studentSubmission, getSubmissionsByExam, gets. simpl.
  intros H Hin He Hu.
  assert (Hf : In s (filter (fun s0 => Submission.examId s0 =? examId)
                            (submissions st))).
  { apply filter_In. split; [assumption | lia]. }
  pose proof (find_none _ _ H _ Hf) as Hn. simpl in Hn. lia.
Qed.

(** The submission a request grades: a stored row, either the one found
    for the student or a freshly inserted in-progress row. *)
Lemma acquire_spec now examId userId found st sub st1 :
  acquire now examId userId found st = (sub, st1) ->
  (found = Some sub /\ st1 = st) \/
  (found = None /\
   sub = new_submission now examId userId st /\
   st1 = insert_submission sub st).
Proof.
  unfold acquire. destruct found as [s|].
  - intros H. injection H as <- <-. auto.
  - unfold createSubmission. simpl. intros H. injection H as <- <-.
    right. auto.
Qed.

(** The row being graded is stored, is for the exam and the student of the
    request, and has the id [graded_id] names; acquiring it leaves the
    other tables and the Answer sequence as they are. *)
Lemma acquire_row req user st sub st1 :
  acquire (req_now req) (req_examId req) (User.id user)
          (studentSubmission (req_examId req) (User.id user) st) st
  = (sub, st1) ->
  In sub (submissions st1) /\
  Submission.examId sub = req_examId req /\
  Submission.userId sub = User.id user /\
  Submission.id sub = graded_id req user st /\
  users st1 = users st /\ exams st1 = exams st /\
  questions st1 = questions st /\ answers st1 = answers st /\
  currentId_answers st1 = currentId_answers st /\
  (submissions st1 = submissions st \/
   submissions st1 = submissions st ++ [sub] /\
   sub = new_submission (req_now req) (req_examId req) (User.id user) st).
Proof.
  intros H. unfold graded_id. apply acquire_spec in H.
  destruct H as [[Hf ->]|(Hf & -> & ->)]; rewrite Hf.
  - destruct (studentSubmission_In _ _ _ _ Hf) as (Hin & He & Hu).
    repeat split; auto.
  - simpl. repeat split; auto.
    apply in_or_app. right. left. reflexivity.
Qed.

Lemma to_columns_completion now n :
  Submission.to_columns (completion now n)
  = option_map (completed_columns now) (int4 n).
Proof.
  unfold Submission.to_columns, completion. simpl.
  destruct (int4 n); reflexivity.
Qed.

Lemma updateSubmission_completion id now n st :
  updateSubmission id (completion now n) st
  = match int4 n with
    | Some z =>
        (Ok (option_map (Submission.set (completed_columns now z))
               (find (fun s => Submission.id s =? id) (submissions st))),
         complete id now z st)
    | None => (Thrown, st)
    end.
Proof.
  unfold updateSubmission. rewrite to_columns_completion.
  destruct (int4 n); reflexivity.
Qed.

Lemma int4_range n z : int4 n = Some z -> n = Finite z /\ - 2 ^ 31 <= z < 2 ^ 31.
Proof.
  destruct n as [v| | |]; cbn [int4]; try discriminate.
  destruct (Z.leb_spec (- 2 ^ 31) v) as [Hlo|Hlo]; cbn [andb]; [|discriminate].
  destruct (Z.ltb_spec v (2 ^ 31)) as [Hhi|Hhi]; [|discriminate].
  intros Heq. injection Heq as <-. auto.
Qed.

Lemma find_submission_In id l s :
  In s l -> Submission.id s = id ->
  exists s0, find (fun x => Submission.id x =? id) l = Some s0 /\
             In s0 l /\ Submission.id s0 = id.
Proof.
  intros Hin Hid.
  destruct (find (fun x => Submission.id x =? id) l) as [s0|] eqn:E.
  - apply find_some in E. destruct E as [Hin0 Hid0].
    exists s0. repeat split; [assumption | lia].
  - pose proof (find_none _ _ E _ Hin) as Hn. simpl in Hn. lia.
Qed.

(** ** The rows the loop writes *)

Lemma graded_prefix_known qs l :
  exists rest, known_prefix qs l = graded_prefix qs l ++ rest.
Proof.
  induction l as [|a l [rest IH]]; simpl; [exists []; reflexivity|].
  destruct (question_with_id qs (questionId a)).
  - destruct (stored_answer (answer a)).
    + exists rest. simpl. now rewrite IH.
    + eexists. reflexivity.
  - exists []. reflexivity.
Qed.

Lemma known_prefix_split qs l :
  exists rest, l = known_prefix qs l ++ rest.
Proof.
  induction l as [|a l [rest IH]]; simpl.
  - exists []. reflexivity.
  - destruct (question_with_id qs (questionId a)).
    + exists rest. simpl. now rewrite <- IH.
    + exists (a :: l). reflexivity.
Qed.

Lemma graded_prefix_split qs l :
  exists rest, l = graded_prefix qs l ++ rest.
Proof.
  destruct (known_prefix_split qs l) as [r1 H1].
  destruct (graded_prefix_known qs l) as [r2 H2].
  exists (r2 ++ r1). rewrite app_assoc, <- H2. exact H1.
Qed.

Lemma halt_Finished qs l :
  halt qs l = Finished ->
  graded_prefix qs l = l /\ known_prefix qs l = l /\ first_unknown qs l = None.
Proof.
  induction l as [|a l IH]; simpl; [auto|].
  destruct (question_with_id qs (questionId a)); [|discriminate].
  destruct (stored_answer (answer a)); [|discriminate].
  intros H. destruct (IH H) as (-> & -> & ->). auto.
Qed.

Lemma halt_AtUnknown qs l qid :
  halt qs l = AtUnknown qid ->
  graded_prefix qs l = known_prefix qs l /\ first_unknown qs l = Some qid /\
  Forall storable (known_prefix qs l).
Proof.
  induction l as [|a l IH]; simpl; [discriminate|].
  destruct (question_with_id qs (questionId a)).
  - destruct (stored_answer (answer a)) eqn:Es; [|discriminate].
    intros H. destruct (IH H) as (-> & -> & Hs). repeat split.
    constructor; [|exact Hs]. unfold storable. congruence.
  - intros H. injection H as <-. auto.
Qed.




Lemma written_rows_flags now sid qs l : forall id,
  Forall2 (fun a r =>
             Answer.questionId r = questionId a /\
             exists question,
               question_with_id qs (questionId a) = Some question /\
               (Answer.isCorrect r = Some true <-> chose_correct question a) /\
               (Answer.isCorrect r = Some false <-> ~ chose_correct question a))
          (graded_prefix qs l) (written_rows now sid qs id l).
Proof.
  induction l as [|a l IH]; intros id; simpl; [constructor|].
  destruct (question_with_id qs (questionId a)) as [question|] eqn:E;
    [|constructor].
  destruct (stored_answer (answer a)) eqn:Es; [|constructor].
  constructor; [|apply IH]. simpl. split; [reflexivity|].
  exists question. rewrite E. split; [reflexivity|].
  destruct (chose_correct_dec question a); split; split;
    try tauto; try discriminate; congruence.
Qed.

Lemma written_rows_submission now sid qs id l r :
  In r (written_rows now sid qs id l) -> Answer.submissionId r = sid.
Proof.
  revert id. induction l as [|a l IH]; intros id; simpl; [tauto|].
  destruct (question_with_id qs (questionId a)); [|simpl; tauto].
  destruct (stored_answer (answer a)); simpl; [|tauto].
  intros [<-|Hin]; [reflexivity | eauto].
Qed.


Lemma written_rows_length now sid qs id l :
  length (written_rows now sid qs id l) = length (graded_prefix qs l).
Proof.
  revert id. induction l as [|a l IH]; intros id; simpl; [reflexivity|].
  destruct (question_with_id qs (questionId a)); [|reflexivity].
  destruct (stored_answer (answer a)); simpl; [|reflexivity].
  now rewrite IH.
Qed.

Lemma filter_all {A} (p : A -> bool) l :
  (forall x, In x l -> p x = true) -> filter p l = l.
Proof.
  induction l as [|x l IH]; simpl; intros H; [reflexivity|].
  rewrite (H x (or_introl eq_refl)). f_equal. apply IH. auto.
Qed.

(** ** Exact sums

    While the running score stays within 2^53 in magnitude, the additions
    of the loop are exact. *)

Lemma round_exact z : Z.abs z <= 2 ^ 53 -> round z = Finite z.
Proof.
  intros H. unfold round. cbv zeta.
  destruct (Z.leb_spec (Z.abs z) (2 ^ 53)); [reflexivity | lia].
Qed.

Lemma sum_earned qs l :
  fold_right Z.add 0 (earned qs l) = entries_score qs l.
Proof.
  unfold earned, entries_score, points_earned.
  induction l as [|a l IH]; simpl; [reflexivity|].
  rewrite fold_right_app, <- IH.
  destruct (question_with_id qs (questionId a)) as [question|]; simpl;
    [|reflexivity].
  destruct (chose_correct_dec question a); simpl; lia.
Qed.

Lemma earned_length qs l : (length (earned qs l) <= length l)%nat.
Proof.
  unfold earned. induction l as [|a l IH]; simpl; [lia|].
  rewrite length_app.
  destruct (question_with_id qs (questionId a)) as [question|]; simpl; [|lia].
  destruct (chose_correct_dec question a); simpl; lia.
Qed.

Lemma earned_points qs l p :
  In p (earned qs l) -> exists question, In question qs /\ Question.points question = p.
Proof.
  unfold earned. intros H. apply in_flat_map in H.
  destruct H as (a & _ & H).
  destruct (question_with_id qs (questionId a)) as [question|] eqn:E;
    [|destruct H].
  destruct (chose_correct_dec question a); [|destruct H].
  destruct H as [<-|[]]. apply question_with_id_In in E. exists question.
  tauto.
Qed.

Lemma js_total_exact pts : forall s,
  (forall p, In p pts -> - 2 ^ 31 <= p < 2 ^ 31) ->
  Z.abs s + 2 ^ 31 * Z.of_nat (length pts) <= 2 ^ 53 ->
  js_total (Finite s) pts = Finite (s + fold_right Z.add 0 pts).
Proof.
  induction pts as [|p pts IH]; intros s Hp Hs.
  - simpl. f_equal. lia.
  - assert (Hb : - 2 ^ 31 <= p < 2 ^ 31) by (apply Hp; left; reflexivity).
    change (js_total (Finite s) (p :: pts))
      with (js_total (round (s + p)) pts).
    change (length (p :: pts)) with (S (length pts)) in Hs.
    rewrite round_exact by lia.
    rewrite IH.
    + f_equal. simpl. lia.
    + intros q Hq. apply Hp. right. exact Hq.
    + lia.
Qed.

(** With point values that are not negative, a running score that has
    left the exact range never comes back below 2^53. *)
Lemma round_big z : 2 ^ 53 <= z -> big (round z).
Proof.
  intros Hz. unfold round. cbv zeta.
  rewrite (Z.abs_eq z) by lia.
  destruct (Z.leb_spec z (2 ^ 53)) as [Hle|Hgt].
  { right. exists z. split; [reflexivity | exact Hz]. }
  set (e := Z.log2 z - 52).
  assert (Hlog : 2 ^ Z.log2 z <= z) by (apply Z.log2_spec; lia).
  assert (He : 1 <= e).
  { unfold e. assert (53 <= Z.log2 z); [|lia].
    apply Z.log2_le_pow2; lia. }
  assert (Hpow : 2 ^ Z.log2 z = 2 ^ 52 * 2 ^ e).
  { unfold e. rewrite <- Z.pow_add_r by lia. f_equal. lia. }
  assert (Hulp : 2 <= 2 ^ e).
  { change 2 with (2 ^ 1) at 1. apply Z.pow_le_mono_r; lia. }
  assert (Hq : 2 ^ 52 <= z / 2 ^ e).
  { apply Z.div_le_lower_bound; lia. }
  set (q' := if (2 ^ e <? 2 * (z mod 2 ^ e))
                || ((2 * (z mod 2 ^ e) =? 2 ^ e) && Z.odd (z / 2 ^ e))
             then z / 2 ^ e + 1 else z / 2 ^ e).
  assert (Hq' : 2 ^ 52 <= q').
  { unfold q'. destruct (_ || _); lia. }
  destruct (Z.leb_spec (2 ^ 1024) (q' * 2 ^ e)).
  - destruct (Z.ltb_spec z 0); [lia|]. left. reflexivity.
  - right. exists (Z.sgn z * (q' * 2 ^ e)). split; [reflexivity|].
    rewrite Z.sgn_pos by lia.
    assert (2 ^ 52 * 2 <= q' * 2 ^ e) by nia.
    change (2 ^ 53) with (2 ^ 52 * 2). lia.
Qed.

Lemma js_total_big pts : forall n,
  (forall p, In p pts -> 0 <= p) -> big n -> big (js_total n pts).
Proof.
  induction pts as [|p pts IH]; intros n Hp Hn; [exact Hn|].
  change (js_total n (p :: pts)) with (js_total (js_add n (Finite p)) pts).
  apply IH; [intros q Hq; apply Hp; right; exact Hq|].
  assert (0 <= p) by (apply Hp; left; reflexivity).
  destruct Hn as [->|(w & -> & Hw)].
  - left. reflexivity.
  - apply round_big. lia.
Qed.

Lemma js_total_nonneg pts : forall s w,
  (forall p, In p pts -> 0 <= p) -> 0 <= s ->
  js_total (Finite s) pts = Finite w -> w < 2 ^ 53 ->
  w = s + fold_right Z.add 0 pts.
Proof.
  induction pts as [|p pts IH]; intros s w Hp Hs.
  - simpl. intros H _. injection H as <-. lia.
  - assert (0 <= p) by (apply Hp; left; reflexivity).
    assert (Hrest : forall q, In q pts -> 0 <= q)
      by (intros q Hq; apply Hp; right; exact Hq).
    change (js_total (Finite s) (p :: pts))
      with (js_total (round (s + p)) pts).
    destruct (Z.le_gt_cases (s + p) (2 ^ 53)) as [Hle|Hgt].
    + rewrite round_exact by lia. intros H0 Hw.
      rewrite (IH (s + p) w Hrest ltac:(lia) H0 Hw). simpl. lia.
    + intros H0 Hw. exfalso.
      pose proof (js_total_big pts (round (s + p)) Hrest
                    (round_big (s + p) ltac:(lia))) as Hbig.
      rewrite H0 in Hbig.
      destruct Hbig as [Hinf|(w' & Heq & Hw')]; [discriminate|].
      injection Heq as <-. lia.
Qed.

(** ** Every run of the submission handler *)

(** A request is rejected by one of the early checks, or admitted; then
    the submission is acquired, the loop writes its rows and halts, and the
    outcome is read off where it halts and whether the score fits its
    column. *)
Lemma submit_cases req st :
  (exists rejection,
     admission req st = inl rejection /\ submit req st = (rejection, st)) \/
  (exists user l sub st1,
     req_user req = Some user /\ User.role user = student /\
     already_completed (studentSubmission (req_examId req) (User.id user) st)
     = false /\
     req_answers req = AnArray l /\ l <> [] /\
     acquire (req_now req) (req_examId req) (User.id user)
             (studentSubmission (req_examId req) (User.id user) st) st
     = (sub, st1) /\
     match halt (exam_questions req st) l with
     | AtUnknown qid =>
         submit req st
         = (mkResponse 400 (QuestionNotFound qid),
            add_answers
              (written_rows (req_now req) (Submission.id sub)
                 (exam_questions req st) (currentId_answers st) l) st1)
     | AtUnstorable =>
         submit req st
         = (internal_error,
            add_answers
              (written_rows (req_now req) (Submission.id sub)
                 (exam_questions req st) (currentId_answers st) l) st1)
     | Finished =>
         match int4 (js_total (Finite 0) (earned (exam_questions req st) l)) with
         | Some z =>
             submit req st
             = (mkResponse 200
                  (SubmissionJson
                     (option_map
                        (Submission.set (completed_columns (req_now req) z))
                        (find (fun s => Submission.id s =? Submission.id sub)
                              (submissions st1)))),
                complete (Submission.id sub) (req_now req) z
                  (add_answers
                     (written_rows (req_now req) (Submission.id sub)
                        (exam_questions req st) (currentId_answers st) l) st1))
         | None =>
             submit req st
             = (internal_error,
                add_answers
                  (written_rows (req_now req) (Submission.id sub)
                     (exam_questions req st) (currentId_answers st) l) st1)
         end
     end).
Proof.
  rewrite submit_unfold.
  destruct (admission req st) as [rejection|[[user found] l]] eqn:Hadm.
  { left. eauto. }
  right. apply admission_admits in Hadm.
  destruct Hadm as (Hu & Hrole & -> & Hnc & Ha & Hne).
  unfold grading.
  destruct (acquire (req_now req) (req_examId req) (User.id user)
              (studentSubmission (req_examId req) (User.id user) st) st)
    as [sub st1] eqn:Hacq.
  exists user, l, sub, st1.
  pose proof (acquire_row _ _ _ _ _ Hacq)
    as (_ & _ & _ & _ & _ & _ & _ & _ & Hc & _).
  rewrite Hc.
  repeat (split; [assumption|]).
  destruct (halt (exam_questions req st) l); try reflexivity.
  rewrite updateSubmission_completion.
  destruct (int4 (js_total (Finite 0) (earned (exam_questions req st) l)));
    reflexivity.
Qed.

(** ** Grading: score and correctness flags *)

Lemma filter_none {A} (p : A -> bool) l :
  (forall x, In x l -> p x = false) -> filter p l = [].
Proof.
  induction l as [|x l IH]; simpl; intros H; [reflexivity|].
  rewrite (H x (or_introl eq_refl)). apply IH. auto.
Qed.

(** One more entry, for a question no other entry names, adds to the sum
    over the questions what the entry earns. *)
Lemma questions_score_cons qs a l :
  NoDup (map Question.id qs) ->
  ~ In (questionId a) (map questionId l) ->
  questions_score qs (a :: l) = points_earned qs a + questions_score qs l.
Proof.
  intros Hnd Hnew. unfold questions_score, points_earned.
  assert (Hmiss : forall question, Question.id question = questionId a ->
                    correctly_answered_in l question = false).
  { intros question Hid. unfold correctly_answered_in.
    destruct (existsb _ l) eqn:E; [|reflexivity].
    apply existsb_exists in E. destruct E as (b & Hb & Hhit).
    destruct (Z.eq_dec (questionId b) (Question.id question)); [|discriminate].
    exfalso. apply Hnew. apply in_map_iff. exists b. split; [congruence|exact Hb]. }
  induction qs as [|q qs IH]; [reflexivity|].
  inversion Hnd as [|? ? Hnotin Hnd']; subst.
  cbn [filter correctly_answered_in existsb question_with_id].
  destruct (Z.eq_dec (questionId a) (Question.id q)) as [Heq|Hne].
  - destruct (Z.eq_dec (Question.id q) (questionId a)); [|congruence].
    fold (correctly_answered_in l q). rewrite (Hmiss q) by congruence.
    rewrite orb_false_r.
    assert (Hrest : filter (correctly_answered_in (a :: l)) qs
                    = filter (correctly_answered_in l) qs).
    { apply filter_ext_in. intros q' Hq'. cbn [correctly_answered_in existsb].
      destruct (Z.eq_dec (questionId a) (Question.id q')) as [Heq'|];
        [|reflexivity].
      exfalso. apply Hnotin. rewrite <- Heq, Heq'. now apply in_map. }
    fold (correctly_answered_in (a :: l)). rewrite Hrest.
    destruct (chose_correct_dec q a); simpl; lia.
  - destruct (Z.eq_dec (Question.id q) (questionId a)); [congruence|].
    cbn [orb]. fold (correctly_answered_in l q).
    fold (correctly_answered_in (a :: l)).
    destruct (correctly_answered_in l q); simpl; rewrite (IH Hnd'); lia.
Qed.

Lemma entries_score_questions_score qs l :
  NoDup (map questionId l) -> NoDup (map Question.id qs) ->
  entries_score qs l = questions_score qs l.
Proof.
  intros Hl Hq. induction l as [|a l IH].
  - unfold questions_score. rewrite filter_none; [reflexivity|].
    intros; reflexivity.
  - inversion Hl as [|? ? Hnotin Hl']; subst.
    rewrite questions_score_cons by assumption.
    simpl. now rewrite IH.
Qed.

(** C1 (as amended). For every successful call of the submission endpoint
    (status 200), the response carries the finalized submission, that row is
    stored with status completed, and its score is the sum, over the entries
    of the submitted list, of the point value of the question an entry names
    when the entry's answer equals that question's stored correct answer (an
    entry repeated in the list counting each time) -- for point values
    within the integer column and a list of at most 2^22 entries, so that
    the running sum stays in the range in which doubles are exact.  When the
    list names no question twice (and question ids are distinct), that is
    the sum over the questions of the list that are answered correctly. *)
Theorem submit_score_is_sum req st l resp st' :
  req_answers req = AnArray l ->
  submit req st = (resp, st') ->
  statusCode resp = 200 ->
  int4_points (exam_questions req st) ->
  Z.of_nat (length l) <= 2 ^ 22 ->
  exists sub,
    json resp = SubmissionJson (Some sub) /\
    In sub (submissions st') /\
    Submission.status sub = completed /\
    Submission.score sub = Some (entries_score (exam_questions req st) l) /\
    (NoDup (map questionId l) ->
     NoDup (map Question.id (exam_questions req st)) ->
     entries_score (exam_questions req st) l
     = questions_score (exam_questions req st) l).
Proof.
  intros Ha H H200 Hint Hlen.
  destruct (submit_cases req st)
    as [(rejection & Hadm & Hsub)|
        (user & l' & sub & st1 & Hu & _ & _ & Ha' & _ & Hacq & Hcase)].
  { rewrite Hsub in H. injection H as <- <-.
    apply admission_rejects in Hadm. unfold is_client_error in Hadm. lia. }
  rewrite Ha in Ha'. injection Ha' as <-.
  destruct (halt (exam_questions req st) l);
    [|rewrite Hcase in H; injection H as <- <-; discriminate
     |rewrite Hcase in H; injection H as <- <-; discriminate].
  destruct (int4 (js_total (Finite 0) (earned (exam_questions req st) l)))
    as [z|] eqn:Hz;
    [|rewrite Hcase in H; injection H as <- <-; discriminate].
  rewrite Hcase in H. injection H as <- <-.
  pose proof (acquire_row _ _ _ _ _ Hacq) as (Hin & _).
  destruct (find_submission_In (Submission.id sub) _ _ Hin eq_refl)
    as (s0 & Hfind & Hin0 & Hid0).
  rewrite Hfind. cbn [option_map json].
  exists (Submission.set (completed_columns (req_now req) z) s0).
  split; [reflexivity|]. split.
  { cbn. apply in_map_iff. exists s0. rewrite Hid0, Z.eqb_refl. auto. }
  split; [reflexivity|]. split.
  - cbn. f_equal. apply int4_range in Hz. destruct Hz as [Hz _].
    rewrite js_total_exact in Hz.
    + injection Hz as <-. now rewrite sum_earned.
    + intros p Hp. apply earned_points in Hp.
      destruct Hp as (question & Hq & <-). now apply Hint.
    + pose proof (earned_length (exam_questions req st) l) as Hel.
      change (Z.abs 0) with 0.
      assert (2 ^ 31 * Z.of_nat (length (earned (exam_questions req st) l))
              <= 2 ^ 31 * 2 ^ 22) by (apply Z.mul_le_mono_nonneg_l; lia).
      change (2 ^ 53) with (2 ^ 31 * 2 ^ 22). lia.
  - apply entries_score_questions_score.
Qed.

Lemma submit_score_is_sum_witness :
  exists sub,
    json (fst (submit (request0 abd) store0)) = SubmissionJson (Some sub) /\
    In sub (submissions store_completed) /\
    Submission.status sub = completed /\
    Submission.score sub
    = Some (entries_score (exam_questions (request0 abd) store0) abd) /\
    (NoDup (map questionId abd) ->
     NoDup (map Question.id (exam_questions (request0 abd) store0)) ->
     entries_score (exam_questions (request0 abd) store0) abd
     = questions_score (exam_questions (request0 abd) store0) abd).
Proof.
  apply (submit_score_is_sum (request0 abd) store0 abd
           (fst (submit (request0 abd) store0)) store_completed).
  - reflexivity.
  - vm_compute. reflexivity.
  - vm_compute. reflexivity.
  - intros question [<-|[<-|[<-|[]]]]; vm_compute; split; congruence.
  - vm_compute. discriminate.
Defined.

(** C1 as stated fails: a list that names question 3 three times, each
    time with its correct option C, is graded successfully with score 9,
    whereas the one question answered correctly is worth 3 points and the
    whole exam 6. *)
Lemma repeated_entry_scores_again :
  statusCode (fst (submit (request0 thrice) store0)) = 200 /\
  response_score (fst (submit (request0 thrice) store0)) = Some 9 /\
  questions_score (exam_questions (request0 thrice) store0) thrice = 3 /\
  sum_points (exam_questions (request0 thrice) store0) = 6.
Proof. repeat split; vm_compute; reflexivity. Qed.

(** What a request does to the Answer table, in every outcome: it appends
    the rows of the loop, for the submission [graded_id] names. *)
Lemma submit_answers req st :
  rejected_early st (fst (submit req st)) (snd (submit req st)) \/
  exists user l,
    req_user req = Some user /\ req_answers req = AnArray l /\
    answers (snd (submit req st))
    = answers st
      ++ written_rows (req_now req) (graded_id req user st)
                      (exam_questions req st) (currentId_answers st) l /\
    (statusCode (fst (submit req st)) = 200 ->
     halt (exam_questions req st) l = Finished).
Proof.
  destruct (submit_cases req st)
    as [(rejection & Hadm & Hsub)|
        (user & l & sub & st1 & Hu & _ & _ & Ha & _ & Hacq & Hcase)].
  { left. rewrite Hsub. exact (admission_early req st rejection Hadm). }
  right. exists user, l. split; [exact Hu|]. split; [exact Ha|].
  pose proof (acquire_row _ _ _ _ _ Hacq)
    as (_ & _ & _ & Hid & _ & _ & _ & Hans & _).
  rewrite <- Hid.
  destruct (halt (exam_questions req st) l).
  - destruct (int4 (js_total (Finite 0) (earned (exam_questions req st) l)));
      rewrite Hcase; cbn; rewrite Hans; auto.
  - rewrite Hcase. cbn. rewrite Hans. split; [reflexivity | discriminate].
  - rewrite Hcase. cbn. rewrite Hans. split; [reflexivity | discriminate].
Qed.

(** C2. Every Answer row a grading request persists is the row of an entry
    of the submitted list, in list order (the graded entries are a prefix
    of the list, all of it when the request succeeds); it is for the
    question of the exam the entry names, and its isCorrect flag is true if
    and only if the answer string of the entry is exactly that question's
    stored correctAnswer string, and false otherwise (never null). *)
Theorem graded_answer_flag req st resp st' :
  submit req st = (resp, st') ->
  exists graded rest new,
    submitted req = graded ++ rest /\
    answers st' = answers st ++ new /\
    Forall2 (fun a r =>
               Answer.questionId r = questionId a /\
               exists question,
                 question_with_id (exam_questions req st) (questionId a)
                 = Some question /\
                 (Answer.isCorrect r = Some true <->
                  answer a = Some (Question.correctAnswer question)) /\
                 (Answer.isCorrect r = Some false <->
                  answer a <> Some (Question.correctAnswer question)))
            graded new /\
    (statusCode resp = 200 -> rest = []).
Proof.
  intros H.
  destruct (submit_answers req st)
    as [(Hsame & code & msg & Hresp & Hcode)|(user & l & _ & Ha & Hans & H200)];
    rewrite H in *; cbn [fst snd] in *.
  - exists [], (submitted req), []. subst st'. rewrite app_nil_r.
    split; [reflexivity|]. split; [reflexivity|]. split; [constructor|].
    rewrite Hresp. simpl. lia.
  - unfold submitted. rewrite Ha.
    destruct (graded_prefix_split (exam_questions req st) l) as [rest Hrest].
    exists (graded_prefix (exam_questions req st) l), rest.
    eexists. split; [exact Hrest|]. split; [exact Hans|].
    split; [apply written_rows_flags|].
    intros Hok. apply H200 in Hok. apply halt_Finished in Hok.
    destruct Hok as (Hg & _). rewrite Hg in Hrest.
    rewrite <- (app_nil_r l) in Hrest at 1.
    apply app_inv_head in Hrest. congruence.
Qed.

Lemma graded_answer_flag_witness :
  exists graded rest new,
    submitted (request0 abd) = graded ++ rest /\
    answers (snd (submit (request0 abd) store0)) = answers store0 ++ new /\
    Forall2 (fun a r =>
               Answer.questionId r = questionId a /\
               exists question,
                 question_with_id (exam_questions (request0 abd) store0)
                                  (questionId a) = Some question /\
                 (Answer.isCorrect r = Some true <->
                  answer a = Some (Question.correctAnswer question)) /\
                 (Answer.isCorrect r = Some false <->
                  answer a <> Some (Question.correctAnswer question)))
            graded new /\
    (statusCode (fst (submit (request0 abd) store0)) = 200 -> rest = []).
Proof.
  apply (graded_answer_flag (request0 abd) store0
           (fst (submit (request0 abd) store0))).
  reflexivity.
Defined.

(** ** Rejections *)










(** ** Answer rows: one per graded entry, never rewritten *)

Lemma row_of_entry_questions sid graded new :
  Forall2 (row_of_entry sid) graded new ->
  map answer_key new = map (pair sid) (map questionId graded).
Proof.
  induction 1 as [|a r graded new (Hs & Hq & _) _ IH]; simpl; [reflexivity|].
  rewrite IH. unfold answer_key. now rewrite Hs, Hq.
Qed.




(** ** Finalizing a reused submission *)

Lemma updateSubmission_frame id (data : Submission.columns) l :
  Submission.p_id data = None -> Submission.p_examId data = None ->
  Submission.p_userId data = None -> Submission.p_startTime data = None ->
  Submission.p_createdAt data = None ->
  Forall2 (fun old new => kept old new /\ (Submission.id old <> id -> new = old))
    l (map (fun s => if Submission.id s =? id then Submission.set data s else s) l).
Proof.
  intros Hi He Hu Hs Hc.
  induction l as [|s l IH]; simpl; constructor; [|exact IH].
  destruct (Z.eqb_spec (Submission.id s) id) as [Heq|Hne].
  - split; [|tauto]. unfold kept, Submission.set. simpl.
    rewrite Hi, He, Hu, Hs, Hc. simpl. tauto.
  - unfold kept. tauto.
Qed.

(** C9. When the request reuses the student's stored in-progress
    submission and succeeds, every stored Submission row keeps its id,
    examId, userId, startTime and createdAt, rows with another id are
    exactly as before, and the reused row is stored with only its endTime,
    score and status replaced. *)
Theorem finalize_changes_only_end_score_status req st user s resp st' :
  req_user req = Some user ->
  studentSubmission (req_examId req) (User.id user) st = Some s ->
  submit req st = (resp, st') ->
  statusCode resp = 200 ->
  Forall2 (fun old new =>
             kept old new /\
             (Submission.id old <> Submission.id s -> new = old))
          (submissions st) (submissions st') /\
  exists score,
    In {| Submission.id := Submission.id s;
          Submission.examId := Submission.examId s;
          Submission.userId := Submission.userId s;
          Submission.startTime := Submission.startTime s;
          Submission.endTime := Some (req_now req);
          Submission.score := Some score;
          Submission.status := completed;
          Submission.createdAt := Submission.createdAt s |}
       (submissions st').
Proof.
  intros Hu Hf H H200.
  destruct (submit_cases req st)
    as [(rejection & Hadm & Hsub)|
        (user' & l & sub & st1 & Hu' & _ & _ & _ & _ & Hacq & Hcase)].
  { rewrite Hsub in H. injection H as <- <-.
    apply admission_rejects in Hadm. unfold is_client_error in Hadm. lia. }
  rewrite Hu in Hu'. injection Hu' as <-. rewrite Hf in Hacq.
  simpl in Hacq. injection Hacq as <- <-.
  destruct (halt (exam_questions req st) l);
    [|rewrite Hcase in H; injection H as <- <-; discriminate
     |rewrite Hcase in H; injection H as <- <-; discriminate].
  destruct (int4 (js_total (Finite 0) (earned (exam_questions req st) l)))
    as [z|];
    [|rewrite Hcase in H; injection H as <- <-; discriminate].
  rewrite Hcase in H. injection H as <- <-. cbn [submissions complete add_answers].
  split.
  - apply updateSubmission_frame; reflexivity.
  - destruct (studentSubmission_In _ _ _ _ Hf) as (Hin & _ & _).
    exists z. apply in_map_iff. exists s. split; [|exact Hin].
    rewrite Z.eqb_refl. reflexivity.
Qed.

Lemma finalize_changes_only_end_score_status_witness :
  Forall2 (fun old new =>
             kept old new /\
             (Submission.id old <> 1 -> new = old))
          (submissions store_in_progress)
          (submissions (snd (submit (request0 abd) store_in_progress))) /\
  exists score,
    In {| Submission.id := 1; Submission.examId := 1; Submission.userId := 7;
          Submission.startTime := 1000; Submission.endTime := Some 1000;
          Submission.score := Some score; Submission.status := completed;
          Submission.createdAt := Some 1000 |}
       (submissions (snd (submit (request0 abd) store_in_progress))).
Proof.
  apply (finalize_changes_only_end_score_status
           (request0 abd) store_in_progress (pupil 7 "secret")
           (Submission.mk 1 1 7 1000 None None in_progress (Some 1000))
           (fst (submit (request0 abd) store_in_progress)));
    reflexivity.
Defined.

(** ** The listings do not read passwords *)

Lemma withoutPassword_with_password pw u :
  withoutPassword (with_password pw u) = withoutPassword u.
Proof. reflexivity. Qed.

Lemma withoutPassword_no_password u :
  property "password" (withoutPassword u) = None.
Proof. reflexivity. Qed.

Lemma same_but_password_fields u1 u2 :
  same_but_password u1 u2 ->
  withoutPassword u1 = withoutPassword u2 /\
  User.id u1 = User.id u2 /\ User.role u1 = User.role u2 /\
  User.class u1 = User.class u2.
Proof.
  unfold same_but_password. intros ->.
  rewrite withoutPassword_with_password. auto.
Qed.

Lemma Forall2_filter {A} (R : A -> A -> Prop) (p : A -> bool) l1 l2 :
  (forall x y, R x y -> p x = p y) ->
  Forall2 R l1 l2 -> Forall2 R (filter p l1) (filter p l2).
Proof.
  intros Hp. induction 1 as [|x y l1 l2 Hxy _ IH]; simpl; [constructor|].
  rewrite <- (Hp x y Hxy). destruct (p x); [constructor|]; assumption.
Qed.

Lemma Forall2_find {A} (R : A -> A -> Prop) (p : A -> bool) l1 l2 :
  (forall x y, R x y -> p x = p y) ->
  Forall2 R l1 l2 ->
  match find p l1, find p l2 with
  | Some x, Some y => R x y
  | None, None => True
  | _, _ => False
  end.
Proof.
  intros Hp. induction 1 as [|x y l1 l2 Hxy _ IH]; simpl; [exact I|].
  rewrite <- (Hp x y Hxy). destruct (p x); assumption.
Qed.

Lemma same_but_password_rows l1 l2 :
  Forall2 same_but_password l1 l2 ->
  map withoutPassword l1 = map withoutPassword l2.
Proof.
  induction 1 as [|x y l1 l2 Hxy _ IH]; simpl; [reflexivity|].
  apply same_but_password_fields in Hxy. destruct Hxy as [-> _].
  now rewrite IH.
Qed.

Section Passwords.

Variables st1 st2 : Store.
Hypothesis differ : differ_only_in_passwords st1 st2.

Lemma getStudentsByClass_same className :
  map withoutPassword (fst (getStudentsByClass className st1))
  = map withoutPassword (fst (getStudentsByClass className st2)).
Proof.
  destruct differ as (Hu & _).
  unfold getStudentsByClass, gets. cbn [fst].
  apply same_but_password_rows. apply Forall2_filter; [|exact Hu].
  intros x y Hxy. apply same_but_password_fields in Hxy.
  destruct Hxy as (_ & _ & -> & ->). reflexivity.
Qed.

Lemma getAllClasses_same arrange :
  fst (getAllClasses arrange st1) = fst (getAllClasses arrange st2).
Proof.
  destruct differ as (Hu & _).
  unfold getAllClasses, gets. cbn [fst]. do 2 f_equal.
  induction Hu as [|x y l1 l2 Hxy _ IH]; simpl; [reflexivity|].
  rewrite IH. f_equal. apply same_but_password_fields in Hxy.
  destruct Hxy as (_ & _ & Hr & Hc). unfold class_of_student.
  now rewrite Hr, Hc.
Qed.

Lemma studentsOfClasses_same classes : forall result,
  fst (studentsOfClasses classes result st1)
  = fst (studentsOfClasses classes result st2).
Proof.
  induction classes as [|cls rest IH]; intros result; simpl; [reflexivity|].
  pose proof (getStudentsByClass_same cls) as Hs.
  unfold bind, getStudentsByClass, gets in *. cbn [fst] in Hs.
  cbv beta iota. rewrite Hs. apply IH.
Qed.

Lemma withStudents_same subs :
  fst (withStudents subs st1) = fst (withStudents subs st2) /\
  snd (withStudents subs st1) = st1 /\
  snd (withStudents subs st2) = st2.
Proof.
  destruct differ as (Hu & _).
  induction subs as [|submission rest (IH & IH1 & IH2)]; simpl; [auto|].
  unfold bind, ret, getUser, gets.
  pose proof (Forall2_find same_but_password
                (fun u => User.id u =? Submission.userId submission)
                (users st1) (users st2)) as Hf.
  destruct (withStudents rest st1) as [r1 s1].
  destruct (withStudents rest st2) as [r2 s2].
  simpl in *. subst.
  destruct (find (fun u => User.id u =? Submission.userId submission)
                 (users st1)) as [u1|];
    destruct (find (fun u => User.id u =? Submission.userId submission)
                   (users st2)) as [u2|];
    try (exfalso; apply Hf; [|exact Hu];
         intros x y Hxy; apply same_but_password_fields in Hxy;
         destruct Hxy as (_ & -> & _); reflexivity);
    [|auto].
  assert (Hxy : same_but_password u1 u2).
  { apply Hf; [|exact Hu].
    intros x y Hxy; apply same_but_password_fields in Hxy;
      destruct Hxy as (_ & -> & _); reflexivity. }
  apply same_but_password_fields in Hxy.
  destruct Hxy as (-> & _ & -> & _). auto.
Qed.

End Passwords.

(** Every record of a student listing is a user row without its
    password. *)
Lemma insert_index_records {V} (P : V -> Prop) i key (v : V) o :
  P v -> Forall (fun p => P (snd p)) o ->
  Forall (fun p => P (snd p)) (insert_index i key v o).
Proof.
  intros Hv. induction o as [|[key' v'] o IH]; simpl; intros Ho.
  - constructor; [exact Hv | constructor].
  - inversion Ho as [|? ? Hp Ho']; subst.
    destruct (array_index key') as [j|].
    + destruct (j <? i).
      * constructor; [exact Hp | now apply IH].
      * constructor; [exact Hv | exact Ho].
    + constructor; [exact Hv | exact Ho].
Qed.

Lemma js_set_records (P : list Row -> Prop) key v o :
  P v -> Forall (fun p => P (snd p)) o ->
  Forall (fun p => P (snd p)) (js_set key v o).
Proof.
  intros Hv Ho. unfold js_set.
  destruct (String.eqb key "__proto__"); [exact Ho|].
  destruct (has_property key o).
  - apply Forall_forall. intros p Hp. apply in_map_iff in Hp.
    destruct Hp as (p0 & <- & Hp0).
    destruct (String.eqb (fst p0) key); [exact Hv|].
    rewrite Forall_forall in Ho. now apply Ho.
  - unfold define_property. destruct (array_index key).
    + now apply insert_index_records.
    + apply Forall_app. split; [exact Ho|].
      constructor; [exact Hv | constructor].
Qed.

Lemma studentsOfClasses_records classes st : forall result,
  Forall (fun p => Forall (fun record => property "password" record = None)
                          (snd p)) result ->
  Forall (fun p => Forall (fun record => property "password" record = None)
                          (snd p))
         (fst (studentsOfClasses classes result st)).
Proof.
  induction classes as [|cls rest IH]; intros result Hr; simpl; [exact Hr|].
  unfold bind. unfold getStudentsByClass at 1, gets.
  apply IH. apply js_set_records; [|exact Hr].
  apply Forall_forall. intros record Hin. apply in_map_iff in Hin.
  destruct Hin as (u & <- & _). reflexivity.
Qed.

Lemma withStudents_records subs st :
  Forall (fun p => property "password" (snd p) = None)
         (fst (withStudents subs st)) /\
  snd (withStudents subs st) = st.
Proof.
  induction subs as [|submission rest [IH IHs]]; simpl;
    [split; [constructor | reflexivity]|].
  unfold bind, ret, getUser, gets.
  destruct (withStudents rest st) as [r s]. simpl in *. subst s.
  split; [|reflexivity].
  destruct (find (fun u => User.id u =? Submission.userId submission)
                 (users st)) as [u|]; [|exact IH].
  destruct (Role_eqb (User.role u) student); [|exact IH].
  constructor; [reflexivity | exact IH].
Qed.

(** C10. The student listing and the per-exam submissions listing give the
    same responses on two stores that differ at most in users' stored
    passwords (and for callers that differ at most in theirs); and no user
    record in their responses has a password property. *)
Theorem listings_independent_of_passwords arrange st1 st2 user1 user2
    className examId :
  differ_only_in_passwords st1 st2 ->
  same_caller user1 user2 ->
  fst (listStudents arrange user1 className st1)
  = fst (listStudents arrange user2 className st2) /\
  fst (listSubmissions user1 examId st1)
  = fst (listSubmissions user2 examId st2) /\
  Forall (fun record => property "password" record = None)
         (user_records (fst (listStudents arrange user1 className st1))) /\
  Forall (fun record => property "password" record = None)
         (user_records (fst (listSubmissions user1 examId st1))).
Proof.
  intros Hdiffer Hcaller.
  assert (Hrole : option_map User.role user1 = option_map User.role user2).
  { destruct user1 as [u1|], user2 as [u2|]; simpl in *; try contradiction;
      [|reflexivity].
    apply same_but_password_fields in Hcaller.
    destruct Hcaller as (_ & _ & -> & _). reflexivity. }
  assert (Hid : option_map User.id user1 = option_map User.id user2).
  { destruct user1 as [u1|], user2 as [u2|]; simpl in *; try contradiction;
      [|reflexivity].
    apply same_but_password_fields in Hcaller.
    destruct Hcaller as (_ & -> & _). reflexivity. }
  split; [|split; [|split]].
  - unfold listStudents.
    replace (is_teacher user2) with (is_teacher user1).
    2:{ destruct user1, user2; simpl in *; congruence. }
    destruct (is_teacher user1); simpl; [|reflexivity].
    assert (Hall :
      fst ((classes <- getAllClasses arrange;;
            result <- studentsOfClasses classes [];;
            ret (mkResponse 200 (StudentsByClass result))) st1)
      = fst ((classes <- getAllClasses arrange;;
              result <- studentsOfClasses classes [];;
              ret (mkResponse 200 (StudentsByClass result))) st2)).
    { unfold bind, ret.
      pose proof (getAllClasses_same st1 st2 Hdiffer arrange) as Hc.
      unfold getAllClasses, gets in *. cbn [fst] in Hc. rewrite Hc.
      pose proof (studentsOfClasses_same st1 st2 Hdiffer
                    (arrange (distinct (flat_map class_of_student (users st2))))
                    []) as Hr.
      destruct (studentsOfClasses _ [] st1), (studentsOfClasses _ [] st2).
      simpl in *. now rewrite Hr. }
    destruct className as [[|c r]|]; try exact Hall.
    unfold bind, ret.
    pose proof (getStudentsByClass_same st1 st2 Hdiffer (String c r)) as Hs.
    unfold getStudentsByClass, gets in *. simpl in *. now rewrite Hs.
  - unfold listSubmissions.
    destruct user1 as [u1|], user2 as [u2|]; simpl in Hrole, Hid;
      try discriminate; [|reflexivity].
    injection Hrole as ->. injection Hid as ->.
    destruct (Role_eqb (User.role u2) teacher); simpl; [|reflexivity].
    pose proof Hdiffer as (Hu & He & Hq & Hs & Ha).
    unfold bind, getExam, gets, ret. cbv beta iota. rewrite He.
    destruct (find (fun e => Exam.id e =? examId) (exams st2)) as [exam|];
      [|reflexivity].
    destruct (Exam.createdById exam =? User.id u2); simpl; [|reflexivity].
    rewrite Hs.
    destruct (withStudents_same st1 st2 Hdiffer
                (filter (fun s => Submission.examId s =? examId)
                        (submissions st2)))
      as (Hr & _ & _).
    destruct (withStudents _ st1), (withStudents _ st2).
    simpl in *. now rewrite Hr.
  - unfold listStudents. destruct (is_teacher user1); simpl; [|constructor].
    assert (Hall :
      Forall (fun record => property "password" record = None)
        (user_records
           (fst ((classes <- getAllClasses arrange;;
                  result <- studentsOfClasses classes [];;
                  ret (mkResponse 200 (StudentsByClass result))) st1)))).
    { unfold bind, ret, getAllClasses, gets.
      pose proof (studentsOfClasses_records
                    (arrange (distinct (flat_map class_of_student (users st1))))
                    st1 [] (Forall_nil _)) as Hr.
      destruct (studentsOfClasses _ [] st1) as [result s]. cbn in *.
      apply Forall_concat. apply Forall_map. exact Hr. }
    destruct className as [[|c r]|]; try exact Hall.
    unfold bind, ret, getStudentsByClass, gets. cbn.
    apply Forall_forall. intros record Hin. apply in_map_iff in Hin.
    destruct Hin as (u & <- & _). reflexivity.
  - unfold listSubmissions. destruct user1 as [u1|]; [|constructor].
    destruct (Role_eqb (User.role u1) teacher); simpl; [|constructor].
    unfold bind, getExam, gets, ret. cbv beta iota.
    destruct (find (fun e => Exam.id e =? examId) (exams st1)) as [exam|];
      [|constructor].
    destruct (Exam.createdById exam =? User.id u1); simpl; [|constructor].
    destruct (withStudents_records
                (filter (fun s => Submission.examId s =? examId)
                        (submissions st1)) st1) as [Hr _].
    destruct (withStudents _ st1) as [result s]. cbn in *.
    apply Forall_map. exact Hr.
Qed.

Lemma listings_independent_of_passwords_witness :
  fst (listStudents reversed (Some (master "pw1")) None (school "pw1" "secret"))
  = fst (listStudents reversed (Some (master "pw2")) None
                      (school "pw2" "hidden")) /\
  fst (listSubmissions (Some (master "pw1")) 1 (school "pw1" "secret"))
  = fst (listSubmissions (Some (master "pw2")) 1 (school "pw2" "hidden")) /\
  Forall (fun record => property "password" record = None)
         (user_records
            (fst (listStudents reversed (Some (master "pw1")) None
                               (school "pw1" "secret")))) /\
  Forall (fun record => property "password" record = None)
         (user_records
            (fst (listSubmissions (Some (master "pw1")) 1
                                  (school "pw1" "secret")))).
Proof.
  apply (listings_independent_of_passwords reversed
           (school "pw1" "secret") (school "pw2" "hidden")
           (Some (master "pw1")) (Some (master "pw2")) None 1).
  - repeat split; try reflexivity.
    repeat constructor.
  - reflexivity.
Defined.

(** The listings of the sample school do carry the other properties. *)
Example listSubmissions_sample :
  fst (listSubmissions (Some (master "pw1")) 1 (school "pw1" "secret"))
  = mkResponse 200
      (SubmissionList
         [(Submission.mk 1 1 7 1000 (Some 1000) (Some 3) completed (Some 1000),
           [("id", JsNumber 7); ("studentId", JsString "S1");
            ("fullName", JsString "An"); ("username", JsString "an");
            ("email", JsNull); ("role", JsString "student");
            ("class", JsString "10A"); ("createdAt", JsNull)])]).
Proof. reflexivity. Qed.

(** ** The countdown *)

Module CountdownFacts.
Import ExamTaking.

Ltac calc :=
  cbn -[Z.leb Z.eqb Z.geb Z.div Z.max Z.add Z.sub Z.mul Z.le Z.lt] in *.

Ltac unfold_state st :=
  destruct st as [ex tr ir sh mo nw tm sg cb];
  unfold counting, stopped in *; calc.

Ltac step :=
  unfold tick, called, onInterval, setTimeRemaining, openPage, examLoaded,
    mount, rerender, initTimer, timerCleanup, timerEffect, falsy, same,
    initialTimeRemaining, isExamAvailable, unmount;
  calc.

Lemma tick_counting e r n st :
  counting e r n st -> 0 < r ->
  exists st', tick st = Some st' /\ counting e (r - 1) n st'.
Proof.
  unfold_state st. intros (-> & -> & Hi & -> & -> & Hb) Hpos.
  destruct ir as [i|]; [|congruence]. step.
  destruct (Z.leb_spec r 0) as [Hle|_]; [lia|]. step.
  destruct (Z.eqb_spec (r - 1) r) as [Heq|_]; [lia|]. step.
  destruct (Z.eqb_spec (r - 1) 0) as [H0|Hn0]; step.
  - rewrite (Z.div_small (endTime e - (nw + 1000)) 1000) by lia.
    rewrite H0. calc. eexists. split; [reflexivity|]. calc.
    repeat split; try discriminate; lia.
  - eexists. split; [reflexivity|]. calc.
    repeat split; try discriminate; lia.
Qed.

Lemma tick_zero e n st :
  counting e 0 n st ->
  exists st', tick st = Some st' /\ stopped (S n) st'.
Proof.
  unfold_state st. intros (-> & -> & Hi & -> & -> & Hb).
  destruct ir as [i|]; [|congruence]. step.
  eexists. split; [reflexivity|]. calc. auto.
Qed.

Lemma tick_stopped n st :
  stopped n st ->
  exists st', tick st = Some st' /\ stopped n st'.
Proof.
  unfold_state st. intros (-> & -> & ->). step.
  eexists. split; [reflexivity|]. calc. auto.
Qed.

Lemma ticks_stopped k : forall n st,
  stopped n st ->
  exists st', ticks k st = Some st' /\ stopped n st'.
Proof.
  induction k as [|k IH]; intros n st H; simpl.
  - eauto.
  - destruct (tick_stopped n st H) as (st1 & -> & H1). eauto.
Qed.

(** While seconds remain, [j] ticks take [j] seconds off and raise no
    signal. *)
Lemma ticks_counting e n j : forall r st,
  counting e r n st -> Z.of_nat j <= r ->
  exists st', ticks j st = Some st' /\ counting e (r - Z.of_nat j) n st'.
Proof.
  induction j as [|j IH]; intros r st H Hle.
  - exists st. simpl. rewrite Z.sub_0_r. auto.
  - destruct (tick_counting e r n st H) as (st1 & Ht & H1); [lia|].
    destruct (IH (r - 1) st1 H1) as (st2 & Ht2 & H2); [lia|].
    exists st2. cbn [ticks]. rewrite Ht. split; [exact Ht2|].
    replace (r - Z.of_nat (S j)) with (r - 1 - Z.of_nat j) by lia.
    exact H2.
Qed.

Lemma ticks_add a : forall b st,
  ticks (a + b) st
  = match ticks a st with
    | Some st' => ticks b st'
    | None => None
    end.
Proof.
  induction a as [|a IH]; intros b st; simpl; [reflexivity|].
  destruct (tick st); [apply IH | reflexivity].
Qed.

(** From a running countdown that shows [k] seconds: the signal count
    after [j] more ticks. *)
Lemma ticks_signals e k n st j :
  counting e (Z.of_nat k) n st ->
  exists st',
    ticks j st = Some st' /\
    signals st' = (if (j <=? k)%nat then n else S n) /\
    ((k <= j)%nat -> timeRemaining st' = Some 0).
Proof.
  intros H. destruct (Nat.leb_spec j k) as [Hle|Hgt].
  - destruct (ticks_counting e n j _ st H) as (st' & Ht & H'); [lia|].
    exists st'. split; [exact Ht|].
    destruct H' as (_ & Hr & _ & _ & Hs & _). split; [exact Hs|].
    intros Hk. rewrite Hr. f_equal. lia.
  - destruct (ticks_counting e n k _ st H) as (st1 & Ht1 & H1); [lia|].
    rewrite Z.sub_diag in H1.
    destruct (tick_zero e n st1 H1) as (st2 & Ht2 & H2).
    destruct (ticks_stopped (j - S k) (S n) st2 H2) as (st3 & Ht3 & H3).
    exists st3. replace j with (k + (1 + (j - S k)))%nat at 1 by lia.
    rewrite ticks_add, Ht1, ticks_add. cbn [ticks]. rewrite Ht2.
    split; [exact Ht3|]. destruct H3 as (Hr & _ & Hs). auto.
Qed.

(** From a running countdown that shows [k] seconds, more than [k] ticks
    leave it stopped at zero, one signal raised. *)
Lemma ticks_past e k n st j :
  counting e (Z.of_nat k) n st -> (k < j)%nat ->
  exists st', ticks j st = Some st' /\ stopped (S n) st'.
Proof.
  intros H Hgt.
  destruct (ticks_counting e n k _ st H) as (st1 & Ht1 & H1); [lia|].
  rewrite Z.sub_diag in H1.
  destruct (tick_zero e n st1 H1) as (st2 & Ht2 & H2).
  destruct (ticks_stopped (j - S k) (S n) st2 H2) as (st3 & Ht3 & H3).
  exists st3. replace j with (k + (1 + (j - S k)))%nat at 1 by lia.
  rewrite ticks_add, Ht1, ticks_add. cbn [ticks]. rewrite Ht2.
  split; [exact Ht3 | exact H3].
Qed.

(** Opening the page while the exam is available starts the countdown
    at the whole seconds left, without any signal. *)
Lemma openPage_counting e t :
  startTime e <= t <= endTime e ->
  exists st,
    openPage e t = Some st /\
    counting e ((endTime e - t) / 1000) 0 st /\
    showTimeUpDialog st = false.
Proof.
  intros [Hs He]. step.
  destruct (Z.leb_spec (startTime e) t) as [_|]; [|lia].
  destruct (Z.geb_spec (endTime e) t) as [_|]; [|lia]. step.
  pose proof (Z.div_pos (endTime e - t) 1000 ltac:(lia) ltac:(lia)) as Hq.
  pose proof (Z.div_mod (endTime e - t) 1000 ltac:(lia)) as Hdm.
  pose proof (Z.mod_pos_bound (endTime e - t) 1000 ltac:(lia)) as Hmod.
  rewrite (Z.max_r 0 ((endTime e - t) / 1000)) by exact Hq.
  destruct (Z.eqb_spec ((endTime e - t) / 1000) 0) as [H0|Hn0]; step.
  - rewrite H0. calc. eexists. split; [reflexivity|].
    unfold counting. calc.
    repeat split; try reflexivity; try discriminate; lia.
  - eexists. split; [reflexivity|].
    unfold counting. calc.
    repeat split; try reflexivity; try discriminate; lia.
Qed.

(** Opening the page when the exam is not available redirects: the
    component is unmounted and no interval is ever set. *)
Lemma openPage_redirected e t :
  isExamAvailable e t = false ->
  openPage e t = Some (mk (Some e) None None false false t 1 0 0).
Proof.
  intros Hna. unfold openPage, examLoaded, mount.
  cbn [set_exam now exam timeRemaining intervalRef showTimeUpDialog
       mounted timers signals callbacks].
  rewrite Hna. reflexivity.
Qed.

Lemma ticks_idle k : forall st,
  intervalRef st = None ->
  exists st', ticks k st = Some st' /\
              intervalRef st' = None /\ signals st' = signals st.
Proof.
  induction k as [|k IH]; intros st Hi; simpl; [eauto|].
  unfold tick. cbn [intervalRef elapse]. rewrite Hi.
  destruct (IH (elapse 1000 st) Hi) as (st' & Ht & Hi' & Hs').
  eauto.
Qed.

End CountdownFacts.

(** C7 (as amended). For a countdown started with endTime = now + 65
    seconds (on an exam that has started), the remaining time after 65
    one-second ticks is exactly 0, but the time-expired signal has not been
    raised by then and the interval is still registered: the 66th tick,
    whose callback finds the remaining time already 0, raises the signal
    and clears the interval.  Over a run of any length the signal is raised
    exactly once: the count of signals is 0 up to the 65th tick and 1
    after every later tick, so no later tick raises it again. *)
Theorem countdown_65_signals_once e t :
  ExamTaking.startTime e <= t ->
  ExamTaking.endTime e = t + 65000 ->
  (exists st, ExamTaking.run e t 65 = Some st /\
              ExamTaking.timeRemaining st = Some 0 /\
              ExamTaking.signals st = 0%nat /\
              ExamTaking.intervalRef st <> None) /\
  (forall n, exists st,
      ExamTaking.run e t n = Some st /\
      ExamTaking.signals st = if (n <=? 65)%nat then 0%nat else 1%nat) /\
  (forall n, (65 < n)%nat -> exists st,
      ExamTaking.run e t n = Some st /\
      ExamTaking.timeRemaining st = Some 0 /\
      ExamTaking.intervalRef st = None).
Proof.
  intros Hstart Hend.
  destruct (CountdownFacts.openPage_counting e t) as (st0 & Hopen & Hc & _);
    [lia|].
  replace ((ExamTaking.endTime e - t) / 1000) with (Z.of_nat 65) in Hc
    by (rewrite Hend; replace (t + 65000 - t) with (65 * 1000) by lia;
        rewrite Z.div_mul by lia; reflexivity).
  unfold ExamTaking.run. rewrite Hopen. split; [|split].
  - destruct (CountdownFacts.ticks_counting e 0 65 _ st0 Hc)
      as (st & Ht & (_ & Hr & Hi & _ & Hs & _)); [lia|].
    exists st. split; [exact Ht|]. rewrite Z.sub_diag in Hr. auto.
  - intros n.
    destruct (CountdownFacts.ticks_signals e 65 0 st0 n Hc)
      as (st & Ht & Hs & _).
    exists st. split; [exact Ht | exact Hs].
  - intros n Hn.
    destruct (CountdownFacts.ticks_past e 65 0 st0 n Hc Hn)
      as (st & Ht & (Hr & Hi & _)).
    exists st. auto.
Qed.

Lemma countdown_65_signals_once_witness :
  (exists st, ExamTaking.run ExamTaking.sample 0 65 = Some st /\
              ExamTaking.timeRemaining st = Some 0 /\
              ExamTaking.signals st = 0%nat /\
              ExamTaking.intervalRef st <> None) /\
  (forall n, exists st,
      ExamTaking.run ExamTaking.sample 0 n = Some st /\
      ExamTaking.signals st = if (n <=? 65)%nat then 0%nat else 1%nat) /\
  (forall n, (65 < n)%nat -> exists st,
      ExamTaking.run ExamTaking.sample 0 n = Some st /\
      ExamTaking.timeRemaining st = Some 0 /\
      ExamTaking.intervalRef st = None).
Proof.
  apply (countdown_65_signals_once ExamTaking.sample 0).
  - simpl. lia.
  - reflexivity.
Defined.

(** C7 as stated in its context (the signal is raised when the remaining
    time reaches zero, after the 65 ticks) fails: after 65 ticks of the
    sample countdown the remaining time is 0, no signal has been raised,
    the dialog is closed and the interval is still registered; the signal
    comes with the 66th tick. *)
Lemma no_signal_after_65_ticks :
  ExamTaking.endTime ExamTaking.sample = 0 + 65000 /\
  option_map (fun st => (ExamTaking.timeRemaining st, ExamTaking.signals st,
                         ExamTaking.showTimeUpDialog st,
                         ExamTaking.intervalRef st))
             (ExamTaking.run ExamTaking.sample 0 65)
  = Some (Some 0, 0%nat, false, Some 66) /\
  option_map (fun st => (ExamTaking.timeRemaining st, ExamTaking.signals st,
                         ExamTaking.showTimeUpDialog st,
                         ExamTaking.intervalRef st))
             (ExamTaking.run ExamTaking.sample 0 66)
  = Some (Some 0, 1%nat, true, None).
Proof. repeat split; vm_compute; reflexivity. Qed.

(** C8 as stated fails: the page opened exactly at the end time computes a
    remaining time of 0 but raises no signal on opening (the first tick
    does); opened after the end time it redirects, and no signal is raised
    even after ten ticks. *)
Lemma no_signal_on_opening :
  ExamTaking.endTime ExamTaking.sample <= 65000 /\
  ~ (exists st, ExamTaking.openPage ExamTaking.sample 65000 = Some st /\
                (ExamTaking.showTimeUpDialog st = true \/
                 (0 < ExamTaking.signals st)%nat)) /\
  option_map (fun st => (ExamTaking.timeRemaining st, ExamTaking.signals st,
                         ExamTaking.showTimeUpDialog st))
             (ExamTaking.openPage ExamTaking.sample 65000)
  = Some (Some 0, 0%nat, false) /\
  option_map (fun st => (ExamTaking.signals st,
                         ExamTaking.showTimeUpDialog st))
             (ExamTaking.run ExamTaking.sample 70000 10)
  = Some (0%nat, false).
Proof.
  split; [simpl; lia|]. split.
  - intros (st & Hopen & Hsig). vm_compute in Hopen.
    injection Hopen as <-. simpl in Hsig.
    destruct Hsig as [Hd|Hs]; [discriminate | lia].
  - split; vm_compute; reflexivity.
Qed.

(** C8 (as amended). If the page is opened at or after the exam's end
    time, the initially computed remaining time
    max(0, floor((endTime - now) / 1000)) is exactly 0 and no time-expired
    signal is raised on opening.  Opened exactly at the end time of a
    started exam, the first one-second tick raises the signal, once;
    opened after the end time, the page redirects and the signal is never
    raised. *)
Theorem opened_at_or_after_end e t :
  ExamTaking.endTime e <= t ->
  ExamTaking.initialTimeRemaining e t = 0 /\
  (exists st, ExamTaking.openPage e t = Some st /\
              ExamTaking.signals st = 0%nat /\
              ExamTaking.showTimeUpDialog st = false /\
              (ExamTaking.timeRemaining st = Some 0 \/
               ExamTaking.timeRemaining st = None)) /\
  (ExamTaking.startTime e <= t -> ExamTaking.endTime e = t ->
   forall n, exists st,
     ExamTaking.run e t n = Some st /\
     ExamTaking.signals st = if (n <=? 0)%nat then 0%nat else 1%nat) /\
  (ExamTaking.endTime e < t ->
   forall n, exists st,
     ExamTaking.run e t n = Some st /\ ExamTaking.signals st = 0%nat).
Proof.
  intros Hlate.
  assert (Hinit : ExamTaking.initialTimeRemaining e t = 0).
  { unfold ExamTaking.initialTimeRemaining. apply Z.max_l.
    apply Z.div_le_upper_bound; lia. }
  split; [exact Hinit|].
  assert (Hat : ExamTaking.startTime e <= t -> ExamTaking.endTime e = t ->
                exists st, ExamTaking.openPage e t = Some st /\
                           ExamTaking.counting e (Z.of_nat 0) 0 st /\
                           ExamTaking.showTimeUpDialog st = false).
  { intros Hs He.
    destruct (CountdownFacts.openPage_counting e t) as (st & Ho & Hc & Hd);
      [lia|].
    exists st. split; [exact Ho|]. split; [|exact Hd].
    replace (ExamTaking.endTime e - t) with 0 in Hc by lia. exact Hc. }
  split; [|split].
  - destruct (ExamTaking.isExamAvailable e t) eqn:Hav.
    + unfold ExamTaking.isExamAvailable in Hav.
      apply andb_prop in Hav. destruct Hav as [H1 H2].
      destruct (Hat ltac:(lia) ltac:(lia)) as (st & Ho & Hc & Hd).
      exists st. destruct Hc as (_ & Hr & _ & _ & Hs & _). auto.
    + rewrite (CountdownFacts.openPage_redirected e t Hav).
      eexists. split; [reflexivity|]. cbn. auto.
  - intros Hs He n. destruct (Hat Hs He) as (st0 & Ho & Hc & _).
    unfold ExamTaking.run. rewrite Ho.
    destruct (CountdownFacts.ticks_signals e 0 0 st0 n Hc)
      as (st & Ht & Hsig & _).
    exists st. split; [exact Ht | exact Hsig].
  - intros Hafter n. unfold ExamTaking.run.
    rewrite (CountdownFacts.openPage_redirected e t).
    2:{ unfold ExamTaking.isExamAvailable.
        destruct (Z.geb_spec (ExamTaking.endTime e) t); [lia|].
        apply andb_false_r. }
    destruct (CountdownFacts.ticks_idle n
                (ExamTaking.mk (Some e) None None false false t 1 0 0)
                eq_refl) as (st & Ht & _ & Hs).
    exists st. split; [exact Ht | exact Hs].
Qed.

Lemma opened_at_or_after_end_witness :
  ExamTaking.initialTimeRemaining ExamTaking.sample 65000 = 0 /\
  (exists st, ExamTaking.openPage ExamTaking.sample 65000 = Some st /\
              ExamTaking.signals st = 0%nat /\
              ExamTaking.showTimeUpDialog st = false /\
              (ExamTaking.timeRemaining st = Some 0 \/
               ExamTaking.timeRemaining st = None)) /\
  (ExamTaking.startTime ExamTaking.sample <= 65000 ->
   ExamTaking.endTime ExamTaking.sample = 65000 ->
   forall n, exists st,
     ExamTaking.run ExamTaking.sample 65000 n = Some st /\
     ExamTaking.signals st = if (n <=? 0)%nat then 0%nat else 1%nat) /\
  (ExamTaking.endTime ExamTaking.sample < 65000 ->
   forall n, exists st,
     ExamTaking.run ExamTaking.sample 65000 n = Some st /\
     ExamTaking.signals st = 0%nat).
Proof.
  apply (opened_at_or_after_end ExamTaking.sample 65000).
  simpl. lia.
Defined.

(** ** What a submission request leaves of the store *)

Lemma kept_refl l : Forall2 kept l l.
Proof.
  induction l as [|s l IH]; constructor; [|exact IH].
  unfold kept. tauto.
Qed.

Lemma completion_kept now score id l :
  Forall2 kept l
    (map (fun s => if Submission.id s =? id
                   then Submission.set (completed_columns now score) s else s) l).
Proof.
  pose proof (updateSubmission_frame id (completed_columns now score) l
                eq_refl eq_refl eq_refl eq_refl eq_refl) as H.
  induction H as [|x y l1 l2 [Hk _] _ IH]; constructor; assumption.
Qed.

(** X1. Whatever the outcome, a submission request leaves the users, exams
    and questions tables as they are, never removes a Submission row and
    never changes the id, exam, student or start time of one: the rows
    stored before are still there, in the same order, followed by at most
    one new row. *)
Theorem submit_keeps_rows req st :
  users (snd (submit req st)) = users st /\
  exams (snd (submit req st)) = exams st /\
  questions (snd (submit req st)) = questions st /\
  exists updated added,
    submissions (snd (submit req st)) = updated ++ added /\
    Forall2 kept (submissions st) updated /\
    (length added <= 1)%nat.
Proof.
  destruct (submit_cases req st)
    as [(rejection & Hadm & Hsub)|
        (user & l & sub & st1 & _ & _ & _ & _ & _ & Hacq & Hcase)].
  { rewrite Hsub. simpl. repeat split. exists (submissions st), [].
    rewrite app_nil_r. split; [reflexivity|]. split; [apply kept_refl|].
    simpl. lia. }
  pose proof (acquire_row _ _ _ _ _ Hacq)
    as (_ & _ & _ & _ & Hu & He & Hq & _ & _ & Hsubs).
  assert (H1 : exists added, submissions st1 = submissions st ++ added /\
                             (length added <= 1)%nat).
  { destruct Hsubs as [Hs|[Hs _]].
    - exists []. rewrite app_nil_r. simpl. split; [exact Hs | lia].
    - exists [sub]. simpl. split; [exact Hs | lia]. }
  destruct H1 as (added & Hs1 & Hlen).
  assert (Hrej : forall resp,
    submit req st
    = (resp, add_answers
               (written_rows (req_now req) (Submission.id sub)
                  (exam_questions req st) (currentId_answers st) l) st1) ->
    users (snd (submit req st)) = users st /\
    exams (snd (submit req st)) = exams st /\
    questions (snd (submit req st)) = questions st /\
    exists updated added,
      submissions (snd (submit req st)) = updated ++ added /\
      Forall2 kept (submissions st) updated /\
      (length added <= 1)%nat).
  { intros resp ->. cbn [snd users exams questions submissions add_answers].
    repeat (split; [assumption|]).
    exists (submissions st), added. split; [assumption|].
    split; [apply kept_refl | assumption]. }
  destruct (halt (exam_questions req st) l); try (eapply Hrej; eassumption).
  destruct (int4 (js_total (Finite 0) (earned (exam_questions req st) l)));
    try (eapply Hrej; eassumption).
  rewrite Hcase.
  cbn [snd users exams questions submissions add_answers complete].
  repeat (split; [assumption|]).
  rewrite Hs1, map_app. eexists. eexists. split; [reflexivity|].
  split; [apply completion_kept|]. now rewrite length_map.
Qed.

(** ** Every storage call only lets the store grow *)

























(** Completed is terminal for the status, not for the score: a request
    that found the submission in progress, and is resumed after another
    request has completed that submission with score 3, grades its own
    list and replaces the score by 1. *)
Example completed_score_overwritten :
  map (fun s => (Submission.status s, Submission.score s))
      (submissions (store (serving (firstn 12 overtaking)
                                   (idle store_in_progress))))
  = [(completed, Some 3)] /\
  map (fun s => (Submission.status s, Submission.score s))
      (submissions (store (serving overtaking (idle store_in_progress))))
  = [(completed, Some 1)].
Proof. split; vm_compute; reflexivity. Qed.

(** ** Completed is terminal *)











(** ** The same, for a request resumed among others *)






(** The second request of the sample does get its answer, the rejection. *)
Example second_request_rejected :
  option_map statusCode
    (response_of 1
       (serving (served_abd ++ Arrives (request0 twice) :: second_request)
                (idle store0)))
  = Some 400.
Proof. vm_compute. reflexivity. Qed.

(** ** Bounds and symmetries of the score *)

(** A successful request, in full. *)
Lemma submit_ok req st resp st' :
  submit req st = (resp, st') ->
  statusCode resp = 200 ->
  exists user l sub st1 z s0,
    req_user req = Some user /\ req_answers req = AnArray l /\
    acquire (req_now req) (req_examId req) (User.id user)
            (studentSubmission (req_examId req) (User.id user) st) st
    = (sub, st1) /\
    halt (exam_questions req st) l = Finished /\
    int4 (js_total (Finite 0) (earned (exam_questions req st) l)) = Some z /\
    In s0 (submissions st1) /\ Submission.id s0 = Submission.id sub /\
    resp = mkResponse 200
             (SubmissionJson
                (Some (Submission.set (completed_columns (req_now req) z) s0))) /\
    st' = complete (Submission.id sub) (req_now req) z
            (add_answers
               (written_rows (req_now req) (Submission.id sub)
                  (exam_questions req st) (currentId_answers st) l) st1).
Proof.
  intros H H200.
  destruct (submit_cases req st)
    as [(rejection & Hadm & Hsub)|
        (user & l & sub & st1 & Hu & _ & _ & Ha & _ & Hacq & Hcase)].
  { rewrite Hsub in H. injection H as <- <-.
    apply admission_rejects in Hadm. unfold is_client_error in Hadm. lia. }
  destruct (halt (exam_questions req st) l) eqn:Hh;
    try (rewrite Hcase in H; injection H as <- <-; simpl in H200; lia).
  destruct (int4 (js_total (Finite 0) (earned (exam_questions req st) l)))
    as [z|] eqn:Hz;
    [|rewrite Hcase in H; injection H as <- <-; simpl in H200; lia].
  rewrite Hcase in H. injection H as <- <-.
  pose proof (acquire_row _ _ _ _ _ Hacq) as (Hin & _).
  destruct (find_submission_In (Submission.id sub) _ sub Hin eq_refl)
    as (s0 & Hfind & Hin0 & Hid0).
  exists user, l, sub, st1, z, s0. rewrite Hfind. simpl.
  repeat split; assumption.
Qed.

Lemma entries_score_correctly_answered qs l :
  entries_score qs l = sum_points (correctly_answered qs l).
Proof.
  unfold entries_score, correctly_answered, points_earned.
  induction l as [|a l IH]; simpl; [reflexivity|].
  rewrite sum_points_app, IH.
  destruct (question_with_id qs (questionId a)) as [question|]; simpl;
    [|reflexivity].
  destruct (chose_correct_dec question a); simpl; lia.
Qed.

(** A sum over distinct members of a list of non-negative values is at most
    the sum over the whole list. *)
Lemma sum_points_incl l : forall m,
  NoDup l -> incl l m ->
  (forall x, In x m -> 0 <= Question.points x) ->
  sum_points l <= sum_points m.
Proof.
  induction l as [|x l IH]; intros m Hnd Hincl Hpos.
  - clear Hincl. induction m as [|y m IHm]; simpl; [lia|].
    assert (0 <= Question.points y) by (apply Hpos; left; reflexivity).
    assert (sum_points [] <= sum_points m)
      by (apply IHm; intros z Hz; apply Hpos; right; exact Hz).
    simpl in *. lia.
  - inversion Hnd as [|? ? Hnotin Hnd']; subst.
    assert (Hx : In x m) by (apply Hincl; left; reflexivity).
    apply in_split in Hx. destruct Hx as (m1 & m2 & ->).
    assert (Hincl' : incl l (m1 ++ m2)).
    { intros y Hy. assert (Hy' : In y (m1 ++ x :: m2))
        by (apply Hincl; right; exact Hy).
      apply in_app_or in Hy'. apply in_or_app.
      destruct Hy' as [|[->|]]; [auto | contradiction | auto]. }
    assert (Hpos' : forall y, In y (m1 ++ m2) -> 0 <= Question.points y).
    { intros y Hy. apply Hpos. apply in_app_or in Hy. apply in_or_app.
      destruct Hy; [left | right; right]; assumption. }
    pose proof (IH (m1 ++ m2) Hnd' Hincl' Hpos') as Hle.
    rewrite sum_points_app in *. simpl. lia.
Qed.

Lemma correctly_answered_incl qs l :
  incl (correctly_answered qs l) qs.
Proof.
  intros x Hx. unfold correctly_answered in Hx.
  apply in_flat_map in Hx. destruct Hx as (a & _ & Hx).
  destruct (question_with_id qs (questionId a)) as [question|] eqn:E;
    [|destruct Hx].
  destruct (chose_correct_dec question a); [|destruct Hx].
  destruct Hx as [<-|[]]. apply question_with_id_In in E. tauto.
Qed.

Lemma correctly_answered_ids qs l x :
  In x (correctly_answered qs l) -> In (Question.id x) (map questionId l).
Proof.
  intros Hx. unfold correctly_answered in Hx.
  apply in_flat_map in Hx. destruct Hx as (a & Ha & Hx).
  destruct (question_with_id qs (questionId a)) as [question|] eqn:E;
    [|destruct Hx].
  destruct (chose_correct_dec question a); [|destruct Hx].
  destruct Hx as [<-|[]]. apply question_with_id_In in E.
  destruct E as [_ ->]. now apply in_map.
Qed.

Lemma correctly_answered_NoDup qs l :
  NoDup (map questionId l) -> NoDup (correctly_answered qs l).
Proof.
  induction l as [|a l IH]; simpl; intros Hnd; [constructor|].
  inversion Hnd as [|? ? Hnotin Hnd']; subst.
  destruct (question_with_id qs (questionId a)) as [question|] eqn:E;
    [|now apply IH].
  destruct (chose_correct_dec question a); simpl; [|now apply IH].
  constructor; [|now apply IH].
  intros Hin. apply correctly_answered_ids in Hin.
  apply question_with_id_In in E. destruct E as [_ E]. rewrite E in Hin.
  contradiction.
Qed.

Lemma sum_points_nonneg l :
  (forall x, In x l -> 0 <= Question.points x) -> 0 <= sum_points l.
Proof.
  induction l as [|x l IH]; simpl; intros H; [lia|].
  assert (0 <= Question.points x) by (apply H; left; reflexivity).
  assert (0 <= sum_points l)
    by (apply IH; intros y Hy; apply H; right; exact Hy).
  lia.
Qed.

(** With no negative point value the running score only rises, so a score
    that the column takes is the exact sum. *)
Lemma stored_score_exact qs l z :
  (forall question, In question qs -> 0 <= Question.points question) ->
  int4 (js_total (Finite 0) (earned qs l)) = Some z ->
  z = entries_score qs l.
Proof.
  intros Hpos Hz. apply int4_range in Hz. destruct Hz as [Hz Hr].
  rewrite <- sum_earned.
  apply (js_total_nonneg (earned qs l) 0 z); [|lia | exact Hz | lia].
  intros p Hp. apply earned_points in Hp.
  destruct Hp as (question & Hin & <-). now apply Hpos.
Qed.

(** X3. When no point value of the exam is negative and the submitted list
    names no question twice, the score of a successful submission lies
    between 0 and the total of the point values of the exam's questions. *)
Theorem score_within_exam_total req st resp st' l :
  submit req st = (resp, st') ->
  statusCode resp = 200 ->
  req_answers req = AnArray l ->
  NoDup (map questionId l) ->
  (forall question, In question (exam_questions req st) ->
                    0 <= Question.points question) ->
  exists score,
    response_score resp = Some score /\
    0 <= score <= sum_points (exam_questions req st).
Proof.
  intros H H200 Ha Hnd Hpos.
  destruct (submit_ok _ _ _ _ H H200)
    as (user & l' & sub & st1 & z & s0 & _ & Ha' & _ & _ & Hz & _ & _ & -> & _).
  rewrite Ha in Ha'. injection Ha' as <-.
  exists z. split; [reflexivity|].
  rewrite (stored_score_exact _ _ _ Hpos Hz), entries_score_correctly_answered.
  split.
  - apply sum_points_nonneg. intros x Hx. apply Hpos.
    exact (correctly_answered_incl _ _ x Hx).
  - apply sum_points_incl; [|apply correctly_answered_incl | exact Hpos].
    now apply correctly_answered_NoDup.
Qed.

Lemma score_within_exam_total_witness :
  exists score,
    response_score (fst (submit (request0 abd) store0)) = Some score /\
    0 <= score <= sum_points (exam_questions (request0 abd) store0).
Proof.
  apply (score_within_exam_total (request0 abd) store0
           (fst (submit (request0 abd) store0)) store_completed abd).
  - vm_compute. reflexivity.
  - vm_compute. reflexivity.
  - reflexivity.
  - repeat constructor; simpl; intuition discriminate.
  - intros question [<-|[<-|[<-|[]]]]; simpl; lia.
Defined.

Lemma entries_score_perm qs l1 l2 :
  Permutation l1 l2 -> entries_score qs l1 = entries_score qs l2.
Proof.
  unfold entries_score.
  induction 1; simpl; try lia; congruence.
Qed.

Lemma halt_storable qs l :
  Forall storable l ->
  halt qs l = match first_unknown qs l with
              | Some qid => AtUnknown qid
              | None => Finished
              end.
Proof.
  induction 1 as [|a l Ha _ IH]; simpl; [reflexivity|].
  destruct (question_with_id qs (questionId a)); [|reflexivity].
  unfold storable in Ha.
  destruct (stored_answer (answer a)); [exact IH | contradiction].
Qed.

Lemma first_unknown_None qs l :
  first_unknown qs l = None <->
  Forall (fun a => question_with_id qs (questionId a) <> None) l.
Proof.
  induction l as [|a l IH]; simpl.
  - split; [constructor | reflexivity].
  - destruct (question_with_id qs (questionId a)) eqn:E.
    + rewrite IH. split.
      * intros H. constructor; [congruence | exact H].
      * intros H. inversion H. assumption.
    + split; [discriminate|]. intros H. inversion H. congruence.
Qed.

Lemma first_unknown_perm qs l1 l2 :
  Permutation l1 l2 ->
  first_unknown qs l1 = None -> first_unknown qs l2 = None.
Proof.
  intros Hp. rewrite !first_unknown_None.
  apply Permutation_Forall. exact Hp.
Qed.

Lemma exact_total qs l :
  int4_points qs -> Z.of_nat (length l) <= 2 ^ 22 ->
  js_total (Finite 0) (earned qs l) = Finite (entries_score qs l).
Proof.
  intros Hp Hlen. rewrite <- sum_earned.
  rewrite js_total_exact; [reflexivity | |].
  - intros p Hin. apply earned_points in Hin.
    destruct Hin as (question & Hq & <-). now apply Hp.
  - pose proof (earned_length qs l) as Hl.
    change (2 ^ 53) with (2 ^ 31 * 2 ^ 22). simpl Z.abs. nia.
Qed.

(** What a request whose entries can all be stored, and whose score is
    summed exactly, is answered with. *)
Lemma storable_outcome req st user l :
  admission req st
  = inr (user, studentSubmission (req_examId req) (User.id user) st, l) ->
  Forall storable l ->
  int4_points (exam_questions req st) ->
  Z.of_nat (length l) <= 2 ^ 22 ->
  match first_unknown (exam_questions req st) l with
  | Some _ =>
      statusCode (fst (submit req st)) = 400 /\
      response_score (fst (submit req st)) = None
  | None =>
      match int4 (Finite (entries_score (exam_questions req st) l)) with
      | Some z =>
          statusCode (fst (submit req st)) = 200 /\
          response_score (fst (submit req st)) = Some z
      | None =>
          statusCode (fst (submit req st)) = 500 /\
          response_score (fst (submit req st)) = None
      end
  end.
Proof.
  intros Hadm Hst Hp Hlen.
  destruct (submit_cases req st)
    as [(rejection & Hadm' & _)|
        (user' & l' & sub & st1 & Hu & _ & _ & Ha & _ & Hacq & Hcase)];
    [congruence|].
  apply admission_admits in Hadm. destruct Hadm as (Hu' & _ & _ & _ & Ha' & _).
  rewrite Hu in Hu'. injection Hu' as ->.
  rewrite Ha in Ha'. injection Ha' as ->.
  rewrite (halt_storable _ _ Hst), (exact_total _ _ Hp Hlen) in Hcase.
  destruct (first_unknown (exam_questions req st) l);
    [rewrite Hcase; auto|].
  destruct (int4 (Finite (entries_score (exam_questions req st) l)));
    [|rewrite Hcase; auto].
  rewrite Hcase. split; [reflexivity|].
  pose proof (acquire_row _ _ _ _ _ Hacq) as (Hin & _).
  destruct (find_submission_In (Submission.id sub) _ sub Hin eq_refl)
    as (s0 & Hfind & _).
  unfold response_score. cbn [fst json]. rewrite Hfind. reflexivity.
Qed.

Lemma admission_same req1 req2 st l1 l2 :
  req_user req1 = req_user req2 ->
  req_examId req1 = req_examId req2 ->
  req_answers req1 = AnArray l1 ->
  req_answers req2 = AnArray l2 ->
  (l1 = [] <-> l2 = []) ->
  match admission req1 st with
  | inl rejection => admission req2 st = inl rejection
  | inr (user, found, l) =>
      l = l1 /\ admission req2 st = inr (user, found, l2)
  end.
Proof.
  intros Hu He Ha1 Ha2 Hnil. unfold admission.
  rewrite <- Hu, <- He, Ha1, Ha2.
  destruct (req_user req1) as [user|]; [|reflexivity].
  destruct (negb (Role_eqb (User.role user) student)); [reflexivity|].
  destruct (fst (getExam (req_examId req1) st)) as [exam|]; [|reflexivity].
  destruct (negb (nullable_eqb (Some (Exam.class exam)) (User.class user)));
    [reflexivity|].
  cbv zeta.
  destruct (already_completed _); [reflexivity|].
  destruct l1 as [|a1 l1], l2 as [|a2 l2]; try reflexivity.
  - destruct Hnil as [Hnil _]. discriminate (Hnil eq_refl).
  - destruct Hnil as [_ Hnil]. discriminate (Hnil eq_refl).
  - auto.
Qed.

(** X4. When every submitted answer can be stored and the score is summed
    exactly (point values within the integer column, at most 2^22
    entries), the order of the entries does not change the outcome: two
    requests of the same caller for the same exam whose lists are
    permutations of each other get the same status and, when graded, the
    same score. *)
Theorem outcome_independent_of_order req1 req2 st l1 l2 :
  req_user req1 = req_user req2 ->
  req_examId req1 = req_examId req2 ->
  req_answers req1 = AnArray l1 ->
  req_answers req2 = AnArray l2 ->
  Permutation l1 l2 ->
  Forall storable l1 ->
  int4_points (exam_questions req1 st) ->
  Z.of_nat (length l1) <= 2 ^ 22 ->
  statusCode (fst (submit req1 st)) = statusCode (fst (submit req2 st)) /\
  response_score (fst (submit req1 st)) = response_score (fst (submit req2 st)).
Proof.
  intros Hu He Ha1 Ha2 Hperm Hst Hp Hlen.
  assert (Hnil : l1 = [] <-> l2 = []).
  { split; intros ->;
      [apply Permutation_nil | apply Permutation_nil, Permutation_sym];
      exact Hperm. }
  pose proof (admission_same req1 req2 st l1 l2 Hu He Ha1 Ha2 Hnil) as Hsame.
  assert (Hq : exam_questions req2 st = exam_questions req1 st)
    by (unfold exam_questions; now rewrite He).
  destruct (admission req1 st) as [rejection|[[user found] l]] eqn:Hadm1.
  { rewrite !submit_unfold, Hadm1, Hsame. auto. }
  destruct Hsame as [-> Hadm2].
  pose proof (admission_admits _ _ _ _ _ Hadm1) as (_ & _ & Hf & _).
  pose proof (admission_admits _ _ _ _ _ Hadm2) as (_ & _ & Hf2 & _).
  rewrite Hf in Hadm1. rewrite Hf2 in Hadm2.
  pose proof (storable_outcome req1 st user l1 Hadm1 Hst Hp Hlen) as H1.
  assert (Hst2 : Forall storable l2)
    by (eapply Permutation_Forall; eassumption).
  assert (Hlen2 : Z.of_nat (length l2) <= 2 ^ 22)
    by (rewrite <- (Permutation_length Hperm); exact Hlen).
  rewrite <- Hq in Hp.
  pose proof (storable_outcome req2 st user l2 Hadm2 Hst2 Hp Hlen2) as H2.
  rewrite Hq in H2.
  rewrite <- (entries_score_perm _ _ _ Hperm) in H2.
  destruct (first_unknown (exam_questions req1 st) l1) as [q1|] eqn:E1.
  - destruct (first_unknown (exam_questions req1 st) l2) as [q2|] eqn:E2.
    + destruct H1 as [-> ->], H2 as [-> ->]. auto.
    + apply (first_unknown_perm _ _ _ (Permutation_sym Hperm)) in E2.
      congruence.
  - rewrite (first_unknown_perm _ _ _ Hperm E1) in H2.
    destruct (int4 (Finite (entries_score (exam_questions req1 st) l1)));
      destruct H1 as [-> ->], H2 as [-> ->]; auto.
Qed.

Lemma outcome_independent_of_order_witness :
  statusCode (fst (submit (request0 abd) store0))
  = statusCode (fst (submit (request0 (rev abd)) store0)) /\
  response_score (fst (submit (request0 abd) store0))
  = response_score (fst (submit (request0 (rev abd)) store0)).
Proof.
  apply (outcome_independent_of_order (request0 abd) (request0 (rev abd))
           store0 abd (rev abd)); try reflexivity.
  - apply Permutation_rev.
  - repeat constructor; unfold storable; vm_compute; discriminate.
  - intros question [<-|[<-|[<-|[]]]]; simpl; lia.
  - vm_compute. discriminate.
Defined.

(** With an answer that cannot be stored the order decides: the same two
    entries are answered 500 when the unstorable one is reached first and
    400 when the unknown question is. *)
Example order_decides_with_unstorable :
  statusCode (fst (submit (request0 too_long_first) store0)) = 500 /\
  statusCode (fst (submit (request0 (rev too_long_first)) store0)) = 400.
Proof. split; vm_compute; reflexivity. Qed.

(** ** Rows written by a successful request *)

Lemma written_rows_all now sid qs l : forall id,
  halt qs l = Finished ->
  map (fun r => (Answer.submissionId r, Answer.questionId r,
                 Some (Answer.answer r)))
      (written_rows now sid qs id l)
  = map (fun a => (sid, questionId a, stored_answer (answer a))) l.
Proof.
  induction l as [|a l IH]; intros id; simpl; [reflexivity|].
  destruct (question_with_id qs (questionId a)); [|discriminate].
  destruct (stored_answer (answer a)); [|discriminate].
  intros H. simpl. now rewrite (IH _ H).
Qed.

(** X5. A successful request persists one Answer row for every entry of the
    submitted list, none left out, in list order; each row carries the id
    of the submission the response returns, the entry's question id and
    the entry's answer as its column keeps it (an answer of one character
    or none as it is, trailing spaces beyond the first character cut). *)
Theorem success_persists_every_entry req st resp st' :
  submit req st = (resp, st') ->
  statusCode resp = 200 ->
  exists l sub new,
    req_answers req = AnArray l /\
    json resp = SubmissionJson (Some sub) /\
    answers st' = answers st ++ new /\
    map (fun r => (Answer.submissionId r, Answer.questionId r,
                   Some (Answer.answer r))) new
    = map (fun a => (Submission.id sub, questionId a,
                     stored_answer (answer a))) l.
Proof.
  intros H H200.
  destruct (submit_ok _ _ _ _ H H200)
    as (user & l & sub & st1 & z & s0 & _ & Ha & Hacq & Hh & _ & _ & Hid &
        -> & ->).
  pose proof (acquire_row _ _ _ _ _ Hacq) as (_ & _ & _ & _ & _ & _ & _ & Hans & _).
  eexists l, _, _. split; [exact Ha|]. split; [reflexivity|].
  cbn [answers complete add_answers]. rewrite Hans.
  split; [reflexivity|].
  rewrite (written_rows_all _ _ _ _ _ Hh).
  apply map_ext. intros a. cbn. now rewrite Hid.
Qed.

Lemma success_persists_every_entry_witness :
  exists l sub new,
    req_answers (request0 padded) = AnArray l /\
    json (fst (submit (request0 padded) store0)) = SubmissionJson (Some sub) /\
    answers (snd (submit (request0 padded) store0)) = answers store0 ++ new /\
    map (fun r => (Answer.submissionId r, Answer.questionId r,
                   Some (Answer.answer r))) new
    = map (fun a => (Submission.id sub, questionId a,
                     stored_answer (answer a))) l.
Proof.
  apply (success_persists_every_entry (request0 padded) store0
           (fst (submit (request0 padded) store0))
           (snd (submit (request0 padded) store0)));
    vm_compute; reflexivity.
Defined.

(** An answer of one character and a trailing space is stored as the
    character alone, and was graded as incorrect. *)
Example padded_answer_stored_cut :
  map (fun r => (Answer.answer r, Answer.isCorrect r))
      (answers (snd (submit (request0 padded) store0)))
  = [(Some "A", Some false); (Some "B", Some true)].
Proof. vm_compute. reflexivity. Qed.

(** ** Updating a submission that is not stored *)



(** ** One submission per exam and student *)

(** The store a request leaves. *)
Lemma submit_store req st :
  snd (submit req st) = st \/
  exists user sub st1 rows,
    acquire (req_now req) (req_examId req) (User.id user)
            (studentSubmission (req_examId req) (User.id user) st) st
    = (sub, st1) /\
    (exists l,
       rows = written_rows (req_now req) (Submission.id sub)
                (exam_questions req st) (currentId_answers st1) l) /\
    (snd (submit req st) = add_answers rows st1 \/
     exists z,
       snd (submit req st)
       = complete (Submission.id sub) (req_now req) z (add_answers rows st1)).
Proof.
  destruct (submit_cases req st)
    as [(rejection & _ & ->)|
        (user & l & sub & st1 & _ & _ & _ & _ & _ & Hacq & Hcase)];
    [left; reflexivity|].
  right. exists user, sub, st1. eexists. split; [exact Hacq|].
  pose proof (acquire_row _ _ _ _ _ Hacq)
    as (_ & _ & _ & _ & _ & _ & _ & _ & Hc & _).
  split; [exists l; rewrite Hc; reflexivity|].
  destruct (halt (exam_questions req st) l);
    try (rewrite Hcase; left; reflexivity).
  destruct (int4 (js_total (Finite 0) (earned (exam_questions req st) l)))
    as [z|]; [|rewrite Hcase; left; reflexivity].
  rewrite Hcase. right. exists z. reflexivity.
Qed.

Lemma acquire_one_submission_per_pair req user st sub st1 :
  acquire (req_now req) (req_examId req) (User.id user)
          (studentSubmission (req_examId req) (User.id user) st) st
  = (sub, st1) ->
  one_submission_per_pair st -> one_submission_per_pair st1.
Proof.
  intros Hacq Hinv. apply acquire_spec in Hacq.
  destruct Hacq as [[_ ->]|(Hnone & Hsub & ->)]; [assumption|].
  intros s1 s2. cbn [submissions insert_submission]. intros Hi1 Hi2 He Hu.
  apply in_app_or in Hi1. apply in_app_or in Hi2. simpl in Hi1, Hi2.
  destruct Hi1 as [Hi1|[<-|[]]]; destruct Hi2 as [Hi2|[<-|[]]].
  - now apply Hinv.
  - exfalso. rewrite Hsub in He, Hu. simpl in He, Hu.
    exact (studentSubmission_None _ _ _ _ Hnone Hi1 He Hu).
  - exfalso. rewrite Hsub in He, Hu. simpl in He, Hu.
    exact (studentSubmission_None _ _ _ _ Hnone Hi2 (eq_sym He) (eq_sym Hu)).
  - reflexivity.
Qed.

Lemma complete_one_submission_per_pair id now z st :
  one_submission_per_pair st -> one_submission_per_pair (complete id now z st).
Proof.
  intros Hinv s1 s2. cbn [submissions complete]. intros Hi1 Hi2 He Hu.
  apply in_map_iff in Hi1. destruct Hi1 as (o1 & <- & Ho1).
  apply in_map_iff in Hi2. destruct Hi2 as (o2 & <- & Ho2).
  assert (o1 = o2) as ->; [|reflexivity].
  apply Hinv; try assumption.
  - destruct (Submission.id o1 =? id), (Submission.id o2 =? id);
      simpl in He; exact He.
  - destruct (Submission.id o1 =? id), (Submission.id o2 =? id);
      simpl in Hu; exact Hu.
Qed.

Lemma submit_keeps_one_submission_per_pair req st :
  one_submission_per_pair st -> one_submission_per_pair (snd (submit req st)).
Proof.
  intros Hinv.
  destruct (submit_store req st)
    as [->|(user & sub & st1 & rows & Hacq & _ & [->|[z ->]])];
    [assumption| |].
  - exact (acquire_one_submission_per_pair _ _ _ _ _ Hacq Hinv).
  - apply complete_one_submission_per_pair.
    exact (acquire_one_submission_per_pair _ _ _ _ _ Hacq Hinv).
Qed.

(** X7. Requests served one at a time keep the invariant of the data
    model: from a store in which a student has at most one submission per
    exam (one without submissions, say), any number of submission
    requests, each served to its end before the next, leads to a store in
    which that still holds. *)
Theorem in_turn_one_submission_per_pair reqs st :
  one_submission_per_pair st -> one_submission_per_pair (in_turn reqs st).
Proof.
  revert st. induction reqs as [|req reqs IH]; intros st Hinv; [exact Hinv|].
  apply (IH (snd (submit req st))).
  now apply submit_keeps_one_submission_per_pair.
Qed.

Lemma in_turn_one_submission_per_pair_witness :
  one_submission_per_pair
    (in_turn [request0 unknown_third; request0 abd; request0 twice] store0).
Proof.
  apply (in_turn_one_submission_per_pair
           [request0 unknown_third; request0 abd; request0 twice] store0).
  intros s1 s2 [].
Defined.

(** X26. Interleaved, the invariant is not kept: two requests of one
    student for one exam that both read the submissions of the exam before
    either inserts one each insert their own, and the store is left with
    two submissions for the pair, one in progress for good and one
    completed; both requests have been answered, one with 400 and one
    with 200. *)
Theorem racing_requests_two_submissions :
  one_submission_per_pair store0 /\
  map (fun s => (Submission.id s, Submission.examId s, Submission.userId s,
                 Submission.status s, Submission.score s))
      (submissions store_raced)
  = [(1, 1, 7, in_progress, None); (2, 1, 7, completed, Some 3)] /\
  ~ one_submission_per_pair store_raced /\
  option_map statusCode (response_of 0 (serving race (idle store0)))
  = Some 400 /\
  option_map statusCode (response_of 1 (serving race (idle store0)))
  = Some 200.
Proof.
  split; [intros s1 s2 []|].
  split; [vm_compute; reflexivity|].
  split; [|split; vm_compute; reflexivity].
  intros Hinv.
  assert (Hs : submissions store_raced
               = [Submission.mk 1 1 7 1000 None None in_progress (Some 1000);
                  Submission.mk 2 1 7 1000 (Some 1000) (Some 3) completed
                                (Some 1000)])
    by (vm_compute; reflexivity).
  specialize (Hinv (Submission.mk 1 1 7 1000 None None in_progress (Some 1000))
                   (Submission.mk 2 1 7 1000 (Some 1000) (Some 3) completed
                                  (Some 1000))).
  rewrite Hs in Hinv.
  discriminate (Hinv (or_introl eq_refl) (or_intror (or_introl eq_refl))
                     eq_refl eq_refl).
Qed.

(** ** Primary keys *)

Lemma written_rows_ids now sid qs l : forall id r,
  In r (written_rows now sid qs id l) ->
  id <= Answer.id r < id + Z.of_nat (length (written_rows now sid qs id l)).
Proof.
  induction l as [|a l IH]; intros id r; simpl; [tauto|].
  destruct (question_with_id qs (questionId a)); [|simpl; tauto].
  destruct (stored_answer (answer a)); [|simpl; tauto].
  cbn [In length]. intros [<-|Hin]; [cbn; lia|].
  apply IH in Hin. lia.
Qed.

Lemma written_rows_NoDup now sid qs l : forall id,
  NoDup (map Answer.id (written_rows now sid qs id l)).
Proof.
  induction l as [|a l IH]; intros id; simpl; [constructor|].
  destruct (question_with_id qs (questionId a)); [|constructor].
  destruct (stored_answer (answer a)); [|constructor].
  cbn [map Answer.id]. constructor; [|apply IH].
  intros Hin. apply in_map_iff in Hin. destruct Hin as (r & Hid & Hr).
  apply written_rows_ids in Hr. lia.
Qed.

Lemma acquire_ahead now examId userId found st sub st1 :
  acquire now examId userId found st = (sub, st1) ->
  sequences_ahead st ->
  NoDup (map Submission.id (submissions st)) ->
  sequences_ahead st1 /\
  NoDup (map Submission.id (submissions st1)) /\
  answers st1 = answers st.
Proof.
  intros H [Hs Ha] Hnd. apply acquire_spec in H.
  destruct H as [[_ ->]|(_ & Hsub & ->)]; [repeat split; assumption|].
  cbn [submissions answers insert_submission]. split; [split|split].
  - intros s Hin. cbn [currentId_submissions insert_submission].
    apply in_app_or in Hin.
    destruct Hin as [Hin|[<-|[]]]; [apply Hs in Hin; lia|].
    rewrite Hsub. simpl. lia.
  - exact Ha.
  - rewrite map_app. simpl.
    apply NoDup_app; [exact Hnd | repeat constructor; intros [] |].
    intros i Hi [<-|[]]. apply in_map_iff in Hi.
    destruct Hi as (s & Hid & Hin). apply Hs in Hin.
    rewrite Hsub in Hid. simpl in Hid. lia.
  - reflexivity.
Qed.

Lemma add_answers_ahead now sid qs l st :
  sequences_ahead st ->
  NoDup (map Answer.id (answers st)) ->
  sequences_ahead
    (add_answers (written_rows now sid qs (currentId_answers st) l) st) /\
  NoDup (map Answer.id
           (answers (add_answers
                       (written_rows now sid qs (currentId_answers st) l) st))).
Proof.
  intros [Hs Ha] Hnd. cbn [answers add_answers]. split; [split|].
  - exact Hs.
  - intros r Hin. cbn [currentId_answers add_answers].
    apply in_app_or in Hin. destruct Hin as [Hin|Hin].
    + apply Ha in Hin. lia.
    + apply written_rows_ids in Hin. lia.
  - rewrite map_app. apply NoDup_app.
    + exact Hnd.
    + apply written_rows_NoDup.
    + intros i Hi Hw. apply in_map_iff in Hi. destruct Hi as (r & <- & Hr).
      apply in_map_iff in Hw. destruct Hw as (w & Hid & Hw).
      apply Ha in Hr. apply written_rows_ids in Hw. lia.
Qed.

Lemma completion_ids now score id l :
  map Submission.id
    (map (fun s => if Submission.id s =? id
                   then Submission.set (completed_columns now score) s
                   else s) l)
  = map Submission.id l.
Proof.
  rewrite map_map. apply map_ext. intros s.
  destruct (Submission.id s =? id); reflexivity.
Qed.

Lemma complete_ahead id now z st :
  sequences_ahead st ->
  NoDup (map Submission.id (submissions st)) ->
  sequences_ahead (complete id now z st) /\
  NoDup (map Submission.id (submissions (complete id now z st))).
Proof.
  intros [Hs Ha] Hnd. cbn [submissions complete].
  rewrite completion_ids. split; [split|exact Hnd].
  - intros s Hin. cbn [submissions complete currentId_submissions] in *.
    apply in_map_iff in Hin. destruct Hin as (o & <- & Ho). apply Hs in Ho.
    destruct (Submission.id o =? id); simpl; exact Ho.
  - exact Ha.
Qed.

(** X8. The serial ids stay primary keys: when the sequences are ahead of
    every stored id and the stored ids are distinct, they still are after a
    submission request, whatever its outcome. *)
Theorem submit_keeps_ids_unique req st :
  sequences_ahead st ->
  NoDup (map Submission.id (submissions st)) ->
  NoDup (map Answer.id (answers st)) ->
  sequences_ahead (snd (submit req st)) /\
  NoDup (map Submission.id (submissions (snd (submit req st)))) /\
  NoDup (map Answer.id (answers (snd (submit req st)))).
Proof.
  intros Hahead Hns Hna.
  destruct (submit_store req st)
    as [->|(user & sub & st1 & rows & Hacq & [l ->] & Hst)]; [auto|].
  destruct (acquire_ahead _ _ _ _ _ _ _ Hacq Hahead Hns)
    as (Hahead1 & Hns1 & Hans1).
  rewrite <- Hans1 in Hna.
  destruct (add_answers_ahead (req_now req) (Submission.id sub)
              (exam_questions req st) l st1 Hahead1 Hna) as [Hahead2 Hna2].
  destruct Hst as [->|[z ->]]; [auto|].
  destruct (complete_ahead (Submission.id sub) (req_now req) z _ Hahead2 Hns1)
    as [Hahead3 Hns3].
  auto.
Qed.

Lemma submit_keeps_ids_unique_witness :
  sequences_ahead (snd (submit (request0 abd) store0)) /\
  NoDup (map Submission.id (submissions (snd (submit (request0 abd) store0)))) /\
  NoDup (map Answer.id (answers (snd (submit (request0 abd) store0)))).
Proof.
  apply (submit_keeps_ids_unique (request0 abd) store0).
  - split; intros x [].
  - constructor.
  - constructor.
Defined.

(** ** The student listing by class *)

Lemma distinct_In l x : In x (distinct l) <-> In x l.
Proof.
  induction l as [|y l IH]; simpl; [tauto|].
  rewrite filter_In, IH.
  destruct (String.eqb_spec y x) as [->|Hne]; simpl.
  - tauto.
  - split; [tauto|]. intros [H|H]; [tauto | right; auto].
Qed.

Lemma distinct_NoDup l : NoDup (distinct l).
Proof.
  induction l as [|y l IH]; simpl; constructor.
  - rewrite filter_In. intros [_ H]. rewrite String.eqb_refl in H.
    discriminate.
  - now apply NoDup_filter.
Qed.

Lemma insert_index_perm {V} i key (v : V) o :
  Permutation (insert_index i key v o) ((key, v) :: o).
Proof.
  induction o as [|[key' v'] o IH]; simpl; [reflexivity|].
  destruct (array_index key') as [j|]; [|reflexivity].
  destruct (j <? i); [|reflexivity].
  rewrite IH. apply perm_swap.
Qed.

Lemma define_property_perm {V} key (v : V) o :
  Permutation (define_property key v o) ((key, v) :: o).
Proof.
  unfold define_property. destruct (array_index key).
  - apply insert_index_perm.
  - apply Permutation_sym, Permutation_cons_append.
Qed.

Lemma has_property_In {V} key (o : list (string * V)) :
  has_property key o = true <-> In key (map fst o).
Proof.
  unfold has_property. rewrite existsb_exists, in_map_iff.
  split; intros (p & H1 & H2).
  - exists p. apply String.eqb_eq in H2. auto.
  - exists p. split; [exact H2 | now apply String.eqb_eq].
Qed.

Lemma replace_keys key (v : list Row) o :
  map fst (map (fun p : string * list Row =>
                  if String.eqb (fst p) key then (key, v) else p) o)
  = map fst o.
Proof.
  rewrite map_map. apply map_ext. intros p.
  destruct (String.eqb_spec (fst p) key) as [->|]; reflexivity.
Qed.

(** The keys after an assignment: those before, and the key assigned
    unless it is [__proto__]. *)
Lemma js_set_keys key v o k :
  In k (map fst (js_set key v o))
  <-> In k (map fst o) \/ (k = key /\ key <> "__proto__").
Proof.
  unfold js_set.
  destruct (String.eqb_spec key "__proto__") as [Hp|Hp]; [tauto|].
  destruct (has_property key o) eqn:Hh.
  - rewrite replace_keys. apply has_property_In in Hh.
    split; [tauto|]. intros [H|[-> _]]; assumption.
  - rewrite (Permutation_in' (eq_refl k)
               (Permutation_map fst (define_property_perm key v o))).
    simpl. split; intros H; intuition (subst; auto).
Qed.

Lemma js_set_NoDup key v o :
  NoDup (map fst o) -> NoDup (map fst (js_set key v o)).
Proof.
  intros Hnd. unfold js_set.
  destruct (String.eqb key "__proto__"); [exact Hnd|].
  destruct (has_property key o) eqn:Hh.
  - now rewrite replace_keys.
  - apply (Permutation_NoDup
             (Permutation_sym
                (Permutation_map fst (define_property_perm key v o)))).
    simpl. constructor; [|exact Hnd].
    intros Hin. apply has_property_In in Hin. congruence.
Qed.

Lemma js_set_In key v o k g :
  In (k, g) (js_set key v o) ->
  In (k, g) o \/ (k = key /\ g = v /\ key <> "__proto__").
Proof.
  unfold js_set.
  destruct (String.eqb_spec key "__proto__") as [Hp|Hp]; [tauto|].
  destruct (has_property key o).
  - intros Hin. apply in_map_iff in Hin. destruct Hin as (p & Hp0 & Hin).
    destruct (String.eqb (fst p) key).
    + injection Hp0 as <- <-. right. auto.
    + subst p. left. exact Hin.
  - intros Hin.
    apply (Permutation_in _ (define_property_perm key v o)) in Hin.
    destruct Hin as [Hin|Hin]; [|left; exact Hin].
    injection Hin as <- <-. right. auto.
Qed.

Lemma studentsOfClasses_store classes st : forall result,
  snd (studentsOfClasses classes result st) = st.
Proof.
  induction classes as [|cls rest IH]; intros result; simpl; [reflexivity|].
  unfold bind. unfold getStudentsByClass at 1, gets. apply IH.
Qed.

(** The object the loop leaves. *)
Lemma studentsOfClasses_groups classes st : forall result,
  (NoDup (map fst result) ->
   NoDup (map fst (fst (studentsOfClasses classes result st)))) /\
  (forall k, In k (map fst (fst (studentsOfClasses classes result st)))
             <-> In k (map fst result) \/ (In k classes /\ k <> "__proto__")) /\
  (forall k g, In (k, g) (fst (studentsOfClasses classes result st)) ->
     In (k, g) result \/
     (In k classes /\ k <> "__proto__" /\
      g = map withoutPassword (fst (getStudentsByClass k st)))).
Proof.
  induction classes as [|cls rest IH]; intros result.
  - simpl. repeat split; try tauto.
  - change (fst (studentsOfClasses (cls :: rest) result st))
      with (fst (studentsOfClasses rest
                   (js_set cls (map withoutPassword
                                  (fst (getStudentsByClass cls st))) result)
                   st)).
    destruct (IH (js_set cls (map withoutPassword
                                (fst (getStudentsByClass cls st))) result))
      as (Hnd & Hkeys & Hin).
    split; [|split].
    + intros H. apply Hnd. now apply js_set_NoDup.
    + intros k. rewrite Hkeys, js_set_keys. simpl.
      split; intros H; intuition (subst; auto).
    + intros k g H. apply Hin in H. simpl.
      destruct H as [H|H]; [|tauto].
      apply js_set_In in H. destruct H as [H|(-> & -> & Hp)]; auto.
Qed.

(** X9. For a teacher, the student listing without a class filter has one
    group per class of some student, no class twice, in whatever order the
    database gives the classes; each group holds exactly the students of
    its class, without their passwords; and every student whose class is
    not called [__proto__] is in the group of that class.  There is never
    a group called [__proto__]. *)
Theorem listStudents_groups arrange user st :
  arranges arrange ->
  is_teacher user = true ->
  exists result,
    fst (listStudents arrange user None st)
    = mkResponse 200 (StudentsByClass result) /\
    NoDup (map fst result) /\
    (forall cls group, In (cls, group) result ->
       cls <> "__proto__" /\
       group = map withoutPassword (fst (getStudentsByClass cls st)) /\
       exists u, In u (users st) /\ User.role u = student /\
                 User.class u = Some cls) /\
    (forall u c, In u (users st) -> User.role u = student ->
       User.class u = Some c -> c <> "__proto__" ->
       exists group, In (c, group) result /\ In (withoutPassword u) group).
Proof.
  intros Harr Ht. unfold listStudents. rewrite Ht. cbn [negb].
  unfold bind. unfold getAllClasses at 1, gets at 1.
  set (classes := arrange (distinct (flat_map class_of_student (users st)))).
  pose proof (studentsOfClasses_store classes st []) as Hst.
  destruct (studentsOfClasses_groups classes st [])
    as (Hnd & Hkeys & Hin).
  destruct (studentsOfClasses classes [] st) as [result st'].
  cbn [fst snd] in *. unfold ret. cbn [fst].
  exists result. split; [reflexivity|].
  assert (Hclasses : forall c, In c classes <->
            exists u, In u (users st) /\ User.role u = student /\
                      User.class u = Some c).
  { intros c. unfold classes.
    rewrite <- (Permutation_in' (eq_refl c) (Harr _)).
    rewrite distinct_In, in_flat_map. split; intros (u & Hu & H); exists u.
    - unfold class_of_student in H.
      destruct (User.role u); [destruct H|].
      destruct (User.class u) as [c'|]; [|destruct H].
      destruct H as [->|[]]. auto.
    - destruct H as (Hr & Hc). split; [exact Hu|].
      unfold class_of_student. rewrite Hr, Hc. left. reflexivity. }
  split; [apply Hnd; constructor|]. split.
  - intros cls group H. apply Hin in H.
    destruct H as [[]|(Hc & Hp & Hg)].
    split; [exact Hp|]. split; [exact Hg|]. now apply Hclasses.
  - intros u c Hu Hrole Hclass Hp.
    assert (Hk : In c (map fst result)).
    { apply Hkeys. right. split; [|exact Hp]. apply Hclasses. eauto. }
    apply in_map_iff in Hk. destruct Hk as ([c' group] & Hc' & Hk).
    simpl in Hc'. subst c'. exists group. split; [exact Hk|].
    apply Hin in Hk. destruct Hk as [[]|(_ & _ & ->)].
    apply in_map. unfold getStudentsByClass, gets. simpl.
    apply filter_In. split; [exact Hu|].
    rewrite Hrole, Hclass. simpl. apply String.eqb_refl.
Qed.

Lemma listStudents_groups_witness :
  exists result,
    fst (listStudents reversed (Some (master "pw1")) None
           (school "pw1" "secret"))
    = mkResponse 200 (StudentsByClass result) /\
    NoDup (map fst result) /\
    (forall cls group, In (cls, group) result ->
       cls <> "__proto__" /\
       group = map withoutPassword
                 (fst (getStudentsByClass cls (school "pw1" "secret"))) /\
       exists u, In u (users (school "pw1" "secret")) /\
                 User.role u = student /\ User.class u = Some cls) /\
    (forall u c, In u (users (school "pw1" "secret")) ->
       User.role u = student -> User.class u = Some c -> c <> "__proto__" ->
       exists group, In (c, group) result /\ In (withoutPassword u) group).
Proof.
  apply (listStudents_groups reversed (Some (master "pw1"))
           (school "pw1" "secret")).
  - intros l. apply Permutation_rev.
  - reflexivity.
Defined.

(** The pupil of the class called [__proto__] is in no group of the
    listing, and classes whose names are array indices come first, in
    ascending order, wherever the database placed them. *)
Example proto_class_has_no_group :
  option_map (fun r => map (fun p => (fst p, length (snd p)))
                           match json r with
                           | StudentsByClass result => result
                           | _ => []
                           end)
             (Some (fst (listStudents (fun l => l) (Some (master "pw1")) None
                           proto_school)))
  = Some [("10A", 1%nat)] /\
  map fst (js_set "9" [] (js_set "10" [] (js_set "10A" [] [])))
  = ["9"; "10"; "10A"].
Proof. split; vm_compute; reflexivity. Qed.

(** ** Who may read what *)

(** X10. A student is only ever sent exams of their own class: every exam
    of the exam listing has the class the listing was asked for, and the
    exam sent by [GET /api/exams/:id], as the exam whose questions
    [GET /api/exams/:examId/questions] sends, is the stored exam with that
    id and has the student's class. *)
Theorem student_reads_own_class user examId st :
  User.role user = student ->
  (forall listed e,
     fst (listExams (Some user) st) = Sent 200 listed -> In e listed ->
     In e (exams st) /\ Exam.class e = class_or_empty user) /\
  (forall e,
     fst (readExam (Some user) examId st) = Sent 200 e ->
     fst (getExam examId st) = Some e /\
     User.class user = Some (Exam.class e)) /\
  (forall sent,
     fst (readQuestions (Some user) examId st) = Sent 200 sent ->
     exists e,
       fst (getExam examId st) = Some e /\
       User.class user = Some (Exam.class e) /\
       sent = fst (getQuestionsByExam examId st)).
Proof.
  intros Hrole. split; [|split].
  - intros listed e. unfold listExams, bind. rewrite Hrole.
    cbn [Role_eqb]. unfold getExamsForClass, gets, ret. cbn [fst].
    intros H Hin. injection H as <-. apply filter_In in Hin.
    destruct Hin as [Hin Hc]. apply String.eqb_eq in Hc. auto.
  - intros e. unfold readExam, bind, getExam, gets. cbn [fst].
    destruct (find (fun e0 => Exam.id e0 =? examId) (exams st)) as [exam|];
      [|discriminate].
    unfold other_class. rewrite Hrole. cbn [Role_eqb andb].
    destruct (nullable_eqb (Some (Exam.class exam)) (User.class user)) eqn:Hc;
      cbn [negb]; [|discriminate].
    unfold ret. cbn [fst]. intros H. injection H as <-.
    apply nullable_eqb_Some in Hc. auto.
  - intros sent. unfold readQuestions, bind, getExam, gets. cbn [fst].
    destruct (find (fun e0 => Exam.id e0 =? examId) (exams st)) as [exam|];
      [|discriminate].
    unfold other_class. rewrite Hrole. cbn [Role_eqb andb].
    destruct (nullable_eqb (Some (Exam.class exam)) (User.class user)) eqn:Hc;
      cbn [negb]; [|discriminate].
    unfold getQuestionsByExam, gets, ret. cbn [fst].
    intros H. injection H as <-. exists exam.
    apply nullable_eqb_Some in Hc. auto.
Qed.

Lemma student_reads_own_class_witness :
  (forall listed e,
     fst (listExams (Some (pupil 7 "secret")) store0) = Sent 200 listed ->
     In e listed ->
     In e (exams store0) /\ Exam.class e = class_or_empty (pupil 7 "secret")) /\
  (forall e,
     fst (readExam (Some (pupil 7 "secret")) 1 store0) = Sent 200 e ->
     fst (getExam 1 store0) = Some e /\
     User.class (pupil 7 "secret") = Some (Exam.class e)) /\
  (forall sent,
     fst (readQuestions (Some (pupil 7 "secret")) 1 store0) = Sent 200 sent ->
     exists e,
       fst (getExam 1 store0) = Some e /\
       User.class (pupil 7 "secret") = Some (Exam.class e) /\
       sent = fst (getQuestionsByExam 1 store0)).
Proof.
  apply (student_reads_own_class (pupil 7 "secret") 1 store0).
  reflexivity.
Defined.

Lemma find_exam_unique l e :
  NoDup (map Exam.id l) -> In e l ->
  find (fun x => Exam.id x =? Exam.id e) l = Some e.
Proof.
  induction l as [|y l IH]; simpl; [tauto|].
  intros Hnd Hin. inversion Hnd as [|? ? Hnotin Hnd']; subst.
  destruct (Z.eqb_spec (Exam.id y) (Exam.id e)) as [Heq|Hne].
  - destruct Hin as [->|Hin]; [reflexivity|].
    exfalso. apply Hnotin. rewrite Heq. now apply in_map.
  - destruct Hin as [->|Hin]; [congruence | auto].
Qed.

(** X11. With distinct exam ids, every exam the exam listing sends to a
    teacher, or to a student who has a class, is served to that caller by
    [GET /api/exams/:id]; the case left out is real: a student whose class
    is null is listed the exams of class "" and refused each of them. *)
Theorem listed_exam_can_be_read user st listed e :
  NoDup (map Exam.id (exams st)) ->
  User.role user = teacher \/ User.class user <> None ->
  fst (listExams (Some user) st) = Sent 200 listed ->
  In e listed ->
  readExam (Some user) (Exam.id e) st = (Sent 200 e, st).
Proof.
  intros Hnd Hwho. unfold listExams, readExam, bind, getExam, gets.
  unfold getExamsForTeacher, getExamsForClass, gets, ret, other_class.
  cbn [fst].
  destruct (User.role user) eqn:Hrole; cbn [Role_eqb andb];
    intros H Hin; injection H as <-; apply filter_In in Hin;
    destruct Hin as [Hin Hc]; rewrite (find_exam_unique _ _ Hnd Hin).
  - reflexivity.
  - destruct Hwho as [|Hclass]; [discriminate|].
    apply String.eqb_eq in Hc. unfold class_or_empty in Hc.
    destruct (User.class user) as [[|c r]|]; [| |congruence];
      rewrite Hc; cbn [nullable_eqb]; rewrite String.eqb_refl; reflexivity.
Qed.

Lemma listed_exam_can_be_read_witness :
  readExam (Some (pupil 7 "secret")) (Exam.id exam1) store0
  = (Sent 200 exam1, store0).
Proof.
  apply (listed_exam_can_be_read (pupil 7 "secret") store0 [exam1] exam1).
  - repeat constructor. intros [].
  - right. discriminate.
  - reflexivity.
  - left. reflexivity.
Defined.

(** The left-out case of X11: a student without class. *)
Example classless_student_is_refused_listed_exam :
  let nobody :=
    User.mk 8 None "Chi" "chi" "pw" None student None None in
  let open_exam :=
    Exam.mk 2 "Open" "physics" "" None 0 10 5 active 9 None in
  let st := mkStore [nobody] [open_exam] [] [] [] 1 1 in
  fst (listExams (Some nobody) st) = Sent 200 [open_exam] /\
  fst (readExam (Some nobody) 2 st) = Refused 403 "Access denied".
Proof. split; reflexivity. Qed.

Lemma withQuestions_eq rows st :
  withQuestions rows st
  = (map (fun r => (r, fst (getQuestion (Answer.questionId r) st))) rows, st).
Proof.
  induction rows as [|r rest IH]; simpl; [reflexivity|].
  unfold bind. unfold getQuestion at 1, gets at 1. rewrite IH. reflexivity.
Qed.

(** X12. The answers of a submission are sent only to the student the
    submission belongs to or to the teacher who created its exam; what is
    sent is exactly the stored Answer rows of that submission, in order,
    each with the question it refers to. *)
Theorem readAnswers_guard user submissionId st result :
  fst (readAnswers (Some user) submissionId st) = Sent 200 result ->
  exists submission,
    fst (getSubmission submissionId st) = Some submission /\
    (User.role user = student ->
     Submission.userId submission = User.id user) /\
    (User.role user = teacher ->
     exists exam,
       fst (getExam (Submission.examId submission) st) = Some exam /\
       Exam.createdById exam = User.id user) /\
    result
    = map (fun r => (r, fst (getQuestion (Answer.questionId r) st)))
          (fst (getAnswersBySubmission submissionId st)).
Proof.
  unfold readAnswers, bind. unfold getSubmission at 1, gets at 1.
  cbv beta iota.
  destruct (find (fun s => Submission.id s =? submissionId) (submissions st))
    as [submission|] eqn:Hf; [|discriminate].
  destruct (User.role user) eqn:Hrole; cbn [Role_eqb andb].
  - (* teacher *)
    unfold getExam at 1, gets at 1. cbv beta iota. unfold ret at 1.
    destruct (find (fun e => Exam.id e =? Submission.examId submission)
                   (exams st)) as [exam|] eqn:He; [|discriminate].
    destruct (Z.eqb_spec (Exam.createdById exam) (User.id user)) as [Hown|];
      cbn [negb]; [|discriminate].
    unfold getAnswersBySubmission at 1, gets at 1. cbv beta iota.
    rewrite withQuestions_eq. unfold ret. cbn [fst].
    intros H. injection H as <-. exists submission.
    unfold getSubmission, getExam, gets. cbn [fst].
    repeat split; try assumption; [discriminate|]. intros _. eauto.
  - (* student *)
    destruct (Z.eqb_spec (Submission.userId submission) (User.id user))
      as [Hown|]; cbn [negb]; [|discriminate].
    unfold ret at 1. cbn [negb].
    unfold getAnswersBySubmission at 1, gets at 1. cbv beta iota.
    rewrite withQuestions_eq. unfold ret. cbn [fst].
    intros H. injection H as <-. exists submission.
    unfold getSubmission, gets. cbn [fst].
    repeat split; try assumption; try discriminate. auto.
Qed.

Lemma readAnswers_guard_witness :
  exists submission,
    fst (getSubmission 1 store_completed) = Some submission /\
    (User.role (pupil 7 "secret") = student ->
     Submission.userId submission = User.id (pupil 7 "secret")) /\
    (User.role (pupil 7 "secret") = teacher ->
     exists exam,
       fst (getExam (Submission.examId submission) store_completed)
       = Some exam /\
       Exam.createdById exam = User.id (pupil 7 "secret")) /\
    map (fun r => (r, fst (getQuestion (Answer.questionId r) store_completed)))
        (answers store_completed)
    = map (fun r => (r, fst (getQuestion (Answer.questionId r)
                               store_completed)))
          (fst (getAnswersBySubmission 1 store_completed)).
Proof.
  apply (readAnswers_guard (pupil 7 "secret") 1 store_completed
           (map (fun r => (r, fst (getQuestion (Answer.questionId r)
                                     store_completed)))
                (answers store_completed))).
  vm_compute. reflexivity.
Defined.

(** ** Reading back what was submitted *)

Lemma find_submission_unique l s :
  NoDup (map Submission.id l) -> In s l ->
  find (fun x => Submission.id x =? Submission.id s) l = Some s.
Proof.
  induction l as [|y l IH]; simpl; [tauto|].
  intros Hnd Hin. inversion Hnd as [|? ? Hnotin Hnd']; subst.
  destruct (Z.eqb_spec (Submission.id y) (Submission.id s)) as [Heq|Hne].
  - destruct Hin as [->|Hin]; [reflexivity|].
    exfalso. apply Hnotin. rewrite Heq. now apply in_map.
  - destruct Hin as [->|Hin]; [congruence | auto].
Qed.

Lemma find_completed now score l s :
  NoDup (map Submission.id l) -> In s l ->
  find (fun x => Submission.id x =? Submission.id s)
       (map (fun x => if Submission.id x =? Submission.id s
                      then Submission.set (completed_columns now score) x
                      else x) l)
  = Some (Submission.set (completed_columns now score) s).
Proof.
  intros Hnd Hin.
  pose proof (find_submission_unique
                (map (fun x => if Submission.id x =? Submission.id s
                               then Submission.set
                                      (completed_columns now score) x
                               else x) l)
                (Submission.set (completed_columns now score) s)) as H.
  simpl in H. apply H.
  - now rewrite completion_ids.
  - apply in_map_iff. exists s. rewrite Z.eqb_refl. auto.
Qed.

(** A student reading the answers of a submission of their own. *)
Lemma readAnswers_own user sid st s :
  User.role user = student ->
  fst (getSubmission sid st) = Some s ->
  Submission.userId s = User.id user ->
  fst (readAnswers (Some user) sid st)
  = Sent 200 (map (fun r => (r, fst (getQuestion (Answer.questionId r) st)))
                  (answers_of sid st)).
Proof.
  intros Hrole Hs Hu. unfold readAnswers, bind.
  unfold getSubmission, gets in *. cbn [fst] in Hs. cbv beta iota.
  rewrite Hs, Hrole, Hu, Z.eqb_refl. cbn [Role_eqb andb negb].
  unfold ret at 1. cbn [negb].
  unfold getAnswersBySubmission at 1, gets at 1. cbv beta iota.
  rewrite withQuestions_eq. reflexivity.
Qed.

Lemma submit_ok_role req st resp st' user :
  submit req st = (resp, st') ->
  statusCode resp = 200 ->
  req_user req = Some user ->
  User.role user = student.
Proof.
  intros H H200 Hu.
  destruct (submit_cases req st)
    as [(rejection & Hadm & Hsub)|
        (user' & l & sub & st1 & Hu' & Hrole & _)].
  - rewrite Hsub in H. injection H as <- <-.
    apply admission_rejects in Hadm. unfold is_client_error in Hadm. lia.
  - congruence.
Qed.

(** X13. What a student submits can be read back: after a successful
    request (in a store whose submission ids are distinct and behind the
    sequence), [GET /api/submissions/:id/answers] with the id of the
    returned submission serves the student the rows that submission had
    before, followed by one row per submitted entry with the entry's
    question id and the entry's answer as its column keeps it. *)
Theorem submitted_answers_read_back req st resp st' user :
  sequences_ahead st ->
  NoDup (map Submission.id (submissions st)) ->
  submit req st = (resp, st') ->
  statusCode resp = 200 ->
  req_user req = Some user ->
  exists l sub result,
    req_answers req = AnArray l /\
    json resp = SubmissionJson (Some sub) /\
    fst (readAnswers (Some user) (Submission.id sub) st') = Sent 200 result /\
    map (fun x => (Answer.questionId (fst x), Some (Answer.answer (fst x))))
        result
    = map (fun r => (Answer.questionId r, Some (Answer.answer r)))
          (answers_of (Submission.id sub) st)
      ++ map (fun a => (questionId a, stored_answer (answer a))) l.
Proof.
  intros Hahead Hnd H H200 Hu.
  pose proof (submit_ok_role _ _ _ _ _ H H200 Hu) as Hrole.
  destruct (submit_ok _ _ _ _ H H200)
    as (user' & l & sub & st1 & z & s0 & Hu' & Ha & Hacq & Hh & _ & Hin0 &
        Hid0 & -> & ->).
  rewrite Hu in Hu'. injection Hu' as <-.
  pose proof (acquire_row _ _ _ _ _ Hacq)
    as (Hin & _ & Huid & _ & _ & _ & _ & Hans & _).
  destruct (acquire_ahead _ _ _ _ _ _ _ Hacq Hahead Hnd) as (_ & Hnd1 & _).
  assert (s0 = sub) as ->.
  { pose proof (find_submission_unique _ _ Hnd1 Hin) as F1.
    pose proof (find_submission_unique _ _ Hnd1 Hin0) as F2.
    rewrite Hid0 in F2. congruence. }
  eexists l, _, _. split; [exact Ha|]. split; [reflexivity|].
  cbn [Submission.id Submission.set].
  split.
  - apply (readAnswers_own user _ _
             (Submission.set (completed_columns (req_now req) z) sub));
      [exact Hrole | | exact Huid].
    unfold getSubmission, gets. cbn [fst submissions complete add_answers].
    now apply find_completed.
  - rewrite map_map. cbn [fst]. unfold answers_of.
    cbn [answers complete add_answers].
    rewrite Hans, filter_app, map_app. f_equal.
    rewrite filter_all.
    2:{ intros r Hr. apply written_rows_submission in Hr.
        apply Z.eqb_eq. rewrite Hr. reflexivity. }
    pose proof (written_rows_all (req_now req) (Submission.id sub)
                  (exam_questions req st) l (currentId_answers st) Hh) as Hw.
    apply (f_equal (map (fun t : Z * Z * option (option string) =>
                           (snd (fst t), snd t)))) in Hw.
    rewrite !map_map in Hw. exact Hw.
Qed.

Lemma submitted_answers_read_back_witness :
  exists l sub result,
    req_answers (request0 abd) = AnArray l /\
    json (fst (submit (request0 abd) store0)) = SubmissionJson (Some sub) /\
    fst (readAnswers (Some (pupil 7 "secret")) (Submission.id sub)
           store_completed) = Sent 200 result /\
    map (fun x => (Answer.questionId (fst x), Some (Answer.answer (fst x))))
        result
    = map (fun r => (Answer.questionId r, Some (Answer.answer r)))
          (answers_of (Submission.id sub) store0)
      ++ map (fun a => (questionId a, stored_answer (answer a))) l.
Proof.
  apply (submitted_answers_read_back (request0 abd) store0
           (fst (submit (request0 abd) store0)) store_completed
           (pupil 7 "secret")).
  - split; intros x [].
  - constructor.
  - vm_compute. reflexivity.
  - vm_compute. reflexivity.
  - reflexivity.
Defined.

Module SheetFacts.
Import AnswerSheet.

Lemma get_assign k v o :
  get k (assign k v o) = Some v.
Proof.
  unfold get. induction o as [|[k' v'] o IH]; simpl.
  - now rewrite Z.eqb_refl.
  - destruct (Z.eqb_spec k k') as [->|Hne]; simpl.
    + now rewrite Z.eqb_refl.
    + destruct (Z.ltb_spec k k'); simpl.
      * now rewrite Z.eqb_refl.
      * destruct (Z.eqb_spec k' k); [congruence | exact IH].
Qed.

Lemma get_assign_other k v o j :
  j <> k -> get j (assign k v o) = get j o.
Proof.
  intros Hj. unfold get. induction o as [|[k' v'] o IH]; simpl.
  - destruct (Z.eqb_spec k j); [congruence | reflexivity].
  - destruct (Z.eqb_spec k k') as [->|Hne]; simpl.
    + destruct (Z.eqb_spec k' j); [congruence | reflexivity].
    + destruct (Z.ltb_spec k k'); simpl.
      * destruct (Z.eqb_spec k j); [congruence | reflexivity].
      * destruct (Z.eqb_spec k' j); [reflexivity | exact IH].
Qed.

Lemma has_get k o : has k o = true <-> get k o <> None.
Proof.
  unfold has, get. induction o as [|[k' v'] o IH]; simpl.
  - split; [discriminate | congruence].
  - destruct (k' =? k); simpl; [split; [discriminate | reflexivity] | exact IH].
Qed.

(** X14. Choosing an answer records it for the question shown and for no
    other: afterwards the shown question counts as answered, its recorded
    answer is the chosen one, the answer recorded for every other question
    id is as before, and nothing else on the page changes. *)
Theorem select_records_answer answer st st' qs question :
  questions st = Some qs ->
  at_index qs (currentQuestionIndex st) = Some question ->
  handleAnswerSelect answer st = Some st' ->
  isCurrentQuestionAnswered st' = true /\
  get (Question.id question) (userAnswers st') = Some answer /\
  (forall k, k <> Question.id question ->
             get k (userAnswers st') = get k (userAnswers st)) /\
  questions st' = questions st /\
  currentQuestionIndex st' = currentQuestionIndex st /\
  flaggedQuestions st' = flaggedQuestions st /\
  mutations st' = mutations st.
Proof.
  intros Hq Hat. unfold handleAnswerSelect. rewrite Hq, Hat.
  intros H. injection H as <-.
  unfold isCurrentQuestionAnswered. cbn. rewrite ?Hq, ?Hat.
  split; [|split; [|split]].
  - apply has_get. rewrite get_assign. discriminate.
  - apply get_assign.
  - intros k Hk. now apply get_assign_other.
  - auto.
Qed.

Lemma select_records_answer_witness :
  isCurrentQuestionAnswered first_answered = true /\
  get (Question.id (sampleQuestion 1 "A" 1)) (userAnswers first_answered)
  = Some "C" /\
  (forall k, k <> Question.id (sampleQuestion 1 "A" 1) ->
             get k (userAnswers first_answered)
             = get k (userAnswers (loaded two_questions))) /\
  questions first_answered = questions (loaded two_questions) /\
  currentQuestionIndex first_answered
  = currentQuestionIndex (loaded two_questions) /\
  flaggedQuestions first_answered = flaggedQuestions (loaded two_questions) /\
  mutations first_answered = mutations (loaded two_questions).
Proof.
  apply (select_records_answer "C" (loaded two_questions) first_answered
           two_questions (sampleQuestion 1 "A" 1)); reflexivity.
Defined.

Lemma assign_assign k a b o :
  assign k b (assign k a o) = assign k b o.
Proof.
  induction o as [|[k' v'] o IH]; simpl.
  - now rewrite Z.eqb_refl.
  - destruct (Z.eqb_spec k k') as [->|Hne]; simpl.
    + now rewrite Z.eqb_refl.
    + destruct (Z.ltb_spec k k') as [Hlt|Hge]; simpl.
      * now rewrite Z.eqb_refl.
      * destruct (Z.eqb_spec k k'); [congruence|].
        destruct (Z.ltb_spec k k'); [lia|]. now rewrite IH.
Qed.

(** X15. The last choice wins: choosing an answer and then another for the
    question shown leaves the page exactly as choosing the second one
    alone; in particular choosing the same answer twice is choosing it
    once. *)
Theorem select_last_wins a b st :
  match handleAnswerSelect a st with
  | Some st1 => handleAnswerSelect b st1
  | None => None
  end = handleAnswerSelect b st.
Proof.
  unfold handleAnswerSelect.
  destruct (questions st) as [qs|] eqn:Hq; [|now rewrite Hq].
  destruct (at_index qs (currentQuestionIndex st)) as [question|] eqn:Hat;
    [|reflexivity].
  cbn. rewrite ?Hq, ?Hat. now rewrite assign_assign.
Qed.

Lemma includes_filter i j l :
  includes j (filter (fun x => negb (x =? i)) l)
  = if j =? i then false else includes j l.
Proof.
  unfold includes. induction l as [|x l IH]; simpl.
  - now destruct (j =? i).
  - destruct (Z.eqb_spec x i) as [->|Hx]; simpl.
    + rewrite IH. destruct (Z.eqb_spec j i) as [->|Hj].
      * reflexivity.
      * destruct (Z.eqb_spec i j); [congruence | reflexivity].
    + rewrite IH. destruct (Z.eqb_spec j i) as [->|Hj].
      * destruct (Z.eqb_spec x i); [congruence | reflexivity].
      * reflexivity.
Qed.

Lemma includes_app i l1 l2 :
  includes i (l1 ++ l2) = includes i l1 || includes i l2.
Proof. unfold includes. apply existsb_app. Qed.

(** X16. Toggling the flag flips the flag of the question shown and of no
    other: an index is flagged afterwards exactly when it was flagged
    before, except the shown index, whose flag is inverted.  Toggling
    twice therefore restores every flag. *)
Theorem toggle_flips_current st j :
  includes j (flaggedQuestions (handleToggleFlag st))
  = if j =? currentQuestionIndex st
    then negb (includes j (flaggedQuestions st))
    else includes j (flaggedQuestions st).
Proof.
  unfold handleToggleFlag, isCurrentQuestionFlagged. cbn [flaggedQuestions].
  destruct (includes (currentQuestionIndex st) (flaggedQuestions st)) eqn:Hf.
  - rewrite includes_filter.
    destruct (Z.eqb_spec j (currentQuestionIndex st)) as [->|];
      [now rewrite Hf | reflexivity].
  - rewrite includes_app. unfold includes at 2. simpl.
    rewrite orb_false_r.
    destruct (Z.eqb_spec j (currentQuestionIndex st)) as [->|Hj].
    + rewrite Hf, Z.eqb_refl. reflexivity.
    + destruct (Z.eqb_spec (currentQuestionIndex st) j); [congruence|].
      apply orb_false_r.
Qed.

Lemma assign_keys k v o j :
  In j (map fst (assign k v o)) <-> j = k \/ In j (map fst o).
Proof.
  induction o as [|[k' v'] o IH]; simpl.
  - intuition.
  - destruct (Z.eqb_spec k k') as [->|Hne]; simpl; [intuition|].
    destruct (Z.ltb_spec k k'); simpl; [intuition|].
    rewrite IH. intuition.
Qed.

Lemma assign_ascending k v o :
  ascending (map fst o) -> ascending (map fst (assign k v o)).
Proof.
  induction o as [|[k' v'] o IH]; simpl.
  - intros _. split; [intros y []|exact I].
  - intros [Hlt Hasc].
    destruct (Z.eqb_spec k k') as [->|Hne]; simpl; [auto|].
    destruct (Z.ltb_spec k k') as [Hk|Hk]; simpl.
    + split; [|auto]. intros y [<-|Hy]; [exact Hk|].
      apply Hlt in Hy. lia.
    + split; [|auto]. intros y Hy. apply assign_keys in Hy.
      destruct Hy as [->|Hy]; [lia | auto].
Qed.

Lemma ascending_NoDup l : ascending l -> NoDup l.
Proof.
  induction l as [|x l IH]; simpl; [constructor|].
  intros [Hlt Hasc]. constructor; [|auto].
  intros Hin. apply Hlt in Hin. lia.
Qed.

Lemma has_In k o : has k o = true <-> In k (map fst o).
Proof.
  unfold has. rewrite existsb_exists, in_map_iff. split.
  - intros (e & He & Hk). exists e. split; [lia | exact He].
  - intros (e & Hk & He). exists e. split; [exact He | lia].
Qed.

Lemma at_index_In qs i question :
  at_index qs i = Some question -> In question qs.
Proof.
  unfold at_index. destruct (i <? 0); [discriminate|]. apply nth_error_In.
Qed.

Lemma at_index_defined qs i :
  qs <> [] -> 0 <= i -> i < Z.of_nat (length qs) \/ i = 0 ->
  at_index qs i <> None.
Proof.
  intros Hne H0 Hi. unfold at_index.
  destruct (Z.ltb_spec i 0); [lia|].
  apply nth_error_Some. destruct qs; [congruence|]. simpl in *. lia.
Qed.

Lemma formattedAnswers_ok qs st :
  questions st = Some qs -> answers_ok st -> batch_ok qs (formattedAnswers st).
Proof.
  intros Hq [Hasc Hkeys]. unfold batch_ok, formattedAnswers. split.
  - rewrite map_map. simpl. now apply ascending_NoDup.
  - intros a Ha. apply in_map_iff in Ha. destruct Ha as (e & <- & He).
    simpl. split; [|discriminate].
    apply (Hkeys qs _ Hq). now apply in_map.
Qed.

Lemma loaded_kept qs : kept_by_events qs (loaded qs).
Proof.
  unfold kept_by_events, loaded, index_ok, answers_ok. cbn.
  split; [reflexivity|]. split; [lia|]. split; [|intros batch []].
  split; [exact I|]. intros qs' k _ [].
Qed.

(** A state that keeps the questions, the answers and the batches of a
    well-kept state, with an index within the questions, is well kept. *)
Lemma kept_but_index qs st st' :
  kept_by_events qs st ->
  questions st' = questions st ->
  userAnswers st' = userAnswers st ->
  mutations st' = mutations st ->
  0 <= currentQuestionIndex st' /\
  (currentQuestionIndex st' < Z.of_nat (length qs) \/
   currentQuestionIndex st' = 0) ->
  kept_by_events qs st'.
Proof.
  intros (Hq & Hi & Ha & Hb) Hq' Ha' Hm' Hidx.
  unfold kept_by_events, index_ok, answers_ok in *.
  rewrite Hq', Ha', Hm', Hq in *. auto.
Qed.

Lemma submitExam_kept qs st :
  kept_by_events qs st -> kept_by_events qs (submitExam st).
Proof.
  intros (Hq & Hi & Ha & Hb).
  pose proof (formattedAnswers_ok qs st Hq Ha) as Hnew.
  unfold submitExam. rewrite Hq.
  unfold kept_by_events, index_ok, answers_ok in *. cbn.
  rewrite Hq in Hi.
  split; [reflexivity|]. split; [exact Hi|]. split.
  - split; [apply Ha|]. intros qs' k H. injection H as <-.
    now apply (proj2 Ha qs).
  - intros batch Hin. apply in_app_or in Hin.
    destruct Hin as [Hin|[<-|[]]]; [auto | exact Hnew].
Qed.

Ltac same_field := first [reflexivity | cbn; congruence].

Lemma handle_kept qs ev st st' :
  kept_by_events qs st -> handle ev st = Some st' -> kept_by_events qs st'.
Proof.
  intros Hk. pose proof Hk as (Hq & Hi & Ha & Hb).
  unfold index_ok in Hi. rewrite Hq in Hi.
  destruct ev as [answer| | |index| | |]; simpl.
  - unfold handleAnswerSelect. rewrite Hq.
    destruct (at_index qs (currentQuestionIndex st)) as [question|] eqn:Hat;
      [|discriminate].
    intros H. injection H as <-.
    unfold kept_by_events, index_ok, answers_ok. cbn.
    split; [reflexivity|]. split; [exact Hi|]. split; [|exact Hb].
    destruct Ha as [Hasc Hkeys]. split.
    + now apply assign_ascending.
    + intros qs' k Hqs' Hin. injection Hqs' as <-.
      apply assign_keys in Hin. destruct Hin as [->|Hin].
      * apply in_map. now apply at_index_In in Hat.
      * now apply (Hkeys qs).
  - intros H. injection H as <-. unfold handleNextQuestion. rewrite Hq.
    destruct (Z.ltb_spec (currentQuestionIndex st) (Z.of_nat (length qs) - 1));
      [|exact Hk].
    apply (kept_but_index qs st);
      [exact Hk | same_field | same_field | same_field | cbn; lia].
  - intros H. injection H as <-. unfold handlePrevQuestion.
    destruct (Z.gtb_spec (currentQuestionIndex st) 0); [|exact Hk].
    apply (kept_but_index qs st);
      [exact Hk | same_field | same_field | same_field | cbn; lia].
  - intros H. injection H as <-. unfold handleGoToQuestion. rewrite Hq.
    destruct (Z.geb_spec index 0); cbn [andb]; [|exact Hk].
    destruct (Z.ltb_spec index (Z.of_nat (length qs))); [|exact Hk].
    apply (kept_but_index qs st);
      [exact Hk | same_field | same_field | same_field | cbn; lia].
  - intros H. injection H as <-.
    apply (kept_but_index qs st);
      [exact Hk | same_field | same_field | same_field | exact Hi].
  - intros H. injection H as <-. unfold handleSubmitExam. rewrite Hq.
    destruct (length (userAnswers st) <? length qs)%nat.
    + apply (kept_but_index qs st);
        [exact Hk | same_field | same_field | same_field | exact Hi].
    + now apply submitExam_kept.
  - intros H. injection H as <-. now apply submitExam_kept.
Qed.

Lemma session_kept qs evs : forall st st',
  kept_by_events qs st -> session evs st = Some st' -> kept_by_events qs st'.
Proof.
  induction evs as [|ev evs IH]; intros st st' Hk; simpl.
  - intros H. injection H as <-. exact Hk.
  - destruct (handle ev st) as [st1|] eqn:Hh; [|discriminate].
    apply IH. exact (handle_kept _ _ _ _ Hk Hh).
Qed.

(** X17. Whatever the student does on the page, every batch the page hands
    to the submit mutation names no question twice, names only questions
    the page fetched, and carries an answer for each. *)
Theorem session_batches_ok qs evs st batch :
  session evs (loaded qs) = Some st ->
  In batch (mutations st) ->
  batch_ok qs batch.
Proof.
  intros Hs. pose proof (session_kept _ _ _ _ (loaded_kept qs) Hs) as Hk.
  apply Hk.
Qed.

Lemma session_batches_ok_witness :
  batch_ok [sampleQuestion 1 "A" 1; sampleQuestion 2 "B" 2]
           [mkAnswerData 1 (Some "D"); mkAnswerData 2 (Some "B")].
Proof.
  apply (session_batches_ok
           [sampleQuestion 1 "A" 1; sampleQuestion 2 "B" 2]
           [Next; Select "B"; Prev; Select "C"; Select "D"; Submit]
           (mk (Some [sampleQuestion 1 "A" 1; sampleQuestion 2 "B" 2]) 0
               [(1, "D"); (2, "B")] [] false submitting
               [[mkAnswerData 1 (Some "D"); mkAnswerData 2 (Some "B")]])).
  - vm_compute. reflexivity.
  - left. reflexivity.
Defined.

(** X18. With at least one question fetched, no sequence of events makes
    [handleAnswerSelect] read the id of a missing question: the shown
    index always has a question, so a session never throws. *)
Theorem session_never_throws qs evs :
  qs <> [] -> session evs (loaded qs) <> None.
Proof.
  intros Hne. pose proof (loaded_kept qs) as Hk. revert Hk.
  generalize (loaded qs). induction evs as [|ev evs IH]; intros st Hk; simpl.
  - discriminate.
  - destruct (handle ev st) as [st1|] eqn:Hh.
    + apply IH. exact (handle_kept _ _ _ _ Hk Hh).
    + exfalso. destruct ev; simpl in Hh; try discriminate.
      destruct Hk as (Hq & Hi & _). unfold index_ok in Hi. rewrite Hq in Hi.
      unfold handleAnswerSelect in Hh. rewrite Hq in Hh.
      destruct (at_index qs (currentQuestionIndex st)) eqn:Hat;
        [discriminate|].
      revert Hat. apply at_index_defined; tauto.
Qed.

Lemma session_never_throws_witness :
  session [GoTo 7; Next; Next; Next; Select "A"; Prev; Prev; Prev; Select "B"]
          (loaded [sampleQuestion 1 "A" 1; sampleQuestion 2 "B" 2]) <> None.
Proof.
  apply (session_never_throws
           [sampleQuestion 1 "A" 1; sampleQuestion 2 "B" 2]).
  discriminate.
Defined.

(** Without questions the first choice of an answer does throw. *)
Example select_without_question_throws :
  session [Select "A"] (loaded []) = None.
Proof. reflexivity. Qed.

(** X19. The submit button sends the answers at once exactly when every
    fetched question has an answer; when one is missing it opens the
    confirmation dialog and sends nothing.  (Question ids distinct, answers
    keyed by fetched questions.) *)
Theorem submit_asks_when_unanswered qs st :
  questions st = Some qs ->
  answers_ok st ->
  NoDup (map Question.id qs) ->
  if forallb (fun question => has (Question.id question) (userAnswers st)) qs
  then handleSubmitExam st = submitExam st
  else showSubmitDialog (handleSubmitExam st) = true /\
       mutations (handleSubmitExam st) = mutations st.
Proof.
  intros Hq [Hasc Hkeys] Hnd. unfold handleSubmitExam. rewrite Hq.
  pose proof (ascending_NoDup _ Hasc) as Hndk.
  destruct (forallb (fun question => has (Question.id question) (userAnswers st))
                    qs) eqn:Hall.
  - rewrite forallb_forall in Hall.
    assert (Hincl : incl (map Question.id qs) (map fst (userAnswers st))).
    { intros k Hk. apply in_map_iff in Hk. destruct Hk as (question & <- & Hin).
      apply has_In. auto. }
    pose proof (NoDup_incl_length Hnd Hincl) as Hlen.
    rewrite !length_map in Hlen.
    destruct (Nat.ltb_spec (length (userAnswers st)) (length qs)); [lia|].
    reflexivity.
  - destruct (Nat.ltb_spec (length (userAnswers st)) (length qs)) as [|Hge];
      [cbn; auto|].
    exfalso.
    assert (Hincl : incl (map fst (userAnswers st)) (map Question.id qs))
      by (intros k Hk; now apply (Hkeys qs)).
    assert (Hback : incl (map Question.id qs) (map fst (userAnswers st))).
    { apply NoDup_length_incl; [exact Hndk | | exact Hincl].
      rewrite !length_map. exact Hge. }
    assert (Htrue : forallb (fun question =>
                               has (Question.id question) (userAnswers st)) qs
                    = true).
    { apply forallb_forall. intros question Hin. apply has_In.
      apply Hback. now apply in_map. }
    congruence.
Qed.

Lemma submit_asks_when_unanswered_witness :
  if forallb (fun question =>
                has (Question.id question) (userAnswers second_answered))
             two_questions
  then handleSubmitExam second_answered = submitExam second_answered
  else showSubmitDialog (handleSubmitExam second_answered) = true /\
       mutations (handleSubmitExam second_answered)
       = mutations second_answered.
Proof.
  apply (submit_asks_when_unanswered two_questions second_answered).
  - reflexivity.
  - split.
    + simpl. split; [intros y []|exact I].
    + intros qs' k H [<-|[]]. injection H as <-. simpl. auto.
  - repeat constructor; simpl; intuition discriminate.
Defined.

End SheetFacts.

(** ** A batch of the page, graded by the server *)

Lemma question_with_id_known qs k :
  In k (map Question.id qs) -> question_with_id qs k <> None.
Proof.
  intros Hin Hnone. now apply question_with_id_None in Hnone.
Qed.

(** X20. A batch the page composed from the questions of the exam is never
    rejected by the server for an unknown question id; and when it is
    graded and no point value of the exam is negative, the score lies
    between 0 and the total of the exam's point values. *)
Theorem page_batch_is_gradable req st evs page batch :
  AnswerSheet.session evs (AnswerSheet.loaded (exam_questions req st))
  = Some page ->
  In batch (AnswerSheet.mutations page) ->
  req_answers req = AnArray batch ->
  (forall qid, json (fst (submit req st)) <> QuestionNotFound qid) /\
  ((forall question, In question (exam_questions req st) ->
                     0 <= Question.points question) ->
   statusCode (fst (submit req st)) = 200 ->
   exists score,
     response_score (fst (submit req st)) = Some score /\
     0 <= score <= sum_points (exam_questions req st)).
Proof.
  intros Hs Hin Ha.
  destruct (SheetFacts.session_kept _ _ _ _
              (SheetFacts.loaded_kept (exam_questions req st)) Hs)
    as (_ & _ & _ & Hb).
  destruct (Hb batch Hin) as [Hnd Hknown].
  assert (Hnone : first_unknown (exam_questions req st) batch = None).
  { apply first_unknown_None. apply Forall_forall. intros a Hain.
    apply question_with_id_known. now apply Hknown. }
  split.
  - intros qid.
    destruct (submit_cases req st)
      as [(rejection & Hadm & ->)|
          (user & l & sub & st1 & _ & _ & _ & Ha' & _ & _ & Hcase)].
    + apply admission_rejects in Hadm. destruct Hadm as [_ [msg Hmsg]].
      cbn [fst]. congruence.
    + rewrite Ha in Ha'. injection Ha' as <-.
      destruct (halt (exam_questions req st) batch) eqn:Hh.
      * destruct (int4 _); rewrite Hcase; cbn; discriminate.
      * apply halt_AtUnknown in Hh. destruct Hh as (_ & Hq & _). congruence.
      * rewrite Hcase. cbn. discriminate.
  - intros Hpos H200.
    destruct (submit req st) as [resp st'] eqn:H. cbn [fst] in *.
    destruct (submit_ok _ _ _ _ H H200)
      as (user & l & sub & st1 & z & s0 & _ & Ha' & _ & _ & Hz & _ & _ & -> & _).
    rewrite Ha in Ha'. injection Ha' as <-.
    exists z. split; [reflexivity|].
    rewrite (stored_score_exact _ _ _ Hpos Hz),
      entries_score_correctly_answered.
    split.
    + apply sum_points_nonneg. intros x Hx. apply Hpos.
      exact (correctly_answered_incl _ _ x Hx).
    + apply sum_points_incl; [|apply correctly_answered_incl | exact Hpos].
      now apply correctly_answered_NoDup.
Qed.

Lemma page_batch_is_gradable_witness :
  (forall qid,
     json (fst (submit (request0 [mkAnswerData 1 (Some "A");
                                  mkAnswerData 2 (Some "C")]) store0))
     <> QuestionNotFound qid) /\
  ((forall question,
      In question (exam_questions
                     (request0 [mkAnswerData 1 (Some "A");
                                mkAnswerData 2 (Some "C")]) store0) ->
      0 <= Question.points question) ->
   statusCode (fst (submit (request0 [mkAnswerData 1 (Some "A");
                                      mkAnswerData 2 (Some "C")]) store0))
   = 200 ->
   exists score,
     response_score (fst (submit (request0 [mkAnswerData 1 (Some "A");
                                            mkAnswerData 2 (Some "C")])
                            store0)) = Some score /\
     0 <= score
     <= sum_points (exam_questions
                      (request0 [mkAnswerData 1 (Some "A");
                                 mkAnswerData 2 (Some "C")]) store0)).
Proof.
  apply (page_batch_is_gradable
           (request0 [mkAnswerData 1 (Some "A"); mkAnswerData 2 (Some "C")])
           store0
           [AnswerSheet.Select "A"; AnswerSheet.Next; AnswerSheet.Select "C";
            AnswerSheet.Confirm]
           (AnswerSheet.mk (Some (questions store0)) 1 [(1, "A"); (2, "C")] []
              false AnswerSheet.submitting
              [[mkAnswerData 1 (Some "A"); mkAnswerData 2 (Some "C")]])
           [mkAnswerData 1 (Some "A"); mkAnswerData 2 (Some "C")]).
  - vm_compute. reflexivity.
  - left. reflexivity.
  - reflexivity.
Defined.

(** ** The countdown in general *)

(** X21. Opened while the exam is available, with [r] whole seconds left,
    the countdown shows max(0, r - n) after [n] one-second ticks: it never
    goes below 0; and the time-expired signal has been raised once if more
    than [r] ticks have passed and not at all otherwise. *)
Theorem countdown_from_any_start e t n :
  ExamTaking.startTime e <= t <= ExamTaking.endTime e ->
  exists st,
    ExamTaking.run e t n = Some st /\
    ExamTaking.timeRemaining st
    = Some (Z.max 0 ((ExamTaking.endTime e - t) / 1000 - Z.of_nat n)) /\
    ExamTaking.signals st
    = if Z.of_nat n <=? (ExamTaking.endTime e - t) / 1000 then 0%nat else 1%nat.
Proof.
  intros Hav.
  destruct (CountdownFacts.openPage_counting e t Hav) as (st0 & Hopen & Hc & _).
  unfold ExamTaking.run. rewrite Hopen.
  set (r := (ExamTaking.endTime e - t) / 1000) in *.
  assert (Hr : 0 <= r) by (apply Z.div_pos; lia).
  destruct (Z.leb_spec (Z.of_nat n) r) as [Hle|Hgt].
  - destruct (CountdownFacts.ticks_counting e 0 n r st0 Hc Hle)
      as (st & Ht & (_ & Hrem & _ & _ & Hsig & _)).
    exists st. split; [exact Ht|]. split; [|exact Hsig].
    rewrite Hrem. f_equal. lia.
  - replace r with (Z.of_nat (Z.to_nat r)) in Hc by lia.
    destruct (CountdownFacts.ticks_signals e (Z.to_nat r) 0 st0 n Hc)
      as (st & Ht & Hsig & Hzero).
    exists st. split; [exact Ht|]. split.
    + rewrite Hzero by lia. f_equal. lia.
    + rewrite Hsig. destruct (Nat.leb_spec n (Z.to_nat r)); [lia|reflexivity].
Qed.

Lemma countdown_from_any_start_witness :
  exists st,
    ExamTaking.run ExamTaking.sample 3500 70 = Some st /\
    ExamTaking.timeRemaining st
    = Some (Z.max 0 ((ExamTaking.endTime ExamTaking.sample - 3500) / 1000
                     - Z.of_nat 70)) /\
    ExamTaking.signals st
    = if Z.of_nat 70 <=? (ExamTaking.endTime ExamTaking.sample - 3500) / 1000
      then 0%nat else 1%nat.
Proof.
  apply (countdown_from_any_start ExamTaking.sample 3500 70).
  simpl. lia.
Defined.

Lemma ticks_unmounted n : forall st,
  ExamTaking.intervalRef st = None ->
  exists st', ExamTaking.ticks n st = Some st' /\
              ExamTaking.intervalRef st' = None /\
              ExamTaking.callbacks st' = ExamTaking.callbacks st /\
              ExamTaking.signals st' = ExamTaking.signals st /\
              ExamTaking.timeRemaining st' = ExamTaking.timeRemaining st /\
              ExamTaking.showTimeUpDialog st' = ExamTaking.showTimeUpDialog st.
Proof.
  induction n as [|n IH]; intros st Hi; simpl; [eauto 10|].
  unfold ExamTaking.tick. cbn [ExamTaking.intervalRef ExamTaking.elapse].
  rewrite Hi.
  destruct (IH (ExamTaking.elapse 1000 st) Hi)
    as (st' & Ht & H1 & H2 & H3 & H4 & H5).
  exists st'. auto 10.
Qed.

(** X22. Leaving the page cancels the countdown: the unmount, in whatever
    state it happens, leaves no interval registered, so that in any number
    of further seconds the interval callback never runs again, and the
    time-expired signal, the dialog and the remaining time stay as they
    were. *)
Theorem unmount_cancels_countdown st n :
  ExamTaking.intervalRef (ExamTaking.unmount st) = None /\
  exists st',
    ExamTaking.ticks n (ExamTaking.unmount st) = Some st' /\
    ExamTaking.intervalRef st' = None /\
    ExamTaking.callbacks st' = ExamTaking.callbacks st /\
    ExamTaking.signals st' = ExamTaking.signals st /\
    ExamTaking.timeRemaining st' = ExamTaking.timeRemaining st /\
    ExamTaking.showTimeUpDialog st' = ExamTaking.showTimeUpDialog st.
Proof.
  assert (Hi : ExamTaking.intervalRef (ExamTaking.unmount st) = None).
  { unfold ExamTaking.unmount, ExamTaking.timerCleanup.
    destruct (ExamTaking.intervalRef st) eqn:E; cbn; [reflexivity | exact E]. }
  split; [exact Hi|].
  destruct (ticks_unmounted n _ Hi) as (st' & Ht & Hr' & Hc & Hs & Hr & Hd).
  exists st'. split; [exact Ht|]. split; [exact Hr'|].
  unfold ExamTaking.unmount, ExamTaking.timerCleanup in Hc, Hs, Hr, Hd.
  destruct (ExamTaking.intervalRef st); cbn in Hc, Hs, Hr, Hd; auto.
Qed.

(** Without the cleanup the callback of a page that is left would go on
    running every second: a state with its interval still registered
    counts one more run of the callback per tick. *)
Example interval_left_registered_keeps_running :
  option_map ExamTaking.callbacks
    (ExamTaking.ticks 5
       (ExamTaking.leave (ExamTaking.mk (Some ExamTaking.sample) (Some 10)
                            (Some 1) false true 0 2 0 0)))
  = Some 5%nat /\
  option_map ExamTaking.callbacks
    (ExamTaking.ticks 5
       (ExamTaking.unmount (ExamTaking.mk (Some ExamTaking.sample) (Some 10)
                              (Some 1) false true 0 2 0 0)))
  = Some 0%nat.
Proof. split; vm_compute; reflexivity. Qed.

(** X23. The effects after a tick settle within two renders, in every
    state of the page: a tick never leaves the component re-rendering. *)
Theorem tick_settles st : ExamTaking.tick st <> None.
Proof.
  destruct st as [ex tr ir sh mo nw tm sg cb].
  unfold ExamTaking.tick, ExamTaking.onInterval, ExamTaking.called,
    ExamTaking.setTimeRemaining,
    ExamTaking.rerender, ExamTaking.initTimer, ExamTaking.timerCleanup,
    ExamTaking.timerEffect, ExamTaking.falsy, ExamTaking.same.
  cbn -[Z.leb Z.eqb Z.add Z.sub ExamTaking.initialTimeRemaining].
  destruct ir as [i|]; [|discriminate].
  destruct mo; [|discriminate].
  destruct ex as [e|].
  - generalize (ExamTaking.initialTimeRemaining e (nw + 1000)). intros v.
    destruct tr as [prev|];
      cbn -[Z.leb Z.eqb Z.add Z.sub];
      repeat match goal with
             | |- context [if ?c then _ else _] =>
                 let E := fresh "E" in destruct c eqn:E;
                 cbn -[Z.leb Z.eqb Z.add Z.sub]
             end;
      try discriminate;
      rewrite ?Z.eqb_refl in *; try discriminate;
      try (apply Z.eqb_eq in E; subst; rewrite ?Z.eqb_refl in *; discriminate);
      lia.
  - destruct tr as [prev|];
      cbn -[Z.leb Z.eqb Z.add Z.sub];
      repeat match goal with
             | |- context [if ?c then _ else _] =>
                 let E := fresh "E" in destruct c eqn:E;
                 cbn -[Z.leb Z.eqb Z.add Z.sub]
             end;
      discriminate.
Qed.

(** ** The display of the remaining time *)

Lemma padStart2_two_digits n :
  0 <= n < 100 -> padStart2 (toString n) = two_digits n.
Proof.
  intros Hn. replace n with (Z.of_nat (Z.to_nat n)) by lia.
  assert (Hk : (Z.to_nat n < 100)%nat) by lia.
  generalize dependent (Z.to_nat n). clear n Hn. intros k Hk.
  do 100 (destruct k as [|k]; [vm_compute; reflexivity|]).
  lia.
Qed.

Lemma digit_inj a b :
  0 <= a < 10 -> 0 <= b < 10 -> digit a = digit b -> a = b.
Proof.
  intros Ha Hb H. unfold digit in H.
  apply (f_equal Ascii.nat_of_ascii) in H.
  rewrite !Ascii.nat_ascii_embedding in H by lia. lia.
Qed.

Lemma two_digits_inj a b :
  0 <= a < 100 -> 0 <= b < 100 -> two_digits a = two_digits b -> a = b.
Proof.
  intros Ha Hb H. unfold two_digits in H. injection H as H1 H2.
  apply digit_inj in H1;
    [|split; [apply Z.div_pos; lia | apply Z.div_lt_upper_bound; lia]
     |split; [apply Z.div_pos; lia | apply Z.div_lt_upper_bound; lia]].
  apply digit_inj in H2; [|apply Z.mod_pos_bound; lia|apply Z.mod_pos_bound; lia].
  rewrite (Z.div_mod a 10), (Z.div_mod b 10) by lia. lia.
Qed.

(** The display of a time below 100 hours, field by field. *)
Lemma formatTimeRemaining_fields t :
  0 <= t < 360000 ->
  formatTimeRemaining (Some t)
  = ((if t / 3600 >? 0 then two_digits (t / 3600) ++ ":" else "")
     ++ two_digits (t mod 3600 / 60) ++ ":" ++ two_digits (t mod 60))%string.
Proof.
  intros Ht. unfold formatTimeRemaining. cbv zeta.
  rewrite !Z.rem_mod_nonneg by lia.
  assert (0 <= t / 3600 < 100)
    by (split; [apply Z.div_pos; lia | apply Z.div_lt_upper_bound; lia]).
  pose proof (Z.mod_pos_bound t 3600 ltac:(lia)).
  assert (0 <= t mod 3600 / 60 < 100)
    by (split; [apply Z.div_pos; lia | apply Z.div_lt_upper_bound; lia]).
  pose proof (Z.mod_pos_bound t 60 ltac:(lia)).
  rewrite !padStart2_two_digits by lia. reflexivity.
Qed.

(** X24. Below 100 hours the display is unambiguous and of fixed shape: it
    is mm:ss (5 characters) below one hour and hh:mm:ss (8 characters) from
    one hour on, and two different remaining times are never displayed
    alike. *)
Theorem formatTimeRemaining_unambiguous t1 t2 :
  0 <= t1 < 360000 -> 0 <= t2 < 360000 ->
  String.length (formatTimeRemaining (Some t1))
  = (if t1 <? 3600 then 5%nat else 8%nat) /\
  (formatTimeRemaining (Some t1) = formatTimeRemaining (Some t2) -> t1 = t2).
Proof.
  intros H1 H2.
  rewrite !formatTimeRemaining_fields by assumption.
  assert (Hh : forall t, 0 <= t < 360000 ->
                 (t / 3600 >? 0) = negb (t <? 3600)).
  { intros t Ht. destruct (Z.ltb_spec t 3600).
    - rewrite Z.div_small by lia. reflexivity.
    - assert (1 <= t / 3600) by (apply Z.div_le_lower_bound; lia).
      simpl. apply Z.gtb_lt. lia. }
  rewrite !Hh by assumption.
  assert (Hparts : forall t, 0 <= t < 360000 ->
            0 <= t / 3600 < 100 /\ 0 <= t mod 3600 / 60 < 60 /\
            0 <= t mod 60 < 60 /\
            t = 3600 * (t / 3600) + 60 * (t mod 3600 / 60) + t mod 60).
  { intros t Ht.
    pose proof (Z.div_mod t 3600 ltac:(lia)).
    pose proof (Z.mod_pos_bound t 3600 ltac:(lia)).
    pose proof (Z.div_mod (t mod 3600) 60 ltac:(lia)).
    pose proof (Z.mod_pos_bound (t mod 3600) 60 ltac:(lia)).
    assert (Hm : (t mod 3600) mod 60 = t mod 60).
    { replace (t mod 60)
        with ((t mod 3600 + 60 * (t / 3600) * 60) mod 60)
        by (f_equal; lia).
      now rewrite Z.mod_add by lia. }
    repeat split; try lia;
      try (apply Z.div_pos; lia); try (apply Z.div_lt_upper_bound; lia);
      try (apply Z.mod_pos_bound; lia). }
  destruct (Hparts t1 H1) as (Hh1 & Hm1 & Hs1 & E1).
  destruct (Hparts t2 H2) as (Hh2 & Hm2 & Hs2 & E2).
  split.
  - destruct (t1 <? 3600); reflexivity.
  - destruct (Z.ltb_spec t1 3600) as [L1|L1];
      destruct (Z.ltb_spec t2 3600) as [L2|L2]; cbn [negb];
      unfold two_digits; cbn [append]; intros H.
    + injection H as A B C D.
      assert (t1 mod 3600 / 60 = t2 mod 3600 / 60)
        by (apply two_digits_inj; try lia; unfold two_digits; congruence).
      assert (t1 mod 60 = t2 mod 60)
        by (apply two_digits_inj; try lia; unfold two_digits; congruence).
      rewrite (Z.div_small t1), (Z.div_small t2) in * by lia. lia.
    + discriminate.
    + discriminate.
    + injection H as A B C D E F.
      assert (t1 / 3600 = t2 / 3600)
        by (apply two_digits_inj; try lia; unfold two_digits; congruence).
      assert (t1 mod 3600 / 60 = t2 mod 3600 / 60)
        by (apply two_digits_inj; try lia; unfold two_digits; congruence).
      assert (t1 mod 60 = t2 mod 60)
        by (apply two_digits_inj; try lia; unfold two_digits; congruence).
      lia.
Qed.

Lemma formatTimeRemaining_unambiguous_witness :
  String.length (formatTimeRemaining (Some 65))
  = (if 65 <? 3600 then 5%nat else 8%nat) /\
  (formatTimeRemaining (Some 65) = formatTimeRemaining (Some 3725) ->
   65 = 3725).
Proof.
  apply (formatTimeRemaining_unambiguous 65 3725); lia.
Defined.

(** The display at 65 seconds, at one hour two minutes five, and while the
    exam is loading. *)
Example formatTimeRemaining_samples :
  formatTimeRemaining (Some 65) = "01:05" /\
  formatTimeRemaining (Some 3725) = "01:02:05" /\
  formatTimeRemaining None = "00:00".
Proof. repeat split; vm_compute; reflexivity. Qed.

(** ** A request served alone *)




(** The sample request is answered after eight resumptions. *)
Example served_abd_is_submit :
  serving served_abd (idle store0)
  = mkServer store_completed [Return (fst (submit (request0 abd) store0))].
Proof. vm_compute. reflexivity. Qed.
